(** * hotel_scraper: a shallow embedding of the scraping, consolidation and
      geocoding pipeline, with the properties stated of it.

    The development follows the Python sources:
    - [hotel_scraper.py]   field extraction, page walk, checkpoints;
    - [consolidate_data.py] the relational store and the JSON loader;
    - [add_geocoding.py]    the cached geocoder and the country back-fill.

    Part I holds the definitions (one module per source concern), Part II
    the lemmas and theorems. *)

From Stdlib Require Import ZArith NArith QArith List String Ascii Bool Lia.
From Stdlib Require Import DecimalString DecimalNat.
From stdpp Require Import gmap strings.
Import ListNotations.

Local Open Scope N_scope.

(* ===================================================================== *)
(** * Part I. Definitions                                                 *)
(* ===================================================================== *)

(** ** Python values: [str], [int(...)], [float(...)] *)

Module Py.

(** A Python [str] is a sequence of Unicode code points: [list N]. *)

(** ASCII literals of the sources, as code points. *)
Definition u (s : string) : list N :=
  map N_of_ascii (list_ascii_of_string s).

Definition NL : N := 10.        (* '\n' *)
Definition POUND : N := 163.    (* U+00A3 *)
Definition DOLLAR : N := 36.
Definition EURO : N := 8364.    (* U+20AC *)
Definition COMMA : N := 44.
Definition SPACE : N := 32.
Definition COLON : N := 58.
Definition SLASH : N := 47.

(** The white-space code points of [str.strip()] and [str.isspace()]. *)
Definition isspace (c : N) : bool :=
  ((9 <=? c) && (c <=? 13)) || ((28 <=? c) && (c <=? 32))
  || (c =? 133) || (c =? 160) || (c =? 5760)
  || ((8192 <=? c) && (c <=? 8202))
  || (c =? 8232) || (c =? 8233) || (c =? 8239) || (c =? 8287)
  || (c =? 12288).

(** [str.isdigit] on one character.  Only the ASCII digits are modelled;
    the other Unicode digit characters are outside this model. *)
Definition isdigit (c : N) : bool := (48 <=? c) && (c <=? 57).

Fixpoint drop_while {A} (p : A -> bool) (l : list A) : list A :=
  match l with
  | [] => []
  | x :: t => if p x then drop_while p t else l
  end.

Definition lstrip_by (p : N -> bool) (s : list N) : list N := drop_while p s.
Definition rstrip_by (p : N -> bool) (s : list N) : list N :=
  rev (drop_while p (rev s)).
Definition strip_by (p : N -> bool) (s : list N) : list N :=
  rstrip_by p (lstrip_by p s).

Definition mem_char (chars : list N) (c : N) : bool := existsb (N.eqb c) chars.

(** [s.strip()] *)
Definition strip (s : list N) : list N := strip_by isspace s.
(** [s.strip(chars)] *)
Definition strip_chars (chars s : list N) : list N := strip_by (mem_char chars) s.
(** [s.rstrip(chars)] *)
Definition rstrip_chars (chars s : list N) : list N := rstrip_by (mem_char chars) s.

(** [s.startswith(p)] *)
Fixpoint startswith (s p : list N) {struct p} : bool :=
  match p, s with
  | [], _ => true
  | a :: p', b :: s' => (a =? b) && startswith s' p'
  | _ :: _, [] => false
  end.

(** [s.endswith(p)] *)
Definition endswith (s p : list N) : bool := startswith (rev s) (rev p).

(** [needle in s] *)
Fixpoint contains (needle s : list N) : bool :=
  startswith s needle
  || match s with [] => false | _ :: t => contains needle t end.

(** [s.replace(old, new)]: every non-overlapping occurrence, leftmost
    first.  [skip] counts the characters of a matched occurrence that are
    still to be passed over. *)
Fixpoint replace_from (old new : list N) (skip : nat) (s : list N) : list N :=
  match s with
  | [] => []
  | c :: t =>
      match skip with
      | S k => replace_from old new k t
      | O => if startswith s old
             then new ++ replace_from old new (length old - 1) t
             else c :: replace_from old new 0 t
      end
  end.

Definition replace (old new s : list N) : list N :=
  match old with
  | [] => new ++ flat_map (fun c => c :: new) s
  | _ :: _ => replace_from old new 0 s
  end.

(** [s.split(sep)]: the pieces between the non-overlapping occurrences of
    [sep], leftmost first; [cur] is the piece being read, reversed. *)
Fixpoint split_from (sep : list N) (skip : nat) (cur : list N) (s : list N)
  : list (list N) :=
  match s with
  | [] => [rev cur]
  | c :: t =>
      match skip with
      | S k => split_from sep k cur t
      | O => if startswith s sep
             then rev cur :: split_from sep (length sep - 1) [] t
             else split_from sep 0 (c :: cur) t
      end
  end.

(** The sources split on non-empty literals only (Python raises
    [ValueError] on an empty separator, which is not modelled). *)
Definition split (sep s : list N) : list (list N) := split_from sep 0 [] s.

(** [''.join(filter(str.isdigit, s))] *)
Definition only_digits (s : list N) : list N := List.filter isdigit s.

Definition nonempty (s : list N) : bool :=
  match s with [] => false | _ :: _ => true end.

(** [s.lower()] on one character: ASCII, Latin-1, and the basic Greek and
    Cyrillic capitals; other code points are left as they are (the
    context-dependent final sigma is not modelled). *)
Definition lower_char (c : N) : N :=
  if (65 <=? c) && (c <=? 90) then c + 32
  else if (192 <=? c) && (c <=? 222) && negb (c =? 215) then c + 32
  else if (913 <=? c) && (c <=? 937) && negb (c =? 930) then c + 32
  else if (1040 <=? c) && (c <=? 1071) then c + 32
  else if (1024 <=? c) && (c <=? 1039) then c + 80
  else c.

Definition lower (s : list N) : list N := map lower_char s.

(** The value of a string of ASCII digits, most significant first. *)
Definition digits_val (s : list N) : Z :=
  fold_left (fun acc c => (10 * acc + (Z.of_N c - 48))%Z) s 0%Z.

(** Digit-group underscores of numeric literals: allowed only between two
    digits.  [None] when one is misplaced. *)
Fixpoint drop_underscores (prev : N) (s : list N) : option (list N) :=
  match s with
  | [] => if prev =? 95 then None else Some []
  | c :: t =>
      if c =? 95 then
        if isdigit prev then drop_underscores c t else None
      else if (prev =? 95) && negb (isdigit c) then None
      else option_map (cons c) (drop_underscores c t)
  end.

(** Splits off the longest prefix of ASCII digits. *)
Fixpoint span_digits (s : list N) : list N * list N :=
  match s with
  | c :: t => if isdigit c
              then let '(d, r) := span_digits t in (c :: d, r)
              else ([], s)
  | [] => ([], [])
  end.

(** An optional sign: [(negative, rest)]. *)
Definition take_sign (s : list N) : bool * list N :=
  match s with
  | 43 :: t => (false, t)
  | 45 :: t => (true, t)
  | _ => (false, s)
  end.

(** [int(s)] in base ten; [None] is [ValueError].  (The interpreter's
    configurable bound on the length of decimal integer strings is not
    modelled.) *)
Definition int_of_str (s : list N) : option Z :=
  let '(neg, body) := take_sign (strip s) in
  match drop_underscores 0 body with
  | None => None
  | Some ds =>
      match ds with
      | [] => None
      | _ :: _ =>
          if forallb isdigit ds
          then Some (if neg then (- digits_val ds)%Z else digits_val ds)
          else None
      end
  end.

(** A [float]: a finite binary64 value, kept as the rational it equals, an
    infinity, or a NaN.  (The sign of zero is outside this model.) *)
Inductive float : Type :=
| Finite (q : Q)
| Inf (negative : bool)
| NaN.

(** The binary64 value nearest to [q], ties to even, and an infinity from
    2^1024 - 2^970 on: the rounding of [float(s)] and of [float(n)]. *)
Definition round_binary64 (q : Q) : float :=
  let a := Z.abs (Qnum q) in
  let b := Zpos (Qden q) in
  let negative := (Qnum q <? 0)%Z in
  if (a =? 0)%Z then Finite 0
  else
    (* the binary exponent [e] of [a/b]: 2^e <= a/b < 2^(e+1) *)
    let e0 := (Z.log2 a - Z.log2 b)%Z in
    let e := if (a * 2 ^ Z.max 0 (- e0) <? b * 2 ^ Z.max 0 e0)%Z
             then (e0 - 1)%Z else e0 in
    (* the exponent of the last place: 53 significant bits, none below
       2^-1074 *)
    let u := Z.max (e - 52) (- 1074) in
    let num := (a * 2 ^ Z.max 0 (- u))%Z in
    let den := (b * 2 ^ Z.max 0 u)%Z in
    let m := (num / den)%Z in
    let r := (num mod den)%Z in
    let m := if (2 * r <? den)%Z then m
             else if (den <? 2 * r)%Z then (m + 1)%Z
             else if Z.even m then m else (m + 1)%Z in
    if (1024 <=? e)%Z || ((e =? 1023)%Z && (m =? 2 ^ 53)%Z) then Inf negative
    else
      let v := Qred (Qmake (m * 2 ^ Z.max 0 u) (Z.to_pos (2 ^ Z.max 0 (- u)))) in
      Finite (if negative then Qopp v else v).

(** [mant * 10^e] as a reduced fraction. *)
Definition scale10 (mant e : Z) : Q :=
  match e with
  | Z0 => Qmake mant 1
  | Zpos p => Qmake (mant * Z.pow 10 (Zpos p)) 1
  | Zneg p => Qred (Qmake mant (Pos.pow 10 p))
  end.

(** The exponent part of a decimal literal: [Some 0] when there is none,
    [None] when it is malformed. *)
Definition parse_exponent (s : list N) : option Z :=
  match s with
  | [] => Some 0%Z
  | c :: t =>
      if (c =? 101) || (c =? 69) then
        let '(neg, ds) := take_sign t in
        match ds with
        | [] => None
        | _ :: _ =>
            if forallb isdigit ds
            then Some (if neg then (- digits_val ds)%Z else digits_val ds)
            else None
        end
      else None
  end.

(** digits [. digits] [exponent], with at least one digit before the
    exponent. *)
Definition parse_decimal (s : list N) : option Q :=
  let '(ip, r1) := span_digits s in
  let '(fp, r2) :=
    match r1 with
    | 46 :: t => span_digits t
    | _ => ([], r1)
    end in
  match ip ++ fp with
  | [] => None
  | _ :: _ =>
      match parse_exponent r2 with
      | None => None
      | Some e =>
          Some (scale10 (digits_val (ip ++ fp)) (e - Z.of_nat (length fp)))
      end
  end.

Definition is_word (w : string) (s : list N) : bool :=
  bool_decide (lower s = u w).

(** [float(s)]; [None] is [ValueError].  The decimal literal is read
    exactly and rounded to binary64.  Only ASCII digits are read as
    digits: the other Unicode decimal digits, which Python accepts too,
    are outside this model. *)
Definition float_of_str (s : list N) : option float :=
  match drop_underscores 0 (strip s) with
  | None => None
  | Some t =>
      let '(neg, body) := take_sign t in
      if is_word "inf" body || is_word "infinity" body then Some (Inf neg)
      else if is_word "nan" body then Some NaN
      else match parse_decimal body with
           | Some q => Some (round_binary64 (if neg then Qopp q else q))
           | None => None
           end
  end.

End Py.

(** ** Effects: exceptions, a log, and a threaded state *)

Module Eff.

Inductive exn : Type :=
| ValueError | KeyError | TypeError | AttributeError
| IntegrityError | InterfaceError | OperationalError | OverflowError
| OSError | TimeoutError | RequestError.

Inductive level : Type := DEBUG | INFO | WARNING | ERROR.

(** A log line: its level and the fixed part of its message. *)
Record entry : Type := Entry { lvl : level; msg : string }.

Inductive result (A : Type) : Type :=
| Ok (a : A)
| Raise (e : exn).
Arguments Ok {A} a.
Arguments Raise {A} e.

(** A computation over a state [S]: it either returns or raises, and in
    both cases leaves a state behind. *)
Definition M (S A : Type) : Type := S -> result A * S.

Definition ret {S A} (a : A) : M S A := fun s => (Ok a, s).
Definition raise {S A} (e : exn) : M S A := fun s => (Raise e, s).
Definition bind {S A B} (m : M S A) (k : A -> M S B) : M S B :=
  fun s => match m s with
           | (Ok a, s') => k a s'
           | (Raise e, s') => (Raise e, s')
           end.
Definition get {S} : M S S := fun s => (Ok s, s).
Definition put {S} (s : S) : M S unit := fun _ => (Ok tt, s).
Definition modify {S} (f : S -> S) : M S unit := fun s => (Ok tt, f s).

(** [try: m except <classes>: handler]: [handler e] is [None] for an
    exception the clause does not name. *)
Definition try_except {S A} (m : M S A) (handler : exn -> option (M S A))
  : M S A :=
  fun s => match m s with
           | (Ok a, s') => (Ok a, s')
           | (Raise e, s') =>
               match handler e with
               | Some h => h s'
               | None => (Raise e, s')
               end
           end.

Definition on_ValueError {S A} (h : M S A) (e : exn) : option (M S A) :=
  match e with ValueError => Some h | _ => None end.
Definition on_Exception {S A} (h : M S A) (e : exn) : option (M S A) := Some h.

Fixpoint for_each {S A} (l : list A) (body : A -> M S unit) : M S unit :=
  match l with
  | [] => ret tt
  | x :: t => bind (body x) (fun _ => for_each t body)
  end.

(** Components log through whatever state they run over. *)
Class HasLog (S : Type) : Type := {
  get_log : S -> list entry;
  set_log : list entry -> S -> S
}.

Definition log {S} `{HasLog S} (l : level) (m : string) : M S unit :=
  modify (fun s => set_log (get_log s ++ [Entry l m]) s).

#[export] Instance log_only : HasLog (list entry) :=
  {| get_log := fun lg => lg; set_log := fun lg _ => lg |}.

(** Runs a computation that only logs inside a larger state. *)
Definition with_log {S A} `{HasLog S} (m : M (list entry) A) : M S A :=
  fun s => let '(r, lg) := m (get_log s) in (r, set_log lg s).

(** A loop that threads an accumulator through its body. *)
Fixpoint fold_m {S A B} (l : list A) (body : B -> A -> M S B) (b : B) : M S B :=
  match l with
  | [] => ret b
  | x :: t => bind (body b x) (fun b' => fold_m t body b')
  end.

(** A computation that returns, without raising, from every state. *)
Definition returns {S A} (m : M S A) : Prop :=
  forall s, exists a s', m s = (Ok a, s').

(** [m] moves every state to one related to it by [R], whether it returns
    or raises. *)
Definition preserves {S A} (R : S -> S -> Prop) (m : M S A) : Prop :=
  forall s r s', m s = (r, s') -> R s s'.

End Eff.

Declare Scope eff_scope.
Delimit Scope eff_scope with eff.
Notation "x <- m ;; k" := (Eff.bind m (fun x => k))
  (at level 100, m at next level, right associativity) : eff_scope.
Notation "m ;;; k" := (Eff.bind m (fun _ => k))
  (at level 100, right associativity) : eff_scope.

(** ** [hotel_scraper.py]: the field extractor *)

Module Scraper.
Import Py Eff.
Local Open Scope eff_scope.

(** *** The hotel record built by [extract_hotel_data] *)

Record price_info : Type := PriceInfo {
  amount : option float;
  currency : list N;
  provider : list N;
  room_type : list N;
  cancellation_policy : list N
}.

Record tennis_info : Type := TennisInfo {
  total_courts : Z;
  lighted_courts : Z;
  court_surfaces : list (list N);
  surface_counts : list (list N * Z);      (* a dict, in insertion order *)
  opening_hours : list N;
  court_cost : list N;
  lessons_available : bool;
  lessons_cost : list N;
  equipment_rental : bool;
  equipment_cost : list N;
  requirements : list (list N);
  tennis_camps : bool;
  tournaments : bool;
  tennis_shop : bool;
  additional_info : list (list N)
}.

Record hotel_data : Type := HotelData {
  name : list N;
  location : list N;
  country : list N;
  source_country : list N;
  star_rating : nat;
  rating_score : option float;
  rating_text : list N;
  price : price_info;
  tennis_facilities : tennis_info;
  scrape_timestamp : list N;
  page_number : option nat                 (* the key is added by the walker *)
}.

(** Assignments to one key. *)
Definition set_amount v p :=
  PriceInfo v (currency p) (provider p) (room_type p) (cancellation_policy p).
Definition set_currency v p :=
  PriceInfo (amount p) v (provider p) (room_type p) (cancellation_policy p).
Definition set_provider v p :=
  PriceInfo (amount p) (currency p) v (room_type p) (cancellation_policy p).
Definition set_room_type v p :=
  PriceInfo (amount p) (currency p) (provider p) v (cancellation_policy p).
Definition set_cancellation_policy v p :=
  PriceInfo (amount p) (currency p) (provider p) (room_type p) v.

Definition set_total_courts v t :=
  TennisInfo v (lighted_courts t) (court_surfaces t) (surface_counts t)
    (opening_hours t) (court_cost t) (lessons_available t) (lessons_cost t)
    (equipment_rental t) (equipment_cost t) (requirements t) (tennis_camps t)
    (tournaments t) (tennis_shop t) (additional_info t).
Definition set_lighted_courts v t :=
  TennisInfo (total_courts t) v (court_surfaces t) (surface_counts t)
    (opening_hours t) (court_cost t) (lessons_available t) (lessons_cost t)
    (equipment_rental t) (equipment_cost t) (requirements t) (tennis_camps t)
    (tournaments t) (tennis_shop t) (additional_info t).
Definition set_court_surfaces v t :=
  TennisInfo (total_courts t) (lighted_courts t) v (surface_counts t)
    (opening_hours t) (court_cost t) (lessons_available t) (lessons_cost t)
    (equipment_rental t) (equipment_cost t) (requirements t) (tennis_camps t)
    (tournaments t) (tennis_shop t) (additional_info t).
Definition set_surface_counts v t :=
  TennisInfo (total_courts t) (lighted_courts t) (court_surfaces t) v
    (opening_hours t) (court_cost t) (lessons_available t) (lessons_cost t)
    (equipment_rental t) (equipment_cost t) (requirements t) (tennis_camps t)
    (tournaments t) (tennis_shop t) (additional_info t).
Definition set_opening_hours v t :=
  TennisInfo (total_courts t) (lighted_courts t) (court_surfaces t)
    (surface_counts t) v (court_cost t) (lessons_available t) (lessons_cost t)
    (equipment_rental t) (equipment_cost t) (requirements t) (tennis_camps t)
    (tournaments t) (tennis_shop t) (additional_info t).
Definition set_court_cost v t :=
  TennisInfo (total_courts t) (lighted_courts t) (court_surfaces t)
    (surface_counts t) (opening_hours t) v (lessons_available t)
    (lessons_cost t) (equipment_rental t) (equipment_cost t) (requirements t)
    (tennis_camps t) (tournaments t) (tennis_shop t) (additional_info t).
Definition set_lessons_available v t :=
  TennisInfo (total_courts t) (lighted_courts t) (court_surfaces t)
    (surface_counts t) (opening_hours t) (court_cost t) v (lessons_cost t)
    (equipment_rental t) (equipment_cost t) (requirements t) (tennis_camps t)
    (tournaments t) (tennis_shop t) (additional_info t).
Definition set_lessons_cost v t :=
  TennisInfo (total_courts t) (lighted_courts t) (court_surfaces t)
    (surface_counts t) (opening_hours t) (court_cost t) (lessons_available t)
    v (equipment_rental t) (equipment_cost t) (requirements t)
    (tennis_camps t) (tournaments t) (tennis_shop t) (additional_info t).

Definition set_name v h :=
  HotelData v (location h) (country h) (source_country h) (star_rating h)
    (rating_score h) (rating_text h) (price h) (tennis_facilities h)
    (scrape_timestamp h) (page_number h).
Definition set_location v h :=
  HotelData (name h) v (country h) (source_country h) (star_rating h)
    (rating_score h) (rating_text h) (price h) (tennis_facilities h)
    (scrape_timestamp h) (page_number h).
Definition set_country v h :=
  HotelData (name h) (location h) v (source_country h) (star_rating h)
    (rating_score h) (rating_text h) (price h) (tennis_facilities h)
    (scrape_timestamp h) (page_number h).
Definition set_source_country v h :=
  HotelData (name h) (location h) (country h) v (star_rating h)
    (rating_score h) (rating_text h) (price h) (tennis_facilities h)
    (scrape_timestamp h) (page_number h).
Definition set_star_rating v h :=
  HotelData (name h) (location h) (country h) (source_country h) v
    (rating_score h) (rating_text h) (price h) (tennis_facilities h)
    (scrape_timestamp h) (page_number h).
Definition set_rating_score v h :=
  HotelData (name h) (location h) (country h) (source_country h)
    (star_rating h) v (rating_text h) (price h) (tennis_facilities h)
    (scrape_timestamp h) (page_number h).
Definition set_rating_text v h :=
  HotelData (name h) (location h) (country h) (source_country h)
    (star_rating h) (rating_score h) v (price h) (tennis_facilities h)
    (scrape_timestamp h) (page_number h).
Definition set_price v h :=
  HotelData (name h) (location h) (country h) (source_country h)
    (star_rating h) (rating_score h) (rating_text h) v (tennis_facilities h)
    (scrape_timestamp h) (page_number h).
Definition set_tennis_facilities v h :=
  HotelData (name h) (location h) (country h) (source_country h)
    (star_rating h) (rating_score h) (rating_text h) (price h) v
    (scrape_timestamp h) (page_number h).
Definition set_page_number v h :=
  HotelData (name h) (location h) (country h) (source_country h)
    (star_rating h) (rating_score h) (rating_text h) (price h)
    (tennis_facilities h) (scrape_timestamp h) v.

(** [d[k] = v] on a dict kept in insertion order. *)
Fixpoint dict_set (k : list N) (v : Z) (d : list (list N * Z))
  : list (list N * Z) :=
  match d with
  | [] => [(k, v)]
  | (k', v') :: t =>
      if bool_decide (k = k') then (k, v) :: t else (k', v') :: dict_set k v t
  end.

(** *** The markup fragment of one listing

    What the selector queries of [extract_hotel_data] return on the
    fragment: [None] where [query_selector] finds nothing, the element's
    [inner_text()] (or attribute) where it finds one. *)

Record price_box : Type := PriceBox {
  price_amount : option (list N);      (* div[style*='color:#B12704'] *)
  provider_logo : option (list N);     (* src of img[src*='provider_logos'] *)
  main_price_room_type : option (list N);
  cancellation_text : option (list N)
}.

Record info_div : Type := InfoDiv {
  spans : list (list N);               (* inner_text of each span *)
  surface_divs : list (list N)         (* inner_text of each div:has(svg) *)
}.

Record tennis_section : Type := TennisSection {
  show_more_buttons : list bool;       (* per button: does click() succeed *)
  expand_arrows : list bool;
  questionnaire_divs : list info_div   (* div.tabs_content_font *)
}.

Record hotel_element : Type := HotelElement {
  hotel_li_name_link : option (list N);
  hotel_property_type_location : option (list N);
  star_elements : nat;                 (* number of .fa-star.star_ratings *)
  circle_rating : option (list N);
  rating_text_element : option (list N);
  main_price_box : option price_box;
  tab_height : option tennis_section
}.

(** *** [TravelmythScraper.__init__] *)

Definition european_countries : list (list N) := [u "World"; u "Portugal"].

(** *** [extract_hotel_data] *)

Definition init_hotel_data (now : list N) : hotel_data :=
  {| name := [];
     location := [];
     country := [];
     source_country := hd [] european_countries;
     star_rating := 0;
     rating_score := None;
     rating_text := [];
     price := {| amount := None; currency := u "USD"; provider := [];
                 room_type := []; cancellation_policy := [] |};
     tennis_facilities :=
       {| total_courts := 0; lighted_courts := 0; court_surfaces := [];
          surface_counts := []; opening_hours := []; court_cost := [];
          lessons_available := false; lessons_cost := [];
          equipment_rental := false; equipment_cost := [];
          requirements := []; tennis_camps := false; tournaments := false;
          tennis_shop := false; additional_info := [] |};
     scrape_timestamp := now;
     page_number := None |}.

Definition extract_name (el : hotel_element) (h : hotel_data)
  : M (list entry) hotel_data :=
  match hotel_li_name_link el with
  | Some t =>
      let h := set_name (strip t) h in
      log DEBUG "Found hotel name" ;;; ret h
  | None => log WARNING "Could not find hotel name element" ;;; ret h
  end.

Definition prefixes_to_remove : list (list N) :=
  [ u "Hotel in"; u "Resort in"; u "Guest House in"; u "Bed & Breakfast in";
    u "Country House in"; u "Hostel in"; u "Apartment in"; u "Aparthotel in";
    u "Villa in" ].

(** The [for prefix in prefixes_to_remove] loop with its [break]. *)
Fixpoint remove_prefix (prefixes : list (list N)) (location : list N) : list N :=
  match prefixes with
  | [] => location
  | prefix :: rest =>
      if startswith location prefix
      then strip (replace prefix [] location)
      else remove_prefix rest location
  end.

(** Lines 126-136: from the stripped raw text to the list [parts]. *)
Definition location_parts (location_text : list N) : list (list N) :=
  let location := remove_prefix prefixes_to_remove location_text in
  let location := strip (hd [] (split (u "Show on Map") location)) in
  List.filter nonempty (map strip (split [NL] location)).

Definition extract_location (el : hotel_element) (h : hotel_data)
  : M (list entry) hotel_data :=
  match hotel_property_type_location el with
  | Some t =>
      let location_text := strip t in
      log DEBUG "Raw location text" ;;;
      match location_parts location_text with
      | part0 :: rest =>
          let h := set_location (rstrip_chars [COMMA] part0) h in
          let h := set_country (match rest with part1 :: _ => part1 | [] => [] end) h in
          log DEBUG "Extracted location" ;;; ret h
      | [] => log WARNING "Could not parse location" ;;; ret h
      end
  | None => ret h
  end.

(** [float(text)], raising [ValueError]. *)
Definition to_float {S} (text : list N) : M S float :=
  match float_of_str text with
  | Some f => ret f
  | None => raise ValueError
  end.

(** [int(''.join(filter(str.isdigit, text)))], raising [ValueError]. *)
Definition to_count {S} (text : list N) : M S Z :=
  match int_of_str (only_digits text) with
  | Some n => ret n
  | None => raise ValueError
  end.

(** Lines 155-161.  The conversion of the score is not under a [try]. *)
Definition extract_rating (el : hotel_element) (h : hotel_data)
  : M (list entry) hotel_data :=
  h <- match circle_rating el with
       | Some t => f <- to_float (strip t) ;; ret (set_rating_score (Some f) h)
       | None => ret h
       end ;;
  match rating_text_element el with
  | Some t => ret (set_rating_text (strip t) h)
  | None => ret h
  end.

(** Line 174: the four [replace] calls. *)
Definition clean_price_text (price_text : list N) : list N :=
  replace [COMMA] [] (replace [EURO] [] (replace [DOLLAR] []
    (replace [POUND] [] price_text))).

(** Lines 171-180, on the text of the amount element. *)
Definition parse_price_amount (t : list N) (p : price_info)
  : M (list entry) price_info :=
  let price_text := strip t in
  let price_text := clean_price_text price_text in
  try_except
    (f <- to_float price_text ;;
     ret (set_currency (u "GBP") (set_amount (Some f) p)))
    (on_ValueError
       (log WARNING "Could not parse price" ;;; ret (set_amount None p))).

(** Lines 163-187. *)
Definition extract_price (el : hotel_element) (h : hotel_data)
  : M (list entry) hotel_data :=
  match main_price_box el with
  | Some box =>
      p <- match price_amount box with
           | Some t => parse_price_amount t (price h)
           | None => ret (price h)
           end ;;
      let p := match provider_logo box with
               | Some src =>
                   set_provider
                     (replace (u ".png") [] (List.last (split [SLASH] src) [])) p
               | None => p
               end in
      let p := match main_price_room_type box with
               | Some t => set_room_type (strip t) p
               | None => p
               end in
      let p := match cancellation_text box with
               | Some t => set_cancellation_policy (strip t) p
               | None => p
               end in
      ret (set_price p h)
  | None => ret h
  end.

Definition click (succeeds : bool) : M (list entry) unit :=
  if succeeds then ret tt else raise TimeoutError.

(** Lines 194-213: the two loops over the expand controls (the fixed pause
    after a click has no effect on the data and is left out). *)
Definition expand_section (sec : tennis_section) : M (list entry) unit :=
  for_each (show_more_buttons sec) (fun button =>
    try_except (click button ;;; log DEBUG "Clicked 'Show more' button")
      (on_Exception (log WARNING "Failed to click 'Show more' button"))) ;;;
  for_each (expand_arrows sec) (fun arrow =>
    try_except (click arrow ;;; log DEBUG "Clicked expand arrow")
      (on_Exception (log WARNING "Failed to click expand arrow"))).

(** Lines 249-262: one surface element. *)
Definition process_surface (t : tennis_info) (surface_div : list N)
  : M (list entry) tennis_info :=
  let surface_text := strip surface_div in
  match split (u "Number of courts:") surface_text with
  | [part0; part1] =>
      let surface_type := strip part0 in
      try_except
        (count <- to_count part1 ;;
         let t := if bool_decide (surface_type ∈ court_surfaces t) then t
                  else set_court_surfaces (court_surfaces t ++ [surface_type]) t in
         let t := set_surface_counts
                    (dict_set surface_type count (surface_counts t)) t in
         log DEBUG "Found surface" ;;; ret t)
        (on_ValueError
           (log WARNING "Could not parse court count for surface" ;;; ret t))
  | _ => ret t
  end.

Definition no_texts : list (list N) :=
  [ u "no"; [957; 959]; [1085; 1077; 1090] ].

(** Lines 218-286: one label/value element.  (Nothing in this model raises
    past the inner handlers, so the outer handler, kept for the shape of
    the source, is never entered.) *)
Definition process_div (t : tennis_info) (div : info_div)
  : M (list entry) tennis_info :=
  try_except
    (match spans div with
     | span0 :: span1 :: _ =>
         let label_text := strip span0 in
         let value_text := strip span1 in
         let label := lower label_text in
         let value := lower value_text in
         log DEBUG "Processing field" ;;;
         if existsb (fun court_text => contains court_text label)
              [u "number of all tennis courts"; u "tennis courts total"]
         then
           try_except
             (count <- to_count value_text ;;
              log DEBUG "Found total courts" ;;; ret (set_total_courts count t))
             (on_ValueError
                (log WARNING "Could not parse total courts" ;;; ret t))
         else if contains (u "lighted") label && contains (u "court") label
         then
           try_except
             (count <- to_count value_text ;;
              log DEBUG "Found lighted courts" ;;;
              ret (set_lighted_courts count t))
             (on_ValueError
                (log WARNING "Could not parse lighted courts" ;;; ret t))
         else if contains (u "terrain") label || contains (u "surface") label
         then fold_m (surface_divs div) process_surface t
         else if contains (u "opening hours") label
         then log DEBUG "Found opening hours" ;;;
              ret (set_opening_hours value_text t)
         else if contains (u "cost") label && contains (u "court") label
         then log DEBUG "Found court cost" ;;; ret (set_court_cost value_text t)
         else if contains (u "tennis lessons") label
         then
           let t := set_lessons_available
                      (negb (existsb (fun no_text => contains no_text value)
                               no_texts)) t in
           let t := if contains (u "charge") value || contains (u "cost") value
                    then match split [COLON] value_text with
                         | _ :: cost1 :: _ => set_lessons_cost (strip cost1) t
                         | _ => t
                         end
                    else t in
           log DEBUG "Found lessons info" ;;; ret t
         else ret t
     | _ => ret t
     end)
    (on_Exception (log WARNING "Error processing tennis info div" ;;; ret t)).

(** Lines 189-286. *)
Definition extract_tennis (el : hotel_element) (h : hotel_data)
  : M (list entry) hotel_data :=
  match tab_height el with
  | Some sec =>
      log DEBUG "Found tennis section" ;;;
      expand_section sec ;;;
      t <- fold_m (questionnaire_divs sec) process_div (tennis_facilities h) ;;
      ret (set_tennis_facilities t h)
  | None => ret h
  end.

(** [extract_hotel_data(hotel_element)]: [None] is the Python [None] of the
    outer handler.  [now] is [datetime.now().isoformat()]. *)
Definition extract_hotel_data (now : list N) (el : hotel_element)
  : M (list entry) (option hotel_data) :=
  try_except
    (log DEBUG "Starting data extraction for hotel element" ;;;
     h <- extract_name el (init_hotel_data now) ;;
     h <- extract_location el h ;;
     let h := set_star_rating (star_elements el) h in
     h <- extract_rating el h ;;
     h <- extract_price el h ;;
     h <- extract_tennis el h ;;
     log DEBUG "Completed data extraction for hotel" ;;;
     ret (Some h))
    (on_Exception (log ERROR "Error extracting hotel data" ;;; ret None)).

(** *** The browser, the disk and the walker's variables *)

(** What [navigate_to_next_page] meets on a page. *)
Inductive nav_outcome : Type :=
| NoButton          (* no control for the next page number *)
| NavRaises         (* the click or one of the waits raises *)
| UrlMismatch       (* the address does not carry the new page number *)
| Navigated.

(** One page of the site, as the selector queries see it. *)
Record page_model : Type := PageModel {
  goto_ok : bool;                          (* [page.goto] returns a response *)
  page_links : list (option (list N));     (* title of each .pagination .page-link *)
  listing_loads : bool;                    (* [wait_for_selector(".hotel_repeat")] *)
  hotel_repeat : list hotel_element;
  next_page : nav_outcome
}.

(** The site under one search address: the page shown for each number. *)
Definition site : Type := nat -> page_model.

(** The requests sent to the site.  Page 1 is the search address itself,
    page [n > 1] the address with [&page=n] appended. *)
Inductive request : Type :=
| Goto (page : nat)          (* [page.goto] of the address of that page *)
| ClickNext (page : nat)     (* click on the control of that page number *)
| Visit (country : list N) (page : nat). (* [page.goto] in the country sweep *)

(** The outcome of one [open(..., 'w')] / [json.dump]. *)
Inductive write_outcome : Type :=
| WriteOk
| CannotOpen       (* [open] raises: the file is left as it was *)
| FailsMidway.     (* the dump raises after the file was truncated *)

Inductive file : Type :=
| Json (data : list hotel_data)
| Html               (* the saved content of a page *)
| Partial.

Record world : Type := World {
  w_log : list entry;
  w_requests : list request;               (* oldest first *)
  w_files : gmap (list N) file;
  w_faults : list write_outcome;           (* consumed one per write *)
  (* the local variables of [scrape_hotels] *)
  all_hotels_data : list hotel_data;
  current_page : nat;
  total_pages : nat
}.

#[export] Instance world_log : HasLog world :=
  {| get_log := w_log;
     set_log := fun lg w =>
       World lg (w_requests w) (w_files w) (w_faults w)
         (all_hotels_data w) (current_page w) (total_pages w) |}.

Definition set_requests v w :=
  World (w_log w) v (w_files w) (w_faults w)
    (all_hotels_data w) (current_page w) (total_pages w).
Definition set_files v w :=
  World (w_log w) (w_requests w) v (w_faults w)
    (all_hotels_data w) (current_page w) (total_pages w).
Definition set_faults v w :=
  World (w_log w) (w_requests w) (w_files w) v
    (all_hotels_data w) (current_page w) (total_pages w).
Definition set_all_hotels_data v w :=
  World (w_log w) (w_requests w) (w_files w) (w_faults w)
    v (current_page w) (total_pages w).
Definition set_current_page v w :=
  World (w_log w) (w_requests w) (w_files w) (w_faults w)
    (all_hotels_data w) v (total_pages w).
Definition set_total_pages v w :=
  World (w_log w) (w_requests w) (w_files w) (w_faults w)
    (all_hotels_data w) (current_page w) v.

Definition send (r : request) : M world unit :=
  modify (fun w => set_requests (w_requests w ++ [r]) w).

(** [with open(path, 'w') as f: ...] writing [content]. *)
Definition write_file (path : list N) (content : file) : M world unit :=
  fun w =>
    match w_faults w with
    | [] => (Ok tt, set_files (<[path := content]> (w_files w)) w)
    | WriteOk :: rest =>
        (Ok tt, set_faults rest (set_files (<[path := content]> (w_files w)) w))
    | CannotOpen :: rest => (Raise OSError, set_faults rest w)
    | FailsMidway :: rest =>
        (Raise OSError, set_faults rest (set_files (<[path := Partial]> (w_files w)) w))
    end.

(** [with open(path, 'w') as f: json.dump(data, f)] *)
Definition write_json (path : list N) (data : list hotel_data) : M world unit :=
  write_file path (Json data).

(** [str(n)] *)
Definition str_of_nat (n : nat) : list N :=
  u (NilEmpty.string_of_uint (Nat.to_uint n)).

Definition checkpoint_file (page : nat) : list N :=
  u "tennis_hotels_checkpoint_page_" ++ str_of_nat page ++ u ".json".
Definition main_file : list N := u "tennis_hotels.json".

(** *** [get_total_pages] *)

(** [title and title.isdigit()] *)
Definition is_digit_title (title : option (list N)) : bool :=
  match title with
  | Some (c :: t) => forallb isdigit (c :: t)
  | _ => false
  end.

(** The loop filling [page_numbers]; [None] when an [int(title)] raises. *)
Fixpoint page_numbers (links : list (option (list N))) : option (list nat) :=
  match links with
  | [] => Some []
  | title :: rest =>
      if is_digit_title title then
        match int_of_str (default [] title) with
        | Some n => option_map (cons (Z.to_nat n)) (page_numbers rest)
        | None => None
        end
      else page_numbers rest
  end.

Definition get_total_pages (p : page_model) : M world nat :=
  try_except
    (match page_links p with
     | _ :: _ =>
         match page_numbers (page_links p) with
         | Some numbers =>
             let total := match numbers with
                          | [] => 1%nat
                          | _ :: _ => list_max numbers
                          end in
             log INFO "Found total pages" ;;; ret total
         | None => raise ValueError
         end
     | [] => ret 1%nat
     end)
    (on_Exception (log ERROR "Error getting total pages" ;;; ret 1%nat)).

(** *** [navigate_to_next_page] *)

Definition navigate_to_next_page (p : page_model) (current : nat)
  : M world bool :=
  try_except
    (match next_page p with
     | NoButton => log INFO "Next page button not found" ;;; ret false
     | NavRaises => send (ClickNext (current + 1)) ;;; raise TimeoutError
     | UrlMismatch =>
         send (ClickNext (current + 1)) ;;;
         log INFO "Clicked next page button" ;;;
         log ERROR "Failed to navigate - URL doesn't contain correct page number" ;;;
         ret false
     | Navigated =>
         send (ClickNext (current + 1)) ;;;
         log INFO "Clicked next page button" ;;;
         log INFO "Successfully navigated" ;;;
         ret true
     end)
    (on_Exception (log ERROR "Error navigating to next page" ;;; ret false)).

(** *** [save_checkpoint] *)

Definition save_checkpoint (data : list hotel_data) (page : nat) : M world unit :=
  try_except
    (write_json (checkpoint_file page) data ;;;
     log INFO "Checkpoint saved" ;;;
     write_json main_file data ;;;
     log INFO "Main data file updated")
    (on_Exception (log ERROR "Error saving checkpoint")).

(** *** [save_to_json] *)

Definition save_to_json (data : list hotel_data) (filename : list N)
  : M world unit :=
  try_except
    (write_json filename data ;;; log INFO "Data saved")
    (on_Exception (log ERROR "Error saving data")).

(** *** [scrape_hotels] *)

(** Lines 413-425: the loop over the listings of one page (the random
    pauses have no effect on the data and are left out). *)
Definition extract_page (now : list N) (els : list hotel_element) (page : nat)
  : M world (list hotel_data) :=
  fold_m els
    (fun page_hotels_data el =>
       log INFO "Processing hotel" ;;;
       r <- with_log (extract_hotel_data now el) ;;
       match r with
       | Some h =>
           log DEBUG "Successfully extracted data for hotel" ;;;
           ret (page_hotels_data ++ [set_page_number (Some page) h])
       | None =>
           log WARNING "Failed to extract data for hotel" ;;;
           ret page_hotels_data
       end) [].

Inductive loop_ctl : Type := Continue | Break.

(** Lines 406-445: the rest of a pass once the listings of page [cp] have
    loaded: extraction, checkpoint, and the choice between going on and
    [break]. *)
Definition complete_page (now : list N) (p : page_model) (cp : nat)
  : M world loop_ctl :=
  log INFO "Found hotels on page" ;;;
  page_hotels_data <- extract_page now (hotel_repeat p) cp ;;
  modify (fun w => set_all_hotels_data (all_hotels_data w ++ page_hotels_data) w) ;;;
  w <- get ;;
  save_checkpoint (all_hotels_data w) cp ;;;
  if (total_pages w <=? cp)%nat
  then log INFO "Reached last page" ;;; ret Break
  else
    moved <- navigate_to_next_page p cp ;;
    if moved
    then modify (set_current_page (cp + 1)) ;;; ret Continue
    else log INFO "Could not navigate to next page, ending pagination" ;;;
         ret Break.

(** One pass through the body of [while True] (lines 378-445). *)
Definition loop_body (now : list N) (st : site) : M world loop_ctl :=
  w <- get ;;
  let cp := current_page w in
  let p := st cp in
  log INFO "Scraping page" ;;;
  send (Goto cp) ;;;
  (if goto_ok p then log INFO "Page response status" else raise RequestError) ;;;
  (if (cp =? 1)%nat
   then total <- get_total_pages p ;;
        modify (set_total_pages total) ;;;
        log INFO "Total pages to scrape"
   else ret tt) ;;;
  log INFO "Waiting for hotel elements" ;;;
  if negb (listing_loads p)
  then log ERROR "Failed to load hotels" ;;; ret Break
  else complete_page now p cp.

(** [while True: body] run for at most [fuel] passes; the result tells
    whether the loop was left through a [break]. *)
Fixpoint while_true (fuel : nat) (body : M world loop_ctl) : M world bool :=
  match fuel with
  | O => ret false
  | S fuel' =>
      c <- body ;;
      match c with
      | Break => ret true
      | Continue => while_true fuel' body
      end
  end.

(** [scrape_hotels(base_url)] on the site found at [base_url]; [None] only
    when [fuel] passes did not reach the end of the loop. *)
Definition scrape_hotels (fuel : nat) (now : list N) (st : site)
  : M world (option (list hotel_data)) :=
  modify (set_all_hotels_data []) ;;;
  modify (set_current_page 1) ;;;
  finished <-
    try_except
      (log INFO "Starting browser session..." ;;;
       left <- while_true fuel (loop_body now st) ;;
       if left then log INFO "Closing browser..." ;;; ret true else ret false)
      (on_Exception
         (log ERROR "Error during scraping" ;;;
          write_file (u "error_page.html") Html ;;;
          log INFO "Saved error page content to error_page.html" ;;;
          w <- get ;;
          match all_hotels_data w with
          | [] => ret true
          | _ :: _ => save_checkpoint (all_hotels_data w) (current_page w) ;;; ret true
          end)) ;;
  if finished
  then log INFO "Scraping completed" ;;;
       w <- get ;; ret (Some (all_hotels_data w))
  else ret None.

(** *** [scrape_all_countries] *)

Definition country_checkpoint_file (country : list N) (page : nat) : list N :=
  u "tennis_hotels_" ++ lower country ++ u "_checkpoint_page_"
    ++ str_of_nat page ++ u ".json".
Definition country_file (country : list N) : list N :=
  u "tennis_hotels_" ++ lower country ++ u ".json".
Definition europe_file : list N := u "tennis_hotels_europe.json".

Definition visit (country : list N) (st : site) (page : nat) : M world unit :=
  send (Visit country page) ;;;
  if goto_ok (st page) then ret tt else raise RequestError.

(** Lines 513-521: the listings of one page of a country. *)
Definition extract_country_page (now country : list N)
    (els : list hotel_element) (page : nat) : M world (list hotel_data) :=
  fold_m els
    (fun page_hotels el =>
       r <- with_log (extract_hotel_data now el) ;;
       match r with
       | Some h =>
           ret (page_hotels ++
                  [set_page_number (Some page) (set_source_country country h)])
       | None => ret page_hotels
       end) [].

(** The body of the [try] of one country (lines 489-531). *)
Definition scrape_country (now : list N) (sites : list N -> site)
    (country : list N) : M world (list hotel_data) :=
  let st := sites country in
  log INFO "Starting scraping for country" ;;;
  visit country st 1 ;;;
  total <- get_total_pages (st 1%nat) ;;
  log INFO "Found pages for country" ;;;
  country_hotels <-
    fold_m (seq 1 total)
      (fun country_hotels page =>
         log INFO "Scraping page" ;;;
         visit country st page ;;;
         page_hotels <-
           extract_country_page now country (hotel_repeat (st page)) page ;;
         (* Save checkpoint for current page only *)
         save_to_json page_hotels (country_checkpoint_file country page) ;;;
         ret (country_hotels ++ page_hotels)) [] ;;
  save_to_json country_hotels (country_file country) ;;;
  ret country_hotels.

Definition scrape_countries (now : list N) (sites : list N -> site)
    (countries : list (list N)) : M world (list hotel_data) :=
  all_countries_data <-
    fold_m countries
      (fun all_countries_data country =>
         try_except
           (country_hotels <- scrape_country now sites country ;;
            ret (all_countries_data ++ country_hotels))
           (on_Exception
              (log ERROR "Error scraping country" ;;; ret all_countries_data)))
      [] ;;
  save_to_json all_countries_data europe_file ;;;
  ret all_countries_data.


End Scraper.

(** ** JSON documents as Python values *)

Module Json.
Import Py Eff.

(** What [json.load] returns.  A dict is kept as its items in order, with
    distinct keys. *)
#[warnings="-register-all"]
Inductive json : Type :=
| JNull
| JBool (b : bool)
| JInt (z : Z)
| JFloat (f : float)
| JStr (s : list N)
| JList (l : list json)
| JDict (items : list (list N * json)).

Fixpoint assoc (k : list N) (items : list (list N * json)) : option json :=
  match items with
  | [] => None
  | (k', v) :: t => if bool_decide (k = k') then Some v else assoc k t
  end.

(** [bool(v)] *)
Definition truthy (v : json) : bool :=
  match v with
  | JNull => false
  | JBool b => b
  | JInt z => negb (z =? 0)%Z
  | JFloat (Finite q) => negb (Qeq_bool q 0)
  | JFloat _ => true
  | JStr s => nonempty s
  | JList l => match l with [] => false | _ :: _ => true end
  | JDict d => match d with [] => false | _ :: _ => true end
  end.

(** [v[k]] for a string key. *)
Definition subscript {S} (v : json) (k : string) : M S json :=
  match v with
  | JDict items =>
      match assoc (u k) items with
      | Some x => ret x
      | None => raise KeyError
      end
  | _ => raise TypeError
  end.

(** [v.get(k, default)] *)
Definition get_or {S} (v : json) (k : string) (default : json) : M S json :=
  match v with
  | JDict items => ret (match assoc (u k) items with Some x => x | None => default end)
  | _ => raise AttributeError
  end.

(** [v.get(k)] *)
Definition get_key {S} (v : json) (k : string) : M S json := get_or v k JNull.

(** [k in v] for a string key: on a dict its keys, on a list its elements,
    on a string its substrings. *)
Definition has_key {S} (v : json) (k : string) : M S bool :=
  match v with
  | JDict items => ret (match assoc (u k) items with Some _ => true | None => false end)
  | JList l =>
      ret (existsb (fun x => match x with
                             | JStr s => bool_decide (s = u k)
                             | _ => false
                             end) l)
  | JStr s => ret (contains (u k) s)
  | _ => raise TypeError
  end.

(** [v.items()] *)
Definition items_of {S} (v : json) : M S (list (list N * json)) :=
  match v with
  | JDict items => ret items
  | _ => raise AttributeError
  end.

(** [for x in v] *)
Definition iterate {S} (v : json) : M S (list json) :=
  match v with
  | JList l => ret l
  | JDict items => ret (map (fun kv => JStr (fst kv)) items)
  | JStr s => ret (map (fun c => JStr [c]) s)
  | _ => raise TypeError
  end.

End Json.

(** ** The relational store (SQLite file) *)

Module Store.
Import Py Eff Json.

(** A stored value.  Values are stored as they are bound: the conversions
    of SQLite's column affinities are not modelled (on the records the
    scraper writes every value already has the storage class of its
    column). *)
Inductive value : Type :=
| Null
| Int (z : Z)
| Real (f : float)
| Text (s : list N).

#[export] Instance Q_eq_dec : EqDecision Q.
Proof. solve_decision. Defined.
#[export] Instance float_eq_dec : EqDecision float.
Proof. solve_decision. Defined.
#[export] Instance value_eq_dec : EqDecision value.
Proof. solve_decision. Defined.

Definition is_null (v : value) : bool :=
  match v with Null => true | _ => false end.

(** [a = b] in SQL: never true of a NULL. *)
Definition sql_eq (a b : value) : bool :=
  negb (is_null a) && negb (is_null b) && bool_decide (a = b).

(** [v IS NULL OR v = ''] *)
Definition null_or_empty (v : value) : bool :=
  is_null v || sql_eq v (Text []).

(** Binding a Python value as a statement parameter.  A list or a dict
    cannot be bound ([InterfaceError]; newer versions of the [sqlite3]
    module raise [ProgrammingError] there), and NaN is stored as NULL. *)
Definition bind_param {S} (v : json) : M S value :=
  match v with
  | JNull => ret Null
  | JBool b => ret (Int (if b then 1 else 0))
  | JInt z =>
      if ((- 2 ^ 63 <=? z) && (z <? 2 ^ 63))%Z then ret (Int z)
      else raise OverflowError
  | JFloat NaN => ret Null
  | JFloat f => ret (Real f)
  | JStr s => ret (Text s)
  | JList _ | JDict _ => raise InterfaceError
  end.

Record hotel_row : Type := HotelRow {
  h_id : Z;
  h_name : value;
  h_location : value;
  h_country : value;
  h_source_country : value;
  h_star_rating : value;
  h_rating_score : value;
  h_rating_text : value;
  h_page_number : value;
  h_scrape_timestamp : value
}.

Record price_row : Type := PriceRow {
  p_id : Z;
  p_hotel_id : Z;
  p_amount : value;
  p_currency : value;
  p_provider : value;
  p_room_type : value;
  p_cancellation_policy : value
}.

Record facility_row : Type := FacilityRow {
  f_id : Z;
  f_hotel_id : Z;
  f_total_courts : value;
  f_lighted_courts : value;
  f_opening_hours : value;
  f_court_cost : value;
  f_lessons_available : value;
  f_lessons_cost : value;
  f_equipment_rental : value;
  f_equipment_cost : value;
  f_tennis_camps : value;
  f_tournaments : value;
  f_tennis_shop : value
}.

Record surface_row : Type := SurfaceRow {
  s_id : Z;
  s_facility_id : Z;
  s_surface_type : value;
  s_court_count : value
}.

Record geocoding_row : Type := GeocodingRow {
  g_id : Z;
  g_location_string : value;
  g_latitude : value;
  g_longitude : value;
  g_country_code : value;
  g_formatted_address : value;
  g_last_updated : value
}.

(** A table with an AUTOINCREMENT key: its rows in insertion order and the
    largest key ever given out ([sqlite_sequence]). *)
Record table (R : Type) : Type := Table {
  rows : list R;
  seq : Z
}.
Arguments Table {R} rows seq.
Arguments rows {R} t.
Arguments seq {R} t.

Definition empty_table {R} : table R := Table [] 0%Z.

(** The key of the next inserted row. *)
Definition next_id {R} (id_of : R -> Z) (t : table R) : Z :=
  (1 + fold_right Z.max (seq t) (map id_of (rows t)))%Z.

Definition append_row {R} (id_of : R -> Z) (mk : Z -> R) (t : table R)
  : table R :=
  let id := next_id id_of t in Table (rows t ++ [mk id]) id.

(** A database file: each table is there or not. *)
Record db : Type := Db {
  hotels : option (table hotel_row);
  prices : option (table price_row);
  tennis_facilities : option (table facility_row);
  court_surfaces : option (table surface_row);
  geocoding : option (table geocoding_row)
}.

(** The file [sqlite3.connect] creates when there is none. *)
Definition no_tables : db := Db None None None None None.

Definition set_hotels v d :=
  Db v (prices d) (tennis_facilities d) (court_surfaces d) (geocoding d).
Definition set_prices v d :=
  Db (hotels d) v (tennis_facilities d) (court_surfaces d) (geocoding d).
Definition set_tennis_facilities v d :=
  Db (hotels d) (prices d) v (court_surfaces d) (geocoding d).
Definition set_court_surfaces v d :=
  Db (hotels d) (prices d) (tennis_facilities d) v (geocoding d).
Definition set_geocoding v d :=
  Db (hotels d) (prices d) (tennis_facilities d) (court_surfaces d) v.

(** [CREATE TABLE IF NOT EXISTS] *)
Definition create_if_missing {R} (t : option (table R)) : option (table R) :=
  match t with
  | Some _ => t
  | None => Some empty_table
  end.

End Store.

(** ** [consolidate_data.py] *)

Module Consolidator.
Import Py Eff Json Store.
Local Open Scope eff_scope.

(** The database file of the consolidator ([None]: there is no file) and
    the log. *)
Record disk : Type := Disk {
  db_file : option db;
  d_log : list entry
}.

#[export] Instance disk_log : HasLog disk :=
  {| get_log := d_log; set_log := fun lg s => Disk (db_file s) lg |}.

Definition set_db_file (v : option db) (s : disk) : disk := Disk v (d_log s).

(** [delete_database(db_path)]; [remove_ok] tells whether [os.remove]
    succeeds.  The handler logs and raises again. *)
Definition delete_database (remove_ok : bool) : M disk unit :=
  try_except
    (s <- get ;;
     match db_file s with
     | Some _ =>
         log INFO "Deleting existing database" ;;;
         (if remove_ok then modify (set_db_file None) else raise OSError) ;;;
         log INFO "Database deleted successfully"
     | None => log INFO "No existing database found"
     end)
    (fun e => Some (log ERROR "Error deleting database" ;;; raise e)).

(** [sqlite3.connect(db_name)]: creates the file when there is none. *)
Definition connect : M disk unit :=
  modify (fun s => match db_file s with
                   | Some _ => s
                   | None => set_db_file (Some no_tables) s
                   end).

Definition the_db (s : disk) : db := default no_tables (db_file s).

Definition update_db (f : db -> db) : M disk unit :=
  modify (fun s => set_db_file (Some (f (the_db s))) s).

(** [setup_database]: the four [CREATE TABLE IF NOT EXISTS]. *)
Definition setup_database : M disk unit :=
  connect ;;;
  update_db (fun d => set_hotels (create_if_missing (hotels d)) d) ;;;
  update_db (fun d => set_prices (create_if_missing (prices d)) d) ;;;
  update_db (fun d => set_tennis_facilities (create_if_missing (tennis_facilities d)) d) ;;;
  update_db (fun d => set_court_surfaces (create_if_missing (court_surfaces d)) d).

(** [initialize_database], run by [TennisHotelsDB.__init__]. *)
Definition initialize_database (remove_ok : bool) : M disk unit :=
  delete_database remove_ok ;;;
  log INFO "Creating new database..." ;;;
  setup_database ;;;
  log INFO "Database initialized successfully".

(** [UNIQUE(name, location, scrape_timestamp)]: does the stored row [r]
    collide with a new row of these three values. *)
Definition hotel_conflict (name location ts : value) (r : hotel_row) : bool :=
  sql_eq name (h_name r) && sql_eq location (h_location r)
  && sql_eq ts (h_scrape_timestamp r).

(** [INSERT OR REPLACE INTO hotels (...) VALUES (...)]; returns
    [cursor.lastrowid]. *)
Definition insert_hotel (name location country source_country star_rating
    rating_score rating_text page_number ts : value) : M disk Z :=
  s <- get ;;
  match hotels (the_db s) with
  | None => raise OperationalError
  | Some t =>
      if is_null name then raise IntegrityError
      else
        let id := next_id h_id t in
        let kept :=
          List.filter (fun r => negb (hotel_conflict name location ts r)) (rows t) in
        let row := HotelRow id name location country source_country
                     star_rating rating_score rating_text page_number ts in
        update_db (set_hotels (Some (Table (kept ++ [row]) id))) ;;;
        ret id
  end.

(** [INSERT INTO prices (...) VALUES (...)] *)
Definition insert_price (hotel_id : Z) (a c p r cp : value) : M disk Z :=
  s <- get ;;
  match prices (the_db s) with
  | None => raise OperationalError
  | Some t =>
      update_db (set_prices
        (Some (append_row p_id (fun id => PriceRow id hotel_id a c p r cp) t))) ;;;
      ret (next_id p_id t)
  end.

(** [INSERT INTO tennis_facilities (...) VALUES (...)] *)
Definition insert_facility (hotel_id : Z)
    (v1 v2 v3 v4 v5 v6 v7 v8 v9 v10 v11 : value) : M disk Z :=
  s <- get ;;
  match Store.tennis_facilities (the_db s) with
  | None => raise OperationalError
  | Some t =>
      update_db (set_tennis_facilities
        (Some (append_row f_id
                 (fun id => FacilityRow id hotel_id v1 v2 v3 v4 v5 v6 v7 v8 v9 v10 v11)
                 t))) ;;;
      ret (next_id f_id t)
  end.

(** [INSERT INTO court_surfaces (...) VALUES (...)] *)
Definition insert_surface (facility_id : Z) (surface count : value) : M disk Z :=
  s <- get ;;
  match Store.court_surfaces (the_db s) with
  | None => raise OperationalError
  | Some t =>
      update_db (set_court_surfaces
        (Some (append_row s_id (fun id => SurfaceRow id facility_id surface count) t))) ;;;
      ret (next_id s_id t)
  end.

(** Lines 117-135: the hotel row. *)
Definition insert_basic_info (now : list N) (hotel_data : json) : M disk Z :=
  name <- subscript hotel_data "name" ;;
  location <- get_or hotel_data "location" (JStr []) ;;
  country <- get_or hotel_data "country" (JStr []) ;;
  source_country <- get_or hotel_data "source_country" (JStr []) ;;
  star_rating <- get_or hotel_data "star_rating" (JInt 0) ;;
  rating_score <- get_key hotel_data "rating_score" ;;
  rating_text <- get_or hotel_data "rating_text" (JStr []) ;;
  page_number <- get_or hotel_data "page_number" (JInt 0) ;;
  ts <- get_or hotel_data "scrape_timestamp" (JStr now) ;;
  name <- bind_param name ;;
  location <- bind_param location ;;
  country <- bind_param country ;;
  source_country <- bind_param source_country ;;
  star_rating <- bind_param star_rating ;;
  rating_score <- bind_param rating_score ;;
  rating_text <- bind_param rating_text ;;
  page_number <- bind_param page_number ;;
  ts <- bind_param ts ;;
  insert_hotel name location country source_country star_rating rating_score
    rating_text page_number ts.

(** Lines 137-150: the price row. *)
Definition insert_price_info (hotel_id : Z) (hotel_data : json) : M disk unit :=
  price <- get_key hotel_data "price" ;;
  if truthy price then
    price <- subscript hotel_data "price" ;;
    a <- get_key price "amount" ;;
    c <- get_key price "currency" ;;
    p <- get_key price "provider" ;;
    r <- get_key price "room_type" ;;
    cp <- get_key price "cancellation_policy" ;;
    a <- bind_param a ;;
    c <- bind_param c ;;
    p <- bind_param p ;;
    r <- bind_param r ;;
    cp <- bind_param cp ;;
    insert_price hotel_id a c p r cp ;;; ret tt
  else ret tt.

(** Lines 178-184: the surface rows. *)
Definition insert_surfaces (facility_id : Z) (facilities : json) : M disk unit :=
  present <- has_key facilities "surface_counts" ;;
  if present then
    counts <- subscript facilities "surface_counts" ;;
    items <- items_of counts ;;
    for_each items (fun item =>
      count <- bind_param (snd item) ;;
      insert_surface facility_id (Text (fst item)) count ;;; ret tt)
  else ret tt.

(** Lines 152-184: the facility row and its surfaces. *)
Definition insert_tennis_facilities (hotel_id : Z) (hotel_data : json)
  : M disk unit :=
  facilities <- get_key hotel_data "tennis_facilities" ;;
  if truthy facilities then
    t <- subscript hotel_data "tennis_facilities" ;;
    v1 <- get_or t "total_courts" (JInt 0) ;;
    v2 <- get_or t "lighted_courts" (JInt 0) ;;
    v3 <- get_or t "opening_hours" (JStr []) ;;
    v4 <- get_or t "court_cost" (JStr []) ;;
    v5 <- get_or t "lessons_available" (JBool false) ;;
    v6 <- get_or t "lessons_cost" (JStr []) ;;
    v7 <- get_or t "equipment_rental" (JBool false) ;;
    v8 <- get_or t "equipment_cost" (JStr []) ;;
    v9 <- get_or t "tennis_camps" (JBool false) ;;
    v10 <- get_or t "tournaments" (JBool false) ;;
    v11 <- get_or t "tennis_shop" (JBool false) ;;
    v1 <- bind_param v1 ;;
    v2 <- bind_param v2 ;;
    v3 <- bind_param v3 ;;
    v4 <- bind_param v4 ;;
    v5 <- bind_param v5 ;;
    v6 <- bind_param v6 ;;
    v7 <- bind_param v7 ;;
    v8 <- bind_param v8 ;;
    v9 <- bind_param v9 ;;
    v10 <- bind_param v10 ;;
    v11 <- bind_param v11 ;;
    facility_id <- insert_facility hotel_id v1 v2 v3 v4 v5 v6 v7 v8 v9 v10 v11 ;;
    insert_surfaces facility_id t
  else ret tt.

(** [conn.rollback()]: back to the database as it was when the
    transaction began. *)
Definition rollback (snapshot : disk) : M disk unit :=
  modify (set_db_file (db_file snapshot)).

(** [insert_hotel_data(hotel_data)].  The handler formats its message with
    [hotel_data['name']] before it rolls back; when that raises, the
    exception leaves the function through the [with] block of the
    connection, which rolls back and raises it again.  [now] is
    [datetime.now().isoformat()]. *)
Definition insert_hotel_data (now : list N) (hotel_data : json) : M disk bool :=
  connect ;;;
  snapshot <- get ;;
  try_except
    (try_except
       (hotel_id <- insert_basic_info now hotel_data ;;
        insert_price_info hotel_id hotel_data ;;;
        insert_tennis_facilities hotel_id hotel_data ;;;
        (* conn.commit() *)
        ret true)
       (on_Exception
          (subscript hotel_data "name" ;;;
           log ERROR "Error inserting hotel" ;;;
           rollback snapshot ;;;
           ret false)))
    (fun e => Some (rollback snapshot ;;; raise e)).

(** [process_json_file(filepath)] on the content of the file: [None] when
    it cannot be opened or is not JSON. *)
Definition process_json_file (now : list N) (content : option json) : M disk nat :=
  try_except
    (match content with
     | None => raise OSError
     | Some hotels =>
         hotels <- iterate hotels ;;
         successful_inserts <-
           fold_m hotels
             (fun successful_inserts hotel =>
                ok <- insert_hotel_data now hotel ;;
                ret (if ok then S successful_inserts else successful_inserts))
             O ;;
         log INFO "Processed hotels from file" ;;;
         ret successful_inserts
     end)
    (on_Exception (log ERROR "Error processing file" ;;; ret O)).

(** [consolidate_all_files] on the listing of the current directory. *)
Definition consolidate_all_files (now : list N)
    (listing : list (list N * option json)) : M disk nat :=
  let json_files := List.filter (fun f => endswith (fst f) (u ".json")) listing in
  total_hotels <-
    fold_m json_files
      (fun total_hotels file =>
         if negb (contains (u "checkpoint") (fst file)) then
           log INFO "Processing file" ;;;
           n <- process_json_file now (snd file) ;;
           ret (total_hotels + n)%nat
         else ret total_hotels)
      O ;;
  log INFO "Completed consolidation" ;;;
  ret total_hotels.

End Consolidator.

(** ** [add_geocoding.py] *)

Module Geocoder.
Import Py Eff Json Store.
Local Open Scope eff_scope.

(** The dict built from the first result of the endpoint. *)
Record geocoded : Type := Geocoded {
  lat : float;
  lon : float;
  country_code : json;
  formatted_address : json
}.

(** What one [requests.get] to the endpoint leads to: an exception (of the
    request, of [raise_for_status] or of [response.json()]), or the decoded
    body. *)
Inductive response : Type :=
| NetworkError
| Body (results : json).

Record geo : Type := Geo {
  g_db : option db;                       (* the database file *)
  cache : gmap (list N) geocoded;         (* [self.cache] *)
  cache_file : option (gmap (list N) geocoded);   (* geocode_cache.json *)
  pending : list response;                (* the endpoint's answers to come *)
  calls : list (list N);                  (* the queries sent, oldest first *)
  cache_faults : list bool;               (* per write of the cache file: does it succeed *)
  g_log : list entry
}.

#[export] Instance geo_log : HasLog geo :=
  {| get_log := g_log;
     set_log := fun lg s =>
       Geo (g_db s) (cache s) (cache_file s) (pending s) (calls s)
         (cache_faults s) lg |}.

Definition set_g_db v s :=
  Geo v (cache s) (cache_file s) (pending s) (calls s) (cache_faults s) (g_log s).
Definition set_cache v s :=
  Geo (g_db s) v (cache_file s) (pending s) (calls s) (cache_faults s) (g_log s).
Definition set_cache_file v s :=
  Geo (g_db s) (cache s) v (pending s) (calls s) (cache_faults s) (g_log s).
Definition set_pending v s :=
  Geo (g_db s) (cache s) (cache_file s) v (calls s) (cache_faults s) (g_log s).
Definition set_calls v s :=
  Geo (g_db s) (cache s) (cache_file s) (pending s) v (cache_faults s) (g_log s).
Definition set_cache_faults v s :=
  Geo (g_db s) (cache s) (cache_file s) (pending s) (calls s) v (g_log s).

Definition the_db (s : geo) : db := default no_tables (g_db s).

Definition update_db (f : db -> db) : M geo unit :=
  modify (fun s => set_g_db (Some (f (the_db s))) s).

(** [setup_geocoding_table] *)
Definition setup_geocoding_table : M geo unit :=
  update_db (fun d => set_geocoding (create_if_missing (geocoding d)) d).

(** [load_cache] *)
Definition load_cache : M geo unit :=
  modify (set_cache ∅) ;;;
  s <- get ;;
  match cache_file s with
  | Some c => modify (set_cache c) ;;; log INFO "Loaded cached locations"
  | None => ret tt
  end.

(** [GeocodingUpdater.__init__] *)
Definition init : M geo unit := setup_geocoding_table ;;; load_cache.

(** [save_cache] *)
Definition save_cache : M geo unit :=
  try_except
    (s <- get ;;
     match cache_faults s with
     | false :: rest => modify (set_cache_faults rest) ;;; raise OSError
     | ok =>
         modify (fun s => set_cache_faults (tl ok) (set_cache_file (Some (cache s)) s)) ;;;
         log INFO "Saved locations to cache"
     end)
    (on_Exception (log ERROR "Error saving cache")).

(** [f"{country}"] for a country that is a string or [None]. *)
Definition fmt_country (country : option (list N)) : list N :=
  default (u "None") country.

(** [f"{location}, {country}".strip(', ')] *)
Definition cache_key (location : list N) (country : option (list N)) : list N :=
  strip_chars (u ", ") (location ++ u ", " ++ fmt_country country).

(** Lines 73-76. *)
Definition search_query (location : list N) (country : option (list N)) : list N :=
  match country with
  | Some (c :: t) => location ++ u ", " ++ (c :: t)
  | _ => location
  end.

(** [requests.get(url, params, headers)] with [raise_for_status] and
    [response.json()]: one call to the endpoint. *)
Definition request_endpoint (query : list N) : M geo json :=
  modify (fun s => set_calls (calls s ++ [query]) s) ;;;
  s <- get ;;
  match pending s with
  | Body results :: rest => modify (set_pending rest) ;;; ret results
  | NetworkError :: rest => modify (set_pending rest) ;;; raise RequestError
  | [] => raise RequestError
  end.

(** [float(v)] of a decoded JSON value. *)
Definition float_of_json {S} (v : json) : M S float :=
  match v with
  | JStr s => match float_of_str s with Some f => ret f | None => raise ValueError end
  | JInt z => match round_binary64 (inject_Z z) with
              | Inf _ => raise OverflowError
              | f => ret f
              end
  | JFloat f => ret f
  | JBool b => ret (Finite (if b then 1 else 0))
  | _ => raise TypeError
  end.

(** [results[0]] when [results] is truthy. *)
Definition first_result {S} (results : json) : M S json :=
  match results with
  | JList (r :: _) => ret r
  | JStr (c :: _) => ret (JStr [c])
  | JDict _ => raise KeyError
  | _ => raise TypeError
  end.

(** [geocode_location(location, country)]; [None] is the Python [None].
    (The one-second pause after a stored result is left out.) *)
Definition geocode_location (location : list N) (country : option (list N))
  : M geo (option geocoded) :=
  match location with
  | [] => ret None
  | _ :: _ =>
      let key := cache_key location country in
      s <- get ;;
      match cache s !! key with
      | Some hit => ret (Some hit)
      | None =>
          let query := search_query location country in
          try_except
            (results <- request_endpoint query ;;
             if truthy results then
               result <- first_result results ;;
               la <- subscript result "lat" ;;
               la <- float_of_json la ;;
               lo <- subscript result "lon" ;;
               lo <- float_of_json lo ;;
               address <- get_or result "address" (JDict []) ;;
               cc <- get_or address "country_code" (JStr []) ;;
               fa <- get_or result "display_name" (JStr []) ;;
               let geocoded_data := Geocoded la lo cc fa in
               modify (fun s => set_cache (<[key := geocoded_data]> (cache s)) s) ;;;
               save_cache ;;;
               ret (Some geocoded_data)
             else ret None)
            (on_Exception (log ERROR "Geocoding error" ;;; ret None))
      end
  end.

(** The rows of a result set without repetition, first occurrences kept
    ([SELECT DISTINCT]). *)
Fixpoint distinct_from {A} `{EqDecision A} (seen l : list A) : list A :=
  match l with
  | [] => []
  | x :: t =>
      if bool_decide (x ∈ seen) then distinct_from seen t
      else x :: distinct_from (x :: seen) t
  end.

Definition distinct {A} `{EqDecision A} (l : list A) : list A :=
  distinct_from [] l.

(** The first [SELECT] of [update_database_geocoding]. *)
Definition locations_to_geocode (hs : list hotel_row) (gs : list geocoding_row)
  : list (value * value) :=
  distinct
    (map (fun h => (h_location h, h_country h))
       (List.filter
          (fun h => negb (existsb (fun g => sql_eq (h_location h) (g_location_string g)) gs)
                    && negb (is_null (h_location h)))
          hs)).

Definition geocoding_conflict (location : value) (r : geocoding_row) : bool :=
  sql_eq location (g_location_string r).

(** [INSERT OR REPLACE INTO geocoding (...) VALUES (...)]; [now] is the
    [CURRENT_TIMESTAMP] of the default. *)
Definition insert_geocoding (now : list N) (location la lo cc fa : value)
  : M geo unit :=
  s <- get ;;
  match geocoding (the_db s) with
  | None => raise OperationalError
  | Some t =>
      let id := next_id g_id t in
      let kept := List.filter (fun r => negb (geocoding_conflict location r)) (rows t) in
      update_db (set_geocoding
        (Some (Table (kept ++ [GeocodingRow id location la lo cc fa (Text now)]) id)))
  end.

Definition set_h_country (v : value) (r : hotel_row) : hotel_row :=
  HotelRow (h_id r) (h_name r) (h_location r) v (h_source_country r)
    (h_star_rating r) (h_rating_score r) (h_rating_text r) (h_page_number r)
    (h_scrape_timestamp r).

(** [UPDATE hotels SET country = ? WHERE <cond>] *)
Definition update_country (country_name : value) (cond : hotel_row -> bool)
  : M geo unit :=
  s <- get ;;
  match hotels (the_db s) with
  | None => raise OperationalError
  | Some t =>
      update_db (set_hotels
        (Some (Table (map (fun r => if cond r then set_h_country country_name r else r)
                        (rows t))
                 (seq t))))
  end.

(** [formatted_address.split(', ')[-1]] *)
Definition country_of_address {S} (formatted_address : json) : M S (list N) :=
  match formatted_address with
  | JStr a => ret (List.last (split (u ", ") a) [])
  | _ => raise AttributeError
  end.

(** A stored value as the Python value the cursor returns, for the two
    text columns the geocoder reads. *)
Definition text_or_none (v : value) : option (list N) :=
  match v with Text s => Some s | _ => None end.

(** The body of the loop of [update_database_geocoding] for one row of the
    result set.  The hotels table holds TEXT or NULL in the location
    column; a row with a number there is outside this model and is passed
    over. *)
Definition geocode_one (now : list N) (row : value * value) : M geo unit :=
  match fst row with
  | Text location =>
      geocoded <- geocode_location location (text_or_none (snd row)) ;;
      match geocoded with
      | Some g =>
          try_except
            (cc <- bind_param (country_code g) ;;
             fa <- bind_param (formatted_address g) ;;
             insert_geocoding now (Text location)
               (match lat g with NaN => Null | f => Real f end)
               (match lon g with NaN => Null | f => Real f end) cc fa ;;;
             country_name <- country_of_address (formatted_address g) ;;
             update_country (Text country_name)
               (fun r => sql_eq (h_location r) (Text location)
                         && null_or_empty (h_country r)) ;;;
             (* conn.commit() *)
             log INFO "Added geocoding and updated country")
            (on_Exception (log ERROR "Error updating data"))
      | None => ret tt
      end
  | _ => ret tt
  end.

(** [update_database_geocoding] *)
Definition update_database_geocoding (now : list N) : M geo unit :=
  s <- get ;;
  match hotels (the_db s), geocoding (the_db s) with
  | Some hs, Some gs =>
      let todo := locations_to_geocode (rows hs) (rows gs) in
      log INFO "Found locations to geocode" ;;;
      for_each todo (geocode_one now)
  | _, _ => raise OperationalError
  end.

(** The [SELECT] of [update_missing_countries]: the inner join of the
    hotels without a country with their geocoding rows. *)
Definition locations_to_update (hs : list hotel_row) (gs : list geocoding_row)
  : list (value * value) :=
  flat_map
    (fun h =>
       if null_or_empty (h_country h)
       then map (fun g => (h_location h, g_formatted_address g))
              (List.filter (fun g => sql_eq (h_location h) (g_location_string g)) gs)
       else [])
    hs.

Definition json_of_value (v : value) : json :=
  match v with
  | Null => JNull
  | Int z => JInt z
  | Real f => JFloat f
  | Text s => JStr s
  end.

(** The body of the loop of [update_missing_countries] for one row of the
    result set: the [UPDATE] has no condition on the country. *)
Definition backfill_one (row : value * value) : M geo unit :=
  try_except
    (country_name <- country_of_address (json_of_value (snd row)) ;;
     update_country (Text country_name) (fun r => sql_eq (h_location r) (fst row)) ;;;
     (* conn.commit() *)
     log INFO "Updated country")
    (on_Exception (log ERROR "Error updating country")).

(** [update_missing_countries] *)
Definition update_missing_countries : M geo unit :=
  s <- get ;;
  match hotels (the_db s), geocoding (the_db s) with
  | Some hs, Some gs =>
      let todo := locations_to_update (rows hs) (rows gs) in
      log INFO "Found locations needing country updates" ;;;
      for_each todo backfill_one
  | _, _ => raise OperationalError
  end.

(** The two passes of [main], in its order. *)
Definition geocoding_update (now : list N) : M geo unit :=
  update_database_geocoding now ;;;
  update_missing_countries.

(** *** [verify_geocoding] *)

(** The rows of [hotels h LEFT JOIN geocoding g ON h.location =
    g.location_string WHERE h.location IS NOT NULL]. *)
Definition joined_rows (hs : list hotel_row) (gs : list geocoding_row)
  : list (hotel_row * option geocoding_row) :=
  flat_map
    (fun h =>
       match List.filter (fun g => sql_eq (h_location h) (g_location_string g)) gs with
       | [] => [(h, None)]
       | g :: more => map (fun g => (h, Some g)) (g :: more)
       end)
    (List.filter (fun h => negb (is_null (h_location h))) hs).

(** [COUNT(DISTINCT x)]: NULLs are not counted. *)
Definition count_distinct (vs : list value) : nat :=
  length (distinct (List.filter (fun v => negb (is_null v)) vs)).

(** The three counts of the [SELECT] of [verify_geocoding]. *)
Definition coverage (hs : list hotel_row) (gs : list geocoding_row)
  : nat * nat * nat :=
  let j := joined_rows hs gs in
  (count_distinct (map (fun p => h_location (fst p)) j),
   count_distinct
     (map (fun p => match snd p with
                    | Some g => g_location_string g
                    | None => Null
                    end) j),
   count_distinct
     (map (fun p => if null_or_empty (h_country (fst p)) then Null
                    else h_location (fst p)) j)).

(** [verify_geocoding]: the two percentages are computed for the log only,
    and their division is guarded by [total > 0]. *)
Definition verify_geocoding : M geo (nat * nat * nat) :=
  s <- get ;;
  match hotels (the_db s), geocoding (the_db s) with
  | Some hs, Some gs =>
      let '(total, geocoded, with_country) := coverage (rows hs) (rows gs) in
      log INFO "Geocoding coverage" ;;;
      log INFO "Country coverage" ;;;
      ret (total, geocoded, with_country)
  | _, _ => raise OperationalError
  end.

End Geocoder.

(** ** Notions used in the statements *)

Module Spec.
Import Py Eff Scraper Json Store.

(** The text of the price element of a fragment, when there is one. *)
Definition price_text (el : hotel_element) : option (list N) :=
  match main_price_box el with
  | Some box => price_amount box
  | None => None
  end.





(** A text of ASCII characters, on which the modelled [str.isdigit] and
    the digits read by [float] are the whole of Python's. *)
Definition ascii_text (s : list N) : Prop := Forall (fun c => c < 128) s.


(** *** The store *)

(** The store right after the schema was created: four empty tables and no
    geocoding table. *)
Definition fresh_db : db :=
  Db (Some empty_table) (Some empty_table) (Some empty_table)
     (Some empty_table) None.

Definition row_count {R} (t : option (table R)) : nat :=
  match t with
  | Some t => length (rows t)
  | None => 0
  end.

Definition hotel_names (d : option db) : list value :=
  match d with
  | Some d => match hotels d with
              | Some t => map h_name (rows t)
              | None => []
              end
  | None => []
  end.

(** *** The geocoder *)

Definition hotel_rows (d : option db) : list hotel_row :=
  match d with
  | Some d => match hotels d with
              | Some t => rows t
              | None => []
              end
  | None => []
  end.

(** Row by row, a hotel whose country is neither NULL nor empty is the
    same before and after. *)
Definition keeps_countries (before after : option db) : Prop :=
  Forall2 (fun r r' => null_or_empty (h_country r) = false -> r' = r)
    (hotel_rows before) (hotel_rows after).

(** The same, between two states of the geocoder. *)
Definition kept (s s' : Geocoder.geo) : Prop :=
  keeps_countries (Geocoder.g_db s) (Geocoder.g_db s').

(** *** The page walker *)

(** The pages asked for with [page.goto], in order. *)
Definition visited (reqs : list request) : list nat :=
  flat_map (fun r => match r with Goto n => [n] | _ => [] end) reqs.

(** The page numbers of the controls clicked, in order. *)
Definition clicked (reqs : list request) : list nat :=
  flat_map (fun r => match r with ClickNext n => [n] | _ => [] end) reqs.

(** The digit a character writes, when it is one of 0 to 9. *)
Definition decimal_digit (c : N) : option nat :=
  if (48 <=? c) && (c <=? 57) then Some (N.to_nat (c - 48)) else None.

(** The number a string of such digits writes, after [acc]. *)
Fixpoint decimal_number (acc : nat) (s : list N) : option nat :=
  match s with
  | [] => Some acc
  | c :: t =>
      match decimal_digit c with
      | Some d => decimal_number (10 * acc + d) t
      | None => None
      end
  end.

(** The value of a numeric page indicator: a title that is a non-empty
    string of digits. *)
Definition indicator_value (title : option (list N)) : option nat :=
  match title with
  | Some (c :: t) => decimal_number 0 (c :: t)
  | _ => None
  end.

(** The largest value among the numeric page indicators of the controls,
    and 1 when none of them is numeric: the total a first page announces.
    It is read off the titles alone, not through [get_total_pages]. *)
Definition announced_total (links : list (option (list N))) : nat :=
  match flat_map (fun title => match indicator_value title with
                               | Some n => [n]
                               | None => []
                               end) links with
  | [] => 1%nat
  | n :: ns => list_max (n :: ns)
  end.

(** Every title of the controls is ASCII text. *)
Definition ascii_titles (links : list (option (list N))) : Prop :=
  Forall (fun title => match title with
                       | Some s => ascii_text s
                       | None => True
                       end) links.

(** The requests of a walk through the pages 1 to [n]: every page is asked
    for, and every page after the first is reached by a click on its
    control. *)
Definition full_walk (n : nat) : list request :=
  Goto 1 :: flat_map (fun i => [ClickNext i; Goto i]) (List.seq 2 (n - 1)).

(** The total read off the pagination controls of a page: the largest
    numeric indicator, 1 when there is none. *)
Definition page_count (p : page_model) : nat :=
  match page_links p with
  | _ :: _ => match page_numbers (page_links p) with
              | Some (n :: ns) => list_max (n :: ns)
              | _ => 1%nat
              end
  | [] => 1%nat
  end.

(** [total_pages] after one pass of the loop at page [cp]. *)
Definition total_after (st : site) (cp total : nat) : nat :=
  if (cp =? 1)%nat && goto_ok (st cp) then page_count (st cp) else total.

(** How one pass of the loop at page [cp] ends. *)
Definition body_outcome (st : site) (cp total : nat) : result loop_ctl :=
  let p := st cp in
  if negb (goto_ok p) then Raise RequestError
  else if negb (listing_loads p) then Ok Break
  else if (total_after st cp total <=? cp)%nat then Ok Break
  else match next_page p with
       | Navigated => Ok Continue
       | _ => Ok Break
       end.

(** The requests of one pass of the loop at page [cp]. *)
Definition body_requests (st : site) (cp total : nat) : list request :=
  let p := st cp in
  Goto cp ::
  (if goto_ok p && listing_loads p && negb (total_after st cp total <=? cp)%nat
   then match next_page p with
        | NoButton => []
        | _ => [ClickNext (cp + 1)]
        end
   else []).

(** The requests of the whole loop, from page [cp] on. *)
Fixpoint walk_requests (st : site) (fuel cp total : nat) : list request :=
  match fuel with
  | O => []
  | S fuel' =>
      body_requests st cp total ++
      match body_outcome st cp total with
      | Ok Continue => walk_requests st fuel' (cp + 1) (total_after st cp total)
      | _ => []
      end
  end.

(** Whether the loop is left (by [break] or by an exception) within
    [fuel] passes. *)
Fixpoint walk_ends (st : site) (fuel cp total : nat) : bool :=
  match fuel with
  | O => false
  | S fuel' =>
      match body_outcome st cp total with
      | Ok Continue => walk_ends st fuel' (cp + 1) (total_after st cp total)
      | _ => true
      end
  end.

(** Every page up to [n] loads, shows its listings, and leads to the next
    one. *)
Definition healthy (st : site) (n : nat) : Prop :=
  forall i, (1 <= i <= n)%nat ->
    goto_ok (st i) = true /\ listing_loads (st i) = true
    /\ ((i < n)%nat -> next_page (st i) = Navigated).

(** No failure among the next [n] writes. *)
Fixpoint writes_succeed (n : nat) (faults : list write_outcome) : bool :=
  match n, faults with
  | O, _ => true
  | S _, [] => true
  | S n', WriteOk :: rest => writes_succeed n' rest
  | S _, _ :: _ => false
  end.

(** How the part of a pass after the listings ends. *)
Definition page_outcome (p : page_model) (cp total : nat) : loop_ctl :=
  if (total <=? cp)%nat then Break
  else match next_page p with
       | Navigated => Continue
       | _ => Break
       end.

(** The log only gets longer. *)
Definition log_grows (w w' : world) : Prop :=
  exists extra, w_log w' = w_log w ++ extra.

(** All of the world but the log is the same. *)
Definition log_only_differs (w w' : world) : Prop :=
  w' = set_log (w_log w') w.

(** The fields of the world a checkpoint leaves alone. *)
Definition walk_same (w w' : world) : Prop :=
  w_requests w' = w_requests w /\ all_hotels_data w' = all_hotels_data w
  /\ current_page w' = current_page w /\ total_pages w' = total_pages w.

End Spec.

(** ** Concrete inputs used by the witnesses and the counterexamples *)

Module Examples.
Import Py Eff Scraper Json Store Geocoder Spec.

Definition a_timestamp : list N := u "2025-05-09T10:00:00".


(** A listing whose score element reads "N/A". *)
Definition unrated_fragment : hotel_element :=
  HotelElement (Some (u "Sea View Hotel"))
    (Some (u "Hotel in Faro" ++ [NL] ++ u "Portugal"))
    3 (Some (u "N/A")) (Some (u "Not rated"))
    (Some (PriceBox (Some (POUND :: u "120")) None None None)) None.

(** The same listing without the score element. *)
Definition scoreless_fragment : hotel_element :=
  HotelElement (Some (u "Sea View Hotel"))
    (Some (u "Hotel in Faro" ++ [NL] ++ u "Portugal"))
    3 None (Some (u "Not rated"))
    (Some (PriceBox (Some (POUND :: u "120")) None None None)) None.

(** A raw location text whose city contains a property-type prefix. *)
Definition rome_location : list N :=
  u "Hotel in Grand Hotel in Rome" ++ [NL] ++ u "Italy".

Definition rome_fragment : hotel_element :=
  HotelElement (Some (u "Grand")) (Some rome_location) 0 None None None None.

(** *** Records and files for the consolidator *)

(** A record as the scraper writes it, with a price, a facility and one
    surface. *)
Definition a_record (name : string) : json :=
  JDict
    [ (u "name", JStr (u name));
      (u "location", JStr (u "Lisbon"));
      (u "country", JStr (u "Portugal"));
      (u "scrape_timestamp", JStr (u "2025-05-09T10:00:00"));
      (u "price", JDict [ (u "amount", JFloat (Finite (inject_Z 100)));
                          (u "currency", JStr (u "GBP")) ]);
      (u "tennis_facilities",
        JDict [ (u "total_courts", JInt 2);
                (u "surface_counts", JDict [ (u "Clay", JInt 2) ]) ]) ].

(** A record without the required key "name". *)
Definition nameless_record : json :=
  JDict [ (u "location", JStr (u "Porto")) ].

Definition fresh_disk : Consolidator.disk :=
  Consolidator.Disk (Some fresh_db) [].

Definition one_hotel_file : json := JList [ a_record "Hotel A" ].

Definition mixed_file : json :=
  JList [ a_record "Hotel A"; nameless_record; a_record "Hotel B" ].

(** *** States of the geocoder *)

(** An endpoint that finds nothing, twice. *)
Definition nothing_found : geo :=
  Geo None ∅ None [Body (JList []); Body (JList [])] [] [] [].

(** An endpoint that knows Lisbon. *)
Definition lisbon_result : json :=
  JDict [ (u "lat", JStr (u "38.7077507"));
          (u "lon", JStr (u "-9.1365919"));
          (u "display_name", JStr (u "Lisboa, Portugal"));
          (u "address", JDict [ (u "country_code", JStr (u "pt")) ]) ].

Definition lisbon_known : geo :=
  Geo None ∅ None [Body (JList [lisbon_result])] [] [] [].

Definition munich_hotel (id : Z) (name country : string) : hotel_row :=
  HotelRow id (Text (u name)) (Text (u "Munich")) (Text (u country))
    (Text (u "World")) (Int 4) Null (Text []) (Int 1)
    (Text (u "2025-05-09T10:00:00")).

(** Two hotels in Munich, the first without a country, and the geocoding
    row of Munich. *)
Definition munich_db : db :=
  Db (Some (Table [ munich_hotel 1 "Alpen Tennis Hotel" "";
                    munich_hotel 2 "Hotel Isar" "Germany" ] 2))
     (Some empty_table) (Some empty_table) (Some empty_table)
     (Some (Table [ GeocodingRow 1 (Text (u "Munich"))
                      (Real (Finite (846835059620053 # 17592186044416)))
                      (Real (Finite (3258072855425843 # 281474976710656)))
                      (Text (u "de"))
                      (Text (u "Muenchen, Bayern, Deutschland"))
                      (Text (u "2025-05-10 08:00:00")) ] 1)).

Definition munich_store : geo := Geo (Some munich_db) ∅ None [] [] [] [].

(** The same two hotels before any geocoding, and an endpoint whose first
    answer carries no display name. *)
Definition munich_db_new : db :=
  Db (Some (Table [ munich_hotel 1 "Alpen Tennis Hotel" "";
                    munich_hotel 2 "Hotel Isar" "Germany" ] 2))
     (Some empty_table) (Some empty_table) (Some empty_table)
     (Some empty_table).

Definition nameless_answer : json :=
  JList [ JDict [ (u "lat", JStr (u "48.137")); (u "lon", JStr (u "11.575")) ] ].

Definition munich_store_new : geo :=
  Geo (Some munich_db_new) ∅ None [Body nameless_answer; NetworkError] [] [] [].

(** *** Sites for the page walker *)

Definition listing (name : string) : hotel_element :=
  HotelElement (Some (u name)) None 0 None None None None.

Definition links_1_to_3 : list (option (list N)) :=
  [Some (u "1"); Some (u "2"); Some (u "3"); None].

(** Three pages that all load, one listing on each. *)
Definition three_page_site : site := fun n =>
  match n with
  | 1%nat => PageModel true links_1_to_3 true [listing "Hotel One"] Navigated
  | 2%nat => PageModel true links_1_to_3 true [listing "Hotel Two"] Navigated
  | 3%nat => PageModel true links_1_to_3 true [listing "Hotel Three"] NoButton
  | _ => PageModel false [] false [] NoButton
  end.

(** The same site, but the wait for the listings times out after the click
    on the control of page 2. *)
Definition stalled_site : site := fun n =>
  match n with
  | 1%nat => PageModel true links_1_to_3 true [listing "Hotel One"] NavRaises
  | 2%nat => PageModel true links_1_to_3 true [listing "Hotel Two"] Navigated
  | 3%nat => PageModel true links_1_to_3 true [listing "Hotel Three"] NoButton
  | _ => PageModel false [] false [] NoButton
  end.

(** A country with two pages. *)
Definition two_page_site : site := fun n =>
  match n with
  | 1%nat => PageModel true [Some (u "1"); Some (u "2")] true
               [listing "Hotel One"] Navigated
  | 2%nat => PageModel true [Some (u "1"); Some (u "2")] true
               [listing "Hotel Two"] NoButton
  | _ => PageModel false [] false [] NoButton
  end.

(** Nothing requested, nothing on disk, no write failure to come. *)
Definition empty_world : world := World [] [] ∅ [] [] 0 0.

End Examples.

(** ** Further notions and inputs, for the properties of Part II *)

Module ScraperNotions.
Import Py Eff Scraper.

(** The fields of a record that the rating, price and facility blocks do
    not assign. *)
Definition same_listing (h h' : hotel_data) : Prop :=
  name h' = name h /\ location h' = location h /\ country h' = country h
  /\ source_country h' = source_country h /\ star_rating h' = star_rating h
  /\ scrape_timestamp h' = scrape_timestamp h /\ page_number h' = page_number h.

(** The surface names and the keys of the surface counts are the same
    list, without repetition. *)
Definition surfaces_agree (t : tennis_info) : Prop :=
  map fst (surface_counts t) = court_surfaces t /\ NoDup (court_surfaces t).

(** The test of the label of the total number of courts (line 230). *)
Definition is_total_label (span0 : list N) : bool :=
  existsb (fun court_text => contains court_text (lower (strip span0)))
    [u "number of all tennis courts"; u "tennis courts total"].

(** Whether the score of a listing can be read: there is no score
    element, or its text is a number. *)
Definition score_readable (el : hotel_element) : bool :=
  match circle_rating el with
  | Some t => match float_of_str (strip t) with Some _ => true | None => false end
  | None => true
  end.

(** The name a listing shows: the trimmed text of its name element. *)
Definition listed_name (el : hotel_element) : list N :=
  match hotel_li_name_link el with
  | Some t => strip t
  | None => []
  end.

(** The characters of a text of ASCII code points. *)
Definition text_of (l : list N) : string :=
  string_of_list_ascii (map ascii_of_N l).

End ScraperNotions.

Module StoreNotions.
Import Py Eff Scraper Json Store Consolidator Spec.

(** [UNIQUE(name, location, scrape_timestamp)] between two stored rows. *)
Definition rows_conflict (r1 r2 : hotel_row) : bool :=
  hotel_conflict (h_name r1) (h_location r1) (h_scrape_timestamp r1) r2.

(** No two rows of the list collide on the three columns. *)
Fixpoint no_conflicts (rs : list hotel_row) : bool :=
  match rs with
  | [] => true
  | r :: t => forallb (fun r' => negb (rows_conflict r r')) t && no_conflicts t
  end.

(** The two keys of the hotels table: the primary key [id] and the
    [UNIQUE] constraint. *)
Definition keys_hold (d : option db) : Prop :=
  NoDup (map h_id (hotel_rows d)) /\ no_conflicts (hotel_rows d) = true.

(** The files [consolidate_all_files] passes over: those whose name holds
    "checkpoint". *)
Definition is_skipped (f : list N * option json) : bool :=
  contains (u "checkpoint") (fst f).

(** The number of elements a loop over a decoded file goes through. *)
Definition record_count (content : option json) : nat :=
  match content with
  | Some (JList l) => length l
  | Some (JDict items) => length items
  | Some (JStr s) => length s
  | _ => 0
  end.

(** A computation that leaves the state as it found it. *)
Definition stateless {S A} (m : M S A) : Prop :=
  forall s r s', m s = (r, s') -> s' = s.

(** The keys that hold before hold after. *)
Definition keys_kept (s s' : disk) : Prop :=
  keys_hold (db_file s) -> keys_hold (db_file s').

(** The body of the [try] of [insert_hotel_data]: the three inserts and
    the commit. *)
Definition record_body (now : list N) (hotel_data : json) : M disk bool :=
  bind (insert_basic_info now hotel_data) (fun hotel_id =>
  bind (insert_price_info hotel_id hotel_data) (fun _ =>
  bind (insert_tennis_facilities hotel_id hotel_data) (fun _ =>
  ret true))).

End StoreNotions.

Module GeocoderNotions.
Import Py Eff Json Store Geocoder Spec.

Definition geocoding_rows (d : option db) : list geocoding_row :=
  match d with
  | Some d => match geocoding d with
              | Some t => rows t
              | None => []
              end
  | None => []
  end.

(** Between two states of the geocoder: the hotels are the same rows up to
    their country column, and every geocoded location still is. *)
Definition passes_keep (s s' : geo) : Prop :=
  map (set_h_country Null) (hotel_rows (g_db s'))
  = map (set_h_country Null) (hotel_rows (g_db s))
  /\ forall v, List.In v (map g_location_string (geocoding_rows (g_db s))) ->
               List.In v (map g_location_string (geocoding_rows (g_db s'))).

(** The database, the requests sent and the answers to come are the
    same. *)
Definition same_exchange (s s' : geo) : Prop :=
  g_db s' = g_db s /\ calls s' = calls s /\ pending s' = pending s.

End GeocoderNotions.

Module MoreExamples.
Import Py Eff Scraper.

(** A listing with every element present and a score that parses. *)
Definition rated_fragment : hotel_element :=
  HotelElement (Some (u " Sea View Hotel "))
    (Some (u "Resort in Faro," ++ [NL] ++ u "Portugal"))
    3 (Some (u "8.7")) (Some (u "Very good"))
    (Some (PriceBox (Some (POUND :: u "120")) None None None)) None.

(** The element of the total number of courts, with a range as value. *)
Definition range_div : info_div :=
  InfoDiv [u "Number of all tennis courts total:"; u " 2 to 4 courts "] [].

(** A listing whose facility block names clay twice. *)
Definition surfaces_fragment : hotel_element :=
  HotelElement (Some (u "Court Side")) None 0 None None None
    (Some (TennisSection [true] [false]
       [ InfoDiv [u "Court surface"; u "see below"]
           [ u "Clay Number of courts: 2"; u "Hard Number of courts: 3";
             u "Clay Number of courts: 4"; u "Grass" ] ])).

Definition surfaces_record : hotel_data :=
  match fst (extract_hotel_data (u "2025-05-09T10:00:00") surfaces_fragment []) with
  | Ok (Some h) => h
  | _ => init_hotel_data []
  end.


End MoreExamples.

(* ===================================================================== *)
(** * Part II. Lemmas and theorems                                        *)
(* ===================================================================== *)

(** ** Facts about the Python string operations *)

Module PyFacts.
Import Py.

Lemma isdigit_bounds c : isdigit c = true <-> 48 <= c <= 57.
Proof. unfold isdigit. rewrite andb_true_iff, !N.leb_le. tauto. Qed.

Lemma isdigit_not_space c : isdigit c = true -> isspace c = false.
Proof.
  intros [H1 H2]%isdigit_bounds. unfold isspace.
  replace (c <=? 13) with false by (symmetry; apply N.leb_gt; lia).
  replace (c <=? 32) with false by (symmetry; apply N.leb_gt; lia).
  replace (8192 <=? c) with false by (symmetry; apply N.leb_gt; lia).
  repeat match goal with
         | |- context [N.eqb c ?b] =>
             replace (N.eqb c b) with false by (symmetry; apply N.eqb_neq; lia)
         end.
  now rewrite !andb_false_r.
Qed.

Lemma drop_while_keep {A} (p : A -> bool) x l :
  p x = false -> drop_while p (x :: l) = x :: l.
Proof. intros H. simpl. now rewrite H. Qed.

(** Nothing is stripped from a text whose two ends are not strippable. *)
Lemma strip_by_id p s :
  (forall c t, s = c :: t -> p c = false) ->
  (forall c t, s = t ++ [c] -> p c = false) ->
  strip_by p s = s.
Proof.
  intros Hhd Hlast. unfold strip_by, lstrip_by, rstrip_by.
  destruct s as [|c body]; [reflexivity|].
  rewrite drop_while_keep by (eapply Hhd; reflexivity).
  destruct (c :: body) as [|x t _] using rev_ind; [reflexivity|].
  rewrite rev_app_distr. simpl.
  rewrite (Hlast x t eq_refl). simpl. now rewrite rev_involutive.
Qed.


Lemma drop_underscores_digits prev ds :
  prev <> 95 -> forallb isdigit ds = true -> drop_underscores prev ds = Some ds.
Proof.
  revert prev. induction ds as [|c t IH]; intros prev Hp Hd; simpl.
  - now apply N.eqb_neq in Hp as ->.
  - simpl in Hd. apply andb_true_iff in Hd as [Hc Ht].
    pose proof (proj1 (isdigit_bounds c) Hc) as Hb.
    assert (Hc95 : c <> 95) by lia.
    apply N.eqb_neq in Hc95 as Hc95'. rewrite Hc95'.
    apply N.eqb_neq in Hp as ->. simpl.
    now rewrite (IH c Hc95 Ht).
Qed.







Lemma startswith_nil s : startswith s [] = true.
Proof. now destruct s. Qed.

Lemma startswith_app p s : startswith (p ++ s) p = true.
Proof. induction p as [|a p IH]; [now destruct s|]. simpl. now rewrite N.eqb_refl, IH. Qed.

(** The characters of a matched occurrence are passed over. *)
Lemma replace_from_skip old new l s :
  replace_from old new (length l) (l ++ s) = replace_from old new 0 s.
Proof. induction l as [|a l IH]; [reflexivity|]. simpl. exact IH. Qed.

Lemma split_from_skip sep l cur s :
  split_from sep (length l) cur (l ++ s) = split_from sep 0 cur s.
Proof. induction l as [|a l IH]; [reflexivity|]. simpl. exact IH. Qed.

(** A text without an occurrence of [old] is left as it is. *)
Lemma replace_from_absent old new s :
  old <> [] -> contains old s = false -> replace_from old new 0 s = s.
Proof.
  intros Hne. induction s as [|c t IH]; intros Hc; [reflexivity|].
  cbn [contains] in Hc. apply orb_false_iff in Hc as [Hs Ht].
  cbn [replace_from]. rewrite Hs. now rewrite (IH Ht).
Qed.

(** Replacing a leading occurrence of [p] that is the only one. *)
Lemma replace_leading p s :
  p <> [] -> contains p s = false -> replace p [] (p ++ s) = s.
Proof.
  intros Hne Hc. destruct p as [|a p]; [congruence|].
  unfold replace. cbn [app replace_from].
  change (a :: p ++ s) with ((a :: p) ++ s). rewrite startswith_app.
  cbn [length Nat.sub app]. rewrite Nat.sub_0_r, replace_from_skip.
  now apply replace_from_absent.
Qed.

(** A text without an occurrence of the separator is one piece. *)
Lemma split_from_absent sep cur s :
  contains sep s = false -> split_from sep 0 cur s = [rev cur ++ s].
Proof.
  revert cur. induction s as [|c t IH]; intros cur Hc.
  - cbn. now rewrite app_nil_r.
  - cbn [contains] in Hc. apply orb_false_iff in Hc as [Hs Ht].
    cbn [split_from]. rewrite Hs, (IH _ Ht). cbn [rev].
    now rewrite <- app_assoc.
Qed.

Lemma split_absent sep s : contains sep s = false -> split sep s = [s].
Proof. intros H. unfold split. now rewrite split_from_absent. Qed.

(** Splitting two lines on the newline between them. *)
Lemma split_from_line c cur a b :
  ~ List.In c a -> ~ List.In c b ->
  split_from [c] 0 cur (a ++ c :: b) = [rev cur ++ a; b].
Proof.
  intros Ha Hb. revert cur. induction a as [|x a IH]; intros cur.
  - cbn [app split_from startswith]. rewrite N.eqb_refl.
    cbn [andb length Nat.sub]. rewrite app_nil_r. f_equal.
    rewrite split_from_absent; [reflexivity|].
    clear -Hb. induction b as [|y b IH]; [reflexivity|].
    cbn [contains startswith].
    destruct (N.eqb_spec c y) as [->|Hne].
    + exfalso. apply Hb. now left.
    + cbn. apply IH. intros H. apply Hb. now right.
  - cbn [app split_from startswith].
    destruct (N.eqb_spec c x) as [->|Hne]; [exfalso; apply Ha; now left|].
    cbn [andb]. rewrite IH by (intros H; apply Ha; now right).
    cbn [rev]. now rewrite <- app_assoc.
Qed.

Lemma drop_while_length {A} (p : A -> bool) l :
  (length (drop_while p l) <= length l)%nat.
Proof. induction l as [|x l IH]; simpl; [lia|]. destruct (p x); simpl; lia. Qed.

Lemma rstrip_by_length p s : (length (rstrip_by p s) <= length s)%nat.
Proof.
  unfold rstrip_by. rewrite length_rev.
  etransitivity; [apply drop_while_length|]. now rewrite length_rev.
Qed.

(** A text that stripping leaves alone does not start with a strippable
    character... *)
Lemma strip_fixed_head p c t : strip_by p (c :: t) = c :: t -> p c = false.
Proof.
  intros E. destruct (p c) eqn:Hc; [|reflexivity]. exfalso.
  apply (f_equal (@length N)) in E. unfold strip_by, lstrip_by in E.
  cbn [drop_while] in E. rewrite Hc in E.
  pose proof (rstrip_by_length p (drop_while p t)).
  pose proof (drop_while_length p t). cbn [length] in E. lia.
Qed.

(** ... nor end with one. *)
Lemma strip_fixed_last p t d : strip_by p (t ++ [d]) = t ++ [d] -> p d = false.
Proof.
  intros E. destruct (p d) eqn:Hd; [|reflexivity]. exfalso.
  apply (f_equal (@length N)) in E. unfold strip_by, lstrip_by, rstrip_by in E.
  rewrite length_rev in E.
  assert (Hsuf : forall l, (length (drop_while p (rev (drop_while p (l ++ [d]))))
                            <= length l)%nat).
  { induction l as [|x l IH].
    - cbn. rewrite Hd. cbn. lia.
    - cbn [app drop_while]. destruct (p x).
      + etransitivity; [apply IH|]. cbn. lia.
      + change (x :: l ++ [d]) with ((x :: l) ++ [d]).
        rewrite rev_app_distr. cbn [rev app drop_while]. rewrite Hd.
        etransitivity; [apply drop_while_length|].
        rewrite length_app, length_rev. cbn. lia. }
  specialize (Hsuf t). rewrite length_app in E. cbn in E. lia.
Qed.

(** Stripping a text that begins with one white-space character and whose
    rest is not strippable at either end. *)
Lemma strip_leading_space s :
  s <> [] -> strip s = s -> strip (SPACE :: s) = s.
Proof.
  intros Hne E. unfold strip, strip_by, lstrip_by in *.
  cbn [drop_while]. change (isspace SPACE) with true. cbv iota. exact E.
Qed.

End PyFacts.

(** ** Computations that never raise *)

Module EffFacts.
Import Eff.

Lemma returns_ret {S A} (a : A) : returns (ret (S := S) a).
Proof. intros s. now eexists _, _. Qed.

Lemma returns_bind {S A B} (m : M S A) (k : A -> M S B) :
  returns m -> (forall a, returns (k a)) -> returns (bind m k).
Proof.
  intros Hm Hk s. unfold bind. destruct (Hm s) as (a & s' & ->). apply Hk.
Qed.

Lemma returns_log {S} `{HasLog S} l m : returns (log (S := S) l m).
Proof. intros s. now eexists _, _. Qed.

Lemma returns_modify {S} (f : S -> S) : returns (modify f).
Proof. intros s. now eexists _, _. Qed.

Lemma returns_get {S} : returns (get (S := S)).
Proof. intros s. now eexists _, _. Qed.

(** A handler for every exception that itself returns makes the whole
    [try] return. *)
Lemma returns_try_all {S A} (m h : M S A) :
  returns h -> returns (try_except m (on_Exception h)).
Proof.
  intros Hh s. unfold try_except, on_Exception.
  destruct (m s) as [[a|e] s']; [now eexists _, _ | apply Hh].
Qed.

Lemma returns_try {S A} (m : M S A) handler :
  returns m -> returns (try_except m handler).
Proof.
  intros Hm s. unfold try_except. destruct (Hm s) as (a & s' & ->).
  now eexists _, _.
Qed.

Lemma returns_for_each {S A} (l : list A) (body : A -> M S unit) :
  (forall x, returns (body x)) -> returns (for_each l body).
Proof.
  intros Hb. induction l as [|x t IH]; simpl.
  - apply returns_ret.
  - apply returns_bind; [apply Hb | intros _; exact IH].
Qed.

Lemma returns_fold_m {S A B} (l : list A) (body : B -> A -> M S B) b :
  (forall b x, returns (body b x)) -> returns (fold_m l body b).
Proof.
  intros Hb. revert b. induction l as [|x t IH]; intros b; simpl.
  - apply returns_ret.
  - apply returns_bind; [apply Hb | intros b'; apply IH].
Qed.

Ltac returns_step :=
  first [ apply returns_ret | apply returns_log | apply returns_modify
        | apply returns_get
        | apply returns_bind; [|intros ?] ].

(** Relations kept by a computation, raised exceptions included. *)

Section Preserves.
Context {S : Type} (R : S -> S -> Prop).
Hypothesis R_refl : forall s, R s s.
Hypothesis R_trans : forall a b c, R a b -> R b c -> R a c.

Lemma preserves_ret {A} (a : A) : preserves R (ret a).
Proof. intros s r s' E. injection E as _ <-. apply R_refl. Qed.

Lemma preserves_raise {A} e : preserves R (raise (A := A) e).
Proof. intros s r s' E. injection E as _ <-. apply R_refl. Qed.

Lemma preserves_get : preserves R get.
Proof. intros s r s' E. injection E as _ <-. apply R_refl. Qed.

Lemma preserves_modify (f : S -> S) :
  (forall s, R s (f s)) -> preserves R (modify f).
Proof. intros Hf s r s' E. injection E as _ <-. apply Hf. Qed.

Lemma preserves_bind {A B} (m : M S A) (k : A -> M S B) :
  preserves R m -> (forall a, preserves R (k a)) -> preserves R (bind m k).
Proof.
  intros Hm Hk s r s' E. unfold bind in E.
  destruct (m s) as [[a|e] s1] eqn:Em.
  - eapply R_trans; [eapply Hm, Em | eapply Hk, E].
  - injection E as _ <-. eapply Hm, Em.
Qed.

Lemma preserves_try {A} (m : M S A) handler :
  preserves R m ->
  (forall e h, handler e = Some h -> preserves R h) ->
  preserves R (try_except m handler).
Proof.
  intros Hm Hh s r s' E. unfold try_except in E.
  destruct (m s) as [[a|e] s1] eqn:Em.
  - injection E as _ <-. eapply Hm, Em.
  - destruct (handler e) as [h|] eqn:Ee.
    + eapply R_trans; [eapply Hm, Em | eapply Hh; [exact Ee | exact E]].
    + injection E as _ <-. eapply Hm, Em.
Qed.

Lemma preserves_for_each {A} (l : list A) (body : A -> M S unit) :
  (forall x, preserves R (body x)) -> preserves R (for_each l body).
Proof.
  intros Hb. induction l as [|x t IH]; simpl.
  - apply preserves_ret.
  - apply preserves_bind; [apply Hb | intros _; exact IH].
Qed.

Lemma preserves_fold_m {A B} (l : list A) (body : B -> A -> M S B) b :
  (forall b x, preserves R (body b x)) -> preserves R (fold_m l body b).
Proof.
  intros Hb. revert b. induction l as [|x t IH]; intros b; simpl.
  - apply preserves_ret.
  - apply preserves_bind; [apply Hb | intros b'; apply IH].
Qed.
End Preserves.

End EffFacts.

(** ** The field extractor *)

Module ExtractorFacts.
Import Py Eff Scraper Spec PyFacts EffFacts.

Lemma returns_extract_name el h : returns (extract_name el h).
Proof. unfold extract_name. destruct (hotel_li_name_link el); repeat returns_step. Qed.

Lemma returns_extract_location el h : returns (extract_location el h).
Proof.
  unfold extract_location.
  destruct (hotel_property_type_location el); [|apply returns_ret].
  returns_step; [returns_step|].
  destruct (location_parts _); repeat returns_step.
Qed.

(** The price block never raises: its only conversion is under a [try]. *)
Lemma returns_parse_price_amount t p : returns (parse_price_amount t p).
Proof.
  intros s. unfold parse_price_amount, try_except, bind, to_float.
  destruct (float_of_str _); now eexists _, _.
Qed.

Lemma returns_extract_price el h : returns (extract_price el h).
Proof.
  unfold extract_price. destruct (main_price_box el) as [box|]; [|apply returns_ret].
  apply returns_bind.
  - destruct (price_amount box); [apply returns_parse_price_amount | apply returns_ret].
  - intros p. apply returns_ret.
Qed.

(** The facilities block never raises either. *)
Lemma returns_process_div t div : returns (process_div t div).
Proof.
  unfold process_div. apply returns_try_all. repeat returns_step.
Qed.

Lemma returns_expand_section sec : returns (expand_section sec).
Proof.
  unfold expand_section. apply returns_bind; [|intros _];
    apply returns_for_each; intros x; apply returns_try_all; apply returns_log.
Qed.

Lemma returns_extract_tennis el h : returns (extract_tennis el h).
Proof.
  unfold extract_tennis. destruct (tab_height el) as [sec|]; [|apply returns_ret].
  returns_step; [returns_step|].
  returns_step; [apply returns_expand_section|].
  returns_step; [|returns_step].
  apply returns_fold_m. intros; apply returns_process_div.
Qed.

(** [extract_hotel_data] never raises: every exception ends in the outer
    handler. *)
Lemma extract_hotel_data_never_raises now el : returns (extract_hotel_data now el).
Proof.
  unfold extract_hotel_data. apply returns_try_all. repeat returns_step.
Qed.

(** The score conversion is the one step of the extraction that is not
    under a handler of its own. *)
Lemma extract_rating_raises el h t lg :
  circle_rating el = Some t -> float_of_str (strip t) = None ->
  extract_rating el h lg = (Raise ValueError, lg).
Proof.
  intros Ht Hf. unfold extract_rating, bind, to_float. now rewrite Ht, Hf.
Qed.

Lemma returns_extract_rating el h :
  (forall t, circle_rating el = Some t -> float_of_str (strip t) <> None) ->
  returns (extract_rating el h).
Proof.
  intros Hok. unfold extract_rating. apply returns_bind.
  - destruct (circle_rating el) as [t|]; [|apply returns_ret].
    unfold to_float. destruct (float_of_str (strip t)) eqn:E.
    + repeat returns_step.
    + now destruct (Hok t eq_refl).
  - intros h'. destruct (rating_text_element el); apply returns_ret.
Qed.

(** A fragment whose score text is not a number is answered with [None]:
    the whole record is dropped. *)
Lemma unparsable_score_drops_record now el t lg :
  circle_rating el = Some t -> float_of_str (strip t) = None ->
  exists lg',
    extract_hotel_data now el lg
    = (Ok None, lg' ++ [Entry ERROR "Error extracting hotel data"]).
Proof.
  intros Ht Hf. unfold extract_hotel_data, try_except.
  unfold bind at 1. cbn [log modify get_log set_log log_only].
  unfold bind at 1.
  destruct (returns_extract_name el (init_hotel_data now)
              (lg ++ [Entry DEBUG "Starting data extraction for hotel element"]))
    as (h1 & lg1 & ->).
  unfold bind at 1.
  destruct (returns_extract_location el h1 lg1) as (h2 & lg2 & ->).
  unfold bind at 1.
  rewrite (extract_rating_raises el _ t lg2 Ht Hf).
  exists lg2. reflexivity.
Qed.

(** With a score that is absent or parses, a record is returned whatever
    the other sub-fields hold. *)
Lemma parsable_score_keeps_record now el lg :
  (forall t, circle_rating el = Some t -> float_of_str (strip t) <> None) ->
  exists h lg', extract_hotel_data now el lg = (Ok (Some h), lg').
Proof.
  intros Hok. unfold extract_hotel_data, try_except.
  assert (Hbody : returns
    (bind (extract_name el (init_hotel_data now)) (fun h =>
     bind (extract_location el h) (fun h =>
     bind (extract_rating el (set_star_rating (star_elements el) h)) (fun h =>
     bind (extract_price el h) (fun h =>
     bind (extract_tennis el h) (fun h => ret h))))))).
  { apply returns_bind; [apply returns_extract_name|intros h1].
    apply returns_bind; [apply returns_extract_location|intros h2].
    apply returns_bind; [now apply returns_extract_rating|intros h3].
    apply returns_bind; [apply returns_extract_price|intros h4].
    apply returns_bind; [apply returns_extract_tennis|intros h5].
    apply returns_ret. }
  unfold bind at 1. cbn [log modify get_log set_log log_only].
  destruct (Hbody (lg ++ [Entry DEBUG "Starting data extraction for hotel element"]))
    as (h & lg' & Hrun).
  unfold bind in Hrun |- *.
  destruct (extract_name _ _ _) as [[h1|?] lg1]; [|discriminate].
  destruct (extract_location _ _ _) as [[h2|?] lg2]; [|discriminate].
  destruct (extract_rating _ _ _) as [[h3|?] lg3]; [|discriminate].
  destruct (extract_price _ _ _) as [[h4|?] lg4]; [|discriminate].
  destruct (extract_tennis _ _ _) as [[h5|?] lg5]; [|discriminate].
  cbn. now eexists _, _.
Qed.












(** No listed prefix begins another one, so the loop stops at the prefix
    the text begins with. *)
Lemma remove_prefix_known prefix rest :
  List.In prefix prefixes_to_remove ->
  remove_prefix prefixes_to_remove (prefix ++ rest)
  = strip (replace prefix [] (prefix ++ rest)).
Proof.
  intros Hin. unfold prefixes_to_remove in Hin.
  repeat (destruct Hin as [<- | Hin]; [reflexivity|]). destruct Hin.
Qed.

Lemma prefix_nonempty prefix : List.In prefix prefixes_to_remove -> prefix <> [].
Proof.
  intros Hin. unfold prefixes_to_remove in Hin.
  repeat (destruct Hin as [<- | Hin]; [discriminate|]). destruct Hin.
Qed.

Lemma strip_two_lines city country :
  city <> [] -> country <> [] ->
  strip city = city -> strip country = country ->
  strip (city ++ NL :: country) = city ++ NL :: country.
Proof.
  intros Hc Hk Ec Ek. apply strip_by_id.
  - intros c t E. destruct city as [|c0 city']; [congruence|].
    injection E as <- _. exact (strip_fixed_head _ _ _ Ec).
  - intros d t E. destruct country as [|k0 country' _] using rev_ind; [congruence|].
    change (city ++ NL :: country' ++ [k0])
      with (city ++ (NL :: country') ++ [k0]) in E.
    rewrite app_assoc in E. apply app_inj_tail in E as [_ <-].
    exact (strip_fixed_last _ _ _ Ek).
Qed.

(** When the prefix does not occur again and "Show on Map" does not occur,
    a raw text "<prefix> <city>\n<country>" is split into its city and its
    country. *)
Lemma location_parts_of_lines prefix city country :
  List.In prefix prefixes_to_remove ->
  city <> [] -> country <> [] ->
  strip city = city -> strip country = country ->
  ~ List.In NL city -> ~ List.In NL country ->
  contains prefix (SPACE :: city ++ NL :: country) = false ->
  contains (u "Show on Map") (city ++ NL :: country) = false ->
  location_parts (prefix ++ SPACE :: city ++ NL :: country) = [city; country].
Proof.
  intros Hin Hc Hk Ec Ek Hnc Hnk Hp Hmap. unfold location_parts.
  rewrite (remove_prefix_known prefix _ Hin).
  rewrite (replace_leading prefix _ (prefix_nonempty prefix Hin) Hp).
  pose proof (strip_two_lines city country Hc Hk Ec Ek) as Es.
  rewrite strip_leading_space by (try exact Es; now destruct city).
  rewrite (split_absent _ _ Hmap). cbn [hd]. rewrite Es.
  unfold split. rewrite (split_from_line NL [] city country Hnc Hnk).
  cbn [rev app map]. rewrite Ec, Ek. cbn [List.filter].
  destruct city; [congruence|]. destruct country; [congruence|]. reflexivity.
Qed.

(** For such a text the record gets the city, without its trailing commas,
    as location and the second line as country. *)
Lemma extract_location_of_lines prefix city ctry el h lg :
  List.In prefix prefixes_to_remove ->
  city <> [] -> ctry <> [] ->
  strip city = city -> strip ctry = ctry ->
  ~ List.In NL city -> ~ List.In NL ctry ->
  contains prefix (SPACE :: city ++ NL :: ctry) = false ->
  contains (u "Show on Map") (city ++ NL :: ctry) = false ->
  hotel_property_type_location el = Some (prefix ++ SPACE :: city ++ NL :: ctry) ->
  exists h' lg',
    extract_location el h lg = (Ok h', lg')
    /\ location h' = rstrip_chars [COMMA] city /\ country h' = ctry.
Proof.
  intros Hin Hc Hk Ec Ek Hnc Hnk Hp Hmap Hel. unfold extract_location. rewrite Hel.
  assert (Es : strip (prefix ++ SPACE :: city ++ NL :: ctry)
               = prefix ++ SPACE :: city ++ NL :: ctry).
  { apply strip_by_id.
    - intros c t E. unfold prefixes_to_remove in Hin.
      repeat (destruct Hin as [<- | Hin]; [injection E as <- _; reflexivity|]).
      destruct Hin.
    - intros d t E. destruct ctry as [|k0 ctry' _] using rev_ind; [congruence|].
      change (prefix ++ SPACE :: city ++ NL :: ctry' ++ [k0])
        with (prefix ++ (SPACE :: city) ++ (NL :: ctry') ++ [k0]) in E.
      rewrite !app_assoc in E. apply app_inj_tail in E as [_ <-].
      exact (strip_fixed_last _ _ _ Ek). }
  rewrite Es, (location_parts_of_lines prefix city ctry) by assumption.
  eexists _, _. split; [reflexivity|]. now split.
Qed.

(** C1. At the failing input: a listing whose score text is "N/A" is
    answered with [None] and an ERROR line, so the record is dropped where
    the claim wants it returned with the score left absent; the same
    listing without the score element does give a record. *)
Theorem unparsable_rating_loses_record :
  fst (extract_hotel_data Examples.a_timestamp Examples.unrated_fragment []) = Ok None
  /\ List.In (Entry ERROR "Error extracting hotel data")
       (snd (extract_hotel_data Examples.a_timestamp Examples.unrated_fragment []))
  /\ exists h,
       fst (extract_hotel_data Examples.a_timestamp Examples.scoreless_fragment [])
       = Ok (Some h)
       /\ name h = u "Sea View Hotel" /\ rating_score h = None
       /\ amount (price h) = Some (Finite (inject_Z 120)).
Proof.
  split; [reflexivity|]. split.
  - vm_compute. tauto.
  - eexists. split; [vm_compute; reflexivity|]. now repeat split.
Qed.

(** C5. At the failing input: for the raw text "Hotel in Grand Hotel in
    Rome", newline, "Italy" the prefix is removed at every occurrence, so
    the location comes out as "Grand  Rome" where the claim wants the city
    "Grand Hotel in Rome". *)
Theorem prefix_removed_inside_city :
  location_parts (strip Examples.rome_location) = [u "Grand  Rome"; u "Italy"]
  /\ exists h lg,
       extract_location Examples.rome_fragment
         (init_hotel_data Examples.a_timestamp) [] = (Ok h, lg)
       /\ location h = u "Grand  Rome"
       /\ location h <> u "Grand Hotel in Rome"
       /\ country h = u "Italy".
Proof.
  split; [reflexivity|].
  eexists _, _. split; [vm_compute; reflexivity|].
  repeat split; try reflexivity. discriminate.
Qed.

End ExtractorFacts.

(** ** The consolidator *)

Module ConsolidatorFacts.
Import Py Eff Json Store Consolidator Spec Examples.

(** C10. Whatever database file was there (its geocoding table included),
    the constructor leaves a file with the four empty tables of the schema
    and no geocoding table; when the file cannot be removed it raises and
    the file stays as it was. *)
Theorem initialize_database_starts_empty (previous : option db) (lg : list entry) :
  (exists lg',
      initialize_database true (Disk previous lg) = (Ok tt, Disk (Some fresh_db) lg'))
  /\ (forall d : db,
        exists lg',
          initialize_database false (Disk (Some d) lg)
          = (Raise OSError, Disk (Some d) lg')).
Proof.
  split.
  - destruct previous; eexists; reflexivity.
  - intros d. eexists. reflexivity.
Qed.

Lemma log_keeps_db l m s : db_file (snd (log (S := disk) l m s)) = db_file s.
Proof. reflexivity. Qed.

(** Atomicity holds: unless it returns [True], [insert_hotel_data] leaves
    the database as it was when the connection was opened. *)
Lemma insert_hotel_data_atomic now hotel_data s r s' :
  insert_hotel_data now hotel_data s = (r, s') ->
  r <> Ok true ->
  db_file s' = db_file (snd (connect s)).
Proof.
  unfold insert_hotel_data. unfold bind at 1.
  destruct (connect s) as [[[]|e] s1] eqn:Ec; [|discriminate Ec].
  cbn [snd]. unfold bind at 1, get at 1.
  unfold try_except at 1 2.
  match goal with |- context [bind ?m ?k s1] => destruct (bind m k s1) as [[b|e] s2] eqn:Eb end.
  - intros E Hr. injection E as <- <-. exfalso. apply Hr.
    unfold bind in Eb.
    repeat match type of Eb with
           | context [match ?x with _ => _ end] => destruct x as [[?|?] ?]; try discriminate
           end.
    now injection Eb as <- _.
  - unfold on_Exception. unfold bind at 1.
    destruct (subscript hotel_data "name" s2) as [[v|e'] s3] eqn:Es.
    + assert (s3 = s2) as ->.
      { unfold subscript in Es. destruct hotel_data; try discriminate Es.
        destruct (assoc _ _); now injection Es. }
      intros E _. injection E as <- <-. reflexivity.
    + assert (s3 = s2) as ->.
      { unfold subscript in Es. destruct hotel_data; try (now injection Es).
        destruct (assoc _ _); now injection Es. }
      intros E _. injection E as <- <-. reflexivity.
Qed.

(** C9. At the failing input: a record without "name" makes
    [insert_hotel_data] raise from inside its own handler instead of
    returning [False]; the exception ends the loop of [process_json_file],
    which answers 0 although "Hotel A" was stored, and "Hotel B", which
    follows the bad record, is never inserted. *)
Theorem nameless_record_aborts_batch :
  fst (insert_hotel_data (u "now") nameless_record fresh_disk) = Raise KeyError
  /\ db_file (snd (insert_hotel_data (u "now") nameless_record fresh_disk))
     = Some fresh_db
  /\ fst (process_json_file (u "now") (Some mixed_file) fresh_disk) = Ok 0%nat
  /\ hotel_names (db_file (snd (process_json_file (u "now") (Some mixed_file) fresh_disk)))
     = [Text (u "Hotel A")].
Proof. repeat split; vm_compute; reflexivity. Qed.

(** C3. At the failing input: loading the same one-record file twice
    keeps one hotel row (under a new key) but leaves the price, facility
    and surface rows of the replaced hotel row behind: each child table
    holds two rows where one load holds one, and the first of them refers
    to a hotel key that no longer exists. *)
Theorem second_load_duplicates_child_rows :
  let once := snd (process_json_file (u "now") (Some one_hotel_file) fresh_disk) in
  let twice := snd (process_json_file (u "now") (Some one_hotel_file) once) in
  (row_count (hotels (the_db once)), row_count (prices (the_db once)),
   row_count (Store.tennis_facilities (the_db once)),
   row_count (Store.court_surfaces (the_db once))) = (1, 1, 1, 1)%nat
  /\ (row_count (hotels (the_db twice)), row_count (prices (the_db twice)),
      row_count (Store.tennis_facilities (the_db twice)),
      row_count (Store.court_surfaces (the_db twice))) = (1, 2, 2, 2)%nat
  /\ option_map (fun t => map h_id (rows t)) (hotels (the_db twice)) = Some [2%Z]
  /\ option_map (fun t => map p_hotel_id (rows t)) (prices (the_db twice))
     = Some [1%Z; 2%Z].
Proof. repeat split; vm_compute; reflexivity. Qed.

End ConsolidatorFacts.

(** ** The geocoder *)

Module GeocoderFacts.
Import Py Eff Json Store Geocoder Spec Examples EffFacts.

Lemma subscript_state {S} v k (s : S) r s' :
  subscript v k s = (r, s') -> s' = s.
Proof.
  unfold subscript. destruct v; try (intros E; now injection E).
  destruct (assoc _ _); intros E; now injection E.
Qed.

Lemma get_or_state {S} v k d (s : S) r s' :
  get_or v k d s = (r, s') -> s' = s.
Proof. unfold get_or. destruct v; intros E; now injection E. Qed.

Lemma float_of_json_state {S} v (s : S) r s' :
  float_of_json v s = (r, s') -> s' = s.
Proof.
  unfold float_of_json. destruct v; try (intros E; now injection E).
  - destruct (round_binary64 _); intros E; now injection E.
  - destruct (float_of_str _); intros E; now injection E.
Qed.

Lemma first_result_state {S} v (s : S) r s' :
  first_result v s = (r, s') -> s' = s.
Proof.
  unfold first_result. destruct v as [| | | |[|]|[|]|]; intros E; now injection E.
Qed.

Lemma save_cache_spec s :
  exists s', save_cache s = (Ok tt, s') /\ cache s' = cache s /\ calls s' = calls s
             /\ g_db s' = g_db s /\ pending s' = pending s.
Proof.
  unfold save_cache, try_except, bind, get.
  destruct (cache_faults s) as [|[|] rest]; eexists; split; try reflexivity;
    now repeat split.
Qed.

Lemma request_endpoint_calls query s r s' :
  request_endpoint query s = (r, s') ->
  calls s' = calls s ++ [query] /\ cache s' = cache s /\ g_db s' = g_db s.
Proof.
  unfold request_endpoint, bind, modify, get. cbn.
  destruct (pending s) as [|[|results] rest]; intros E; injection E as <- <-;
    now repeat split.
Qed.

(** What a successful resolution leaves behind. *)
Lemma geocode_location_success location country s g s1 :
  geocode_location location country s = (Ok (Some g), s1) ->
  cache s1 !! cache_key location country = Some g
  /\ (calls s1 = calls s \/ calls s1 = calls s ++ [search_query location country]).
Proof.
  unfold geocode_location. destruct location as [|c0 loc]; [discriminate|].
  set (key := cache_key (c0 :: loc) country).
  set (query := search_query (c0 :: loc) country).
  unfold bind at 1, get at 1.
  destruct (cache s !! key) as [hit|] eqn:Hhit.
  - intros E. injection E as <- <-. split; [exact Hhit | now left].
  - unfold try_except, on_Exception.
    match goal with |- context [bind ?m ?k s] => destruct (bind m k s) as [[r|e] s2] eqn:Eb end.
    2:{ cbn. discriminate. }
    intros E. injection E as -> ->.
    unfold bind at 1 in Eb.
    destruct (request_endpoint query s) as [[results|e] sa] eqn:Er; [|discriminate].
    apply request_endpoint_calls in Er as (Hcalls & Hcache & _).
    destruct (truthy results); [|discriminate].
    unfold bind at 1 in Eb.
    destruct (first_result results sa) as [[result|e] sb] eqn:E1; [|discriminate].
    apply first_result_state in E1 as ->.
    unfold bind at 1 in Eb.
    destruct (subscript result "lat" sa) as [[la|e] sb] eqn:E2; [|discriminate].
    apply subscript_state in E2 as ->.
    unfold bind at 1 in Eb.
    destruct (float_of_json la sa) as [[la'|e] sb] eqn:E3; [|discriminate].
    apply float_of_json_state in E3 as ->.
    unfold bind at 1 in Eb.
    destruct (subscript result "lon" sa) as [[lo|e] sb] eqn:E4; [|discriminate].
    apply subscript_state in E4 as ->.
    unfold bind at 1 in Eb.
    destruct (float_of_json lo sa) as [[lo'|e] sb] eqn:E5; [|discriminate].
    apply float_of_json_state in E5 as ->.
    unfold bind at 1 in Eb.
    destruct (get_or result "address" (JDict []) sa) as [[address|e] sb] eqn:E6; [|discriminate].
    apply get_or_state in E6 as ->.
    unfold bind at 1 in Eb.
    destruct (get_or address "country_code" (JStr []) sa) as [[cc|e] sb] eqn:E7; [|discriminate].
    apply get_or_state in E7 as ->.
    unfold bind at 1 in Eb.
    destruct (get_or result "display_name" (JStr []) sa) as [[fa|e] sb] eqn:E8; [|discriminate].
    apply get_or_state in E8 as ->.
    unfold bind at 1, modify at 1 in Eb.
    unfold bind at 1 in Eb.
    match type of Eb with context [save_cache ?st] =>
      destruct (save_cache_spec st) as (sc & Hsave & Hc & Hcl & _) end.
    rewrite Hsave in Eb. injection Eb as <- <-.
    split.
    + rewrite Hc. cbn. apply lookup_insert_eq.
    + right. rewrite Hcl. cbn. exact Hcalls.
Qed.

(** A resolution whose key is cached does not touch the endpoint. *)
Lemma geocode_location_cached location country s g :
  location <> [] ->
  cache s !! cache_key location country = Some g ->
  geocode_location location country s = (Ok (Some g), s).
Proof.
  intros Hne Hhit. unfold geocode_location.
  destruct location; [congruence|].
  unfold bind, get. now rewrite Hhit.
Qed.

(** C6, as amended. When the first resolution of a pair finds a result,
    it is stored in the cache and the second resolution returns it without
    a call to the endpoint: the two together make at most one call. *)
Theorem second_resolution_is_cached location country s g s1 :
  geocode_location location country s = (Ok (Some g), s1) ->
  geocode_location location country s1 = (Ok (Some g), s1)
  /\ cache s1 !! cache_key location country = Some g
  /\ (length (calls s1) <= length (calls s) + 1)%nat.
Proof.
  intros H1. pose proof (geocode_location_success _ _ _ _ _ H1) as [Hc Hcalls].
  split; [|split].
  - apply geocode_location_cached; [|exact Hc].
    intros ->. discriminate H1.
  - exact Hc.
  - destruct Hcalls as [-> | ->]; [lia|]. rewrite length_app. simpl. lia.
Qed.

Lemma second_resolution_is_cached_witness :
  exists g s1,
    geocode_location (u "Lisbon") (Some (u "Portugal")) lisbon_known = (Ok (Some g), s1)
    /\ geocode_location (u "Lisbon") (Some (u "Portugal")) s1 = (Ok (Some g), s1)
    /\ calls s1 = [u "Lisbon, Portugal"].
Proof.
  eexists _, _. split; [vm_compute; reflexivity|].
  split; [|reflexivity].
  apply (second_resolution_is_cached (u "Lisbon") (Some (u "Portugal")) lisbon_known).
  vm_compute. reflexivity.
Defined.

(** C6 fails as stated: when the endpoint finds nothing, nothing is
    cached and the second resolution of the pair calls it again. *)
Lemma failed_lookup_is_repeated :
  let s1 := snd (geocode_location (u "Atlantis") (Some []) nothing_found) in
  let s2 := snd (geocode_location (u "Atlantis") (Some []) s1) in
  calls s2 = [u "Atlantis"; u "Atlantis"]
  /\ ~ (length (calls s2) <= 1)%nat.
Proof. split; [vm_compute; reflexivity | vm_compute; lia]. Qed.

Lemma keeps_countries_refl d : keeps_countries d d.
Proof. unfold keeps_countries. induction (hotel_rows d); constructor; auto. Qed.

Lemma keeps_countries_trans a b c :
  keeps_countries a b -> keeps_countries b c -> keeps_countries a c.
Proof.
  unfold keeps_countries. generalize (hotel_rows a), (hotel_rows b), (hotel_rows c).
  intros la lb lc Hab. revert lc.
  induction Hab as [|x y la' lb' Hxy _ IH]; intros lc Hbc;
    inversion Hbc as [|y' z lb'' lc' Hyz Hrest]; subst; constructor.
  - intros Hx. specialize (Hxy Hx). subst y. auto.
  - now apply IH.
Qed.

Lemma kept_refl s : kept s s.
Proof. apply keeps_countries_refl. Qed.

Lemma kept_trans a b c : kept a b -> kept b c -> kept a c.
Proof. apply keeps_countries_trans. Qed.

Lemma kept_same_db s s' : g_db s' = g_db s -> kept s s'.
Proof. unfold kept. intros ->. apply keeps_countries_refl. Qed.

Ltac kept_step :=
  first [ apply (preserves_ret kept kept_refl)
        | apply (preserves_raise kept kept_refl)
        | apply (preserves_get kept kept_refl)
        | apply (preserves_modify kept); intros ?; apply kept_same_db; reflexivity
        | apply (preserves_bind kept kept_trans); [|intros ?] ].

Lemma kept_log l m : preserves kept (log (S := geo) l m).
Proof. unfold log. kept_step. Qed.

Lemma kept_subscript v k : preserves kept (subscript (S := geo) v k).
Proof.
  unfold subscript. destruct v; try kept_step. destruct (assoc _ _); kept_step.
Qed.

Lemma kept_get_or v k d : preserves kept (get_or (S := geo) v k d).
Proof. unfold get_or. destruct v; kept_step. Qed.

Lemma kept_float_of_json v : preserves kept (float_of_json (S := geo) v).
Proof.
  unfold float_of_json. destruct v; try kept_step.
  - destruct (round_binary64 _); kept_step.
  - destruct (float_of_str _); kept_step.
Qed.

Lemma kept_first_result v : preserves kept (first_result (S := geo) v).
Proof. unfold first_result. destruct v as [| | | |[|]|[|]|]; kept_step. Qed.

Lemma kept_bind_param v : preserves kept (bind_param (S := geo) v).
Proof.
  unfold bind_param. destruct v as [| |z|[]| | |]; try kept_step.
  destruct (_ && _); kept_step.
Qed.

Lemma kept_country_of_address v : preserves kept (country_of_address (S := geo) v).
Proof. unfold country_of_address. destruct v; kept_step. Qed.

Lemma kept_save_cache : preserves kept save_cache.
Proof.
  unfold save_cache. apply (preserves_try kept kept_trans).
  - kept_step; [kept_step|]. destruct (cache_faults a) as [|[|] rest];
      repeat first [kept_step | apply kept_log].
  - intros e h E. injection E as <-. apply kept_log.
Qed.

Lemma kept_request_endpoint q : preserves kept (request_endpoint q).
Proof.
  unfold request_endpoint. kept_step; [kept_step|]. kept_step; [kept_step|].
  destruct (pending a0) as [|[|] rest]; repeat kept_step.
Qed.

(** Resolving a location does not write to the hotels table. *)
Lemma kept_geocode_location location country :
  preserves kept (geocode_location location country).
Proof.
  unfold geocode_location. destruct location as [|c0 loc]; [kept_step|].
  kept_step; [kept_step|].
  destruct (cache a !! _); [kept_step|].
  apply (preserves_try kept kept_trans).
  - kept_step; [apply kept_request_endpoint|].
    destruct (truthy a0); [|kept_step].
    kept_step; [apply kept_first_result|].
    kept_step; [apply kept_subscript|].
    kept_step; [apply kept_float_of_json|].
    kept_step; [apply kept_subscript|].
    kept_step; [apply kept_float_of_json|].
    kept_step; [apply kept_get_or|].
    kept_step; [apply kept_get_or|].
    kept_step; [apply kept_get_or|].
    kept_step; [kept_step|].
    kept_step; [apply kept_save_cache|]. kept_step.
  - intros e h E. injection E as <-. kept_step; [apply kept_log|kept_step].
Qed.

Lemma kept_insert_geocoding now l la lo cc fa :
  preserves kept (insert_geocoding now l la lo cc fa).
Proof.
  unfold insert_geocoding. kept_step; [kept_step|].
  destruct (geocoding (the_db a)) as [t|]; [|kept_step].
  unfold update_db. apply (preserves_modify kept). intros s.
  unfold kept, keeps_countries. cbn. unfold the_db.
  destruct (g_db s) as [d|]; cbn.
  - destruct (hotels d) as [th|]; [|constructor].
    induction (rows th); constructor; auto.
  - constructor.
Qed.

(** The [UPDATE] of the first pass names only rows without a country. *)
Lemma kept_update_country_guarded name cond :
  (forall r, cond r = true -> null_or_empty (h_country r) = true) ->
  preserves kept (update_country name cond).
Proof.
  intros Hcond s r s' E. unfold update_country, bind, get in E.
  destruct (hotels (the_db s)) as [t|] eqn:Ht.
  - injection E as _ <-. unfold kept, keeps_countries. cbn.
    unfold the_db in Ht. destruct (g_db s) as [d|]; cbn in *; [|discriminate].
    rewrite Ht. induction (rows t) as [|x l IH]; constructor; [|exact IH].
    intros Hx. destruct (cond x) eqn:Ec; [|reflexivity].
    rewrite (Hcond x Ec) in Hx. discriminate.
  - injection E as _ <-. apply kept_refl.
Qed.

(** One location of the first pass keeps the countries that are there. *)
Lemma kept_geocode_one now row : preserves kept (geocode_one now row).
Proof.
  unfold geocode_one.
  destruct (fst row) as [| | |location]; [kept_step | kept_step | kept_step |].
  kept_step; [apply kept_geocode_location|].
  destruct a as [g|]; [|kept_step].
  apply (preserves_try kept kept_trans).
  - kept_step; [apply kept_bind_param|].
    kept_step; [apply kept_bind_param|].
    kept_step; [apply kept_insert_geocoding|].
    kept_step; [apply kept_country_of_address|].
    kept_step; [|apply kept_log].
    apply kept_update_country_guarded.
    intros r Hr. now apply andb_true_iff in Hr as [_ Hr].
  - intros e h E. injection E as <-. apply kept_log.
Qed.

(** The first pass never overwrites a country that is there. *)
Lemma first_pass_keeps_countries now s r s' :
  update_database_geocoding now s = (r, s') ->
  keeps_countries (g_db s) (g_db s').
Proof.
  revert s r s'. change (preserves kept (update_database_geocoding now)).
  unfold update_database_geocoding. kept_step; [kept_step|].
  destruct (hotels (the_db a)), (geocoding (the_db a)); try kept_step.
  - apply kept_log.
  - apply (preserves_for_each kept kept_refl kept_trans). intros x.
    apply kept_geocode_one.
Qed.

(** C2. At the failing input: the back-fill pass updates every hotel of a
    location that has one hotel without a country, so "Hotel Isar", stored
    with the country "Germany", is overwritten; the same happens in a full
    run when the endpoint's answer has no display name, where "Germany"
    is replaced by the empty string. *)
Theorem backfill_overwrites_country :
  map h_country (hotel_rows (g_db munich_store))
  = [Text []; Text (u "Germany")]
  /\ map h_country (hotel_rows (g_db (snd (update_missing_countries munich_store))))
     = [Text (u "Deutschland"); Text (u "Deutschland")]
  /\ map h_country
       (hotel_rows (g_db (snd (geocoding_update (u "now") munich_store))))
     = [Text (u "Deutschland"); Text (u "Deutschland")]
  /\ map h_country
       (hotel_rows (g_db (snd (update_database_geocoding (u "now") munich_store_new))))
     = [Text []; Text (u "Germany")]
  /\ map h_country
       (hotel_rows (g_db (snd (geocoding_update (u "now") munich_store_new))))
     = [Text []; Text []].
Proof. repeat split; vm_compute; reflexivity. Qed.

End GeocoderFacts.

(** ** The page walker and the checkpoints *)

Module WalkerFacts.
Import Py Eff Scraper Spec Examples EffFacts.

Lemma log_only_refl w : log_only_differs w w.
Proof. now destruct w. Qed.

Lemma log_only_trans a b c :
  log_only_differs a b -> log_only_differs b c -> log_only_differs a c.
Proof. unfold log_only_differs. intros -> ->. now destruct a. Qed.

Lemma log_only_log l m : preserves log_only_differs (log (S := world) l m).
Proof. intros w r w' E. injection E as _ <-. now destruct w. Qed.

Ltac lo_step :=
  first [ apply (preserves_ret log_only_differs log_only_refl)
        | apply (preserves_raise log_only_differs log_only_refl)
        | apply (preserves_get log_only_differs log_only_refl)
        | apply log_only_log
        | apply (preserves_bind log_only_differs log_only_trans); [|intros ?] ].

Lemma log_only_with_log {A} (m : M (list entry) A) :
  preserves log_only_differs (with_log (S := world) m).
Proof.
  intros w r w' E. unfold with_log in E. destruct (m (get_log w)) as [r0 lg].
  injection E as _ <-. now destruct w.
Qed.

Lemma log_only_extract_page now els page :
  preserves log_only_differs (extract_page now els page).
Proof.
  unfold extract_page.
  apply (preserves_fold_m log_only_differs log_only_refl log_only_trans).
  intros acc el. lo_step; [lo_step|]. lo_step; [apply log_only_with_log|].
  destruct a0; repeat lo_step.
Qed.

Lemma returns_with_log {A} (m : M (list entry) A) :
  returns m -> returns (with_log (S := world) m).
Proof.
  intros Hm w. unfold with_log. destruct (Hm (get_log w)) as (a & lg & ->).
  now eexists _, _.
Qed.

Lemma returns_extract_page now els page : returns (extract_page now els page).
Proof.
  unfold extract_page. apply returns_fold_m. intros acc el.
  apply returns_bind; [apply returns_log|intros _].
  apply returns_bind.
  - apply returns_with_log, ExtractorFacts.extract_hotel_data_never_raises.
  - intros [h|]; (apply returns_bind; [apply returns_log|intros _; apply returns_ret]).
Qed.

(** [get_total_pages] returns the page count and only logs. *)
Lemma get_total_pages_spec p w :
  exists lg, get_total_pages p w = (Ok (page_count p), set_log lg w).
Proof.
  unfold get_total_pages, page_count, try_except.
  destruct (page_links p) as [|l ls]; [exists (w_log w); now destruct w|].
  destruct (page_numbers (l :: ls)) as [[|n ns]|]; eexists; reflexivity.
Qed.

(** [navigate_to_next_page] answers whether the site moved on, and clicks
    unless there is no control. *)
Lemma navigate_spec p cp w :
  exists lg,
    navigate_to_next_page p cp w
    = (Ok (match next_page p with Navigated => true | _ => false end),
       set_log lg
         (set_requests
            (w_requests w ++
               match next_page p with NoButton => [] | _ => [ClickNext (cp + 1)] end)
            w)).
Proof.
  unfold navigate_to_next_page, try_except.
  destruct (next_page p); eexists; cbn; try reflexivity.
  rewrite app_nil_r. destruct w; reflexivity.
Qed.

Lemma walk_same_refl w : walk_same w w.
Proof. now repeat split. Qed.

Lemma walk_same_trans a b c : walk_same a b -> walk_same b c -> walk_same a c.
Proof. unfold walk_same. intros (-> & -> & -> & ->) (-> & -> & -> & ->). now repeat split. Qed.

Lemma walk_same_log l m : preserves walk_same (log (S := world) l m).
Proof. intros w r w' E. injection E as _ <-. now repeat split. Qed.

Lemma walk_same_write_file path content : preserves walk_same (write_file path content).
Proof.
  intros w r w' E. unfold write_file in E.
  destruct (w_faults w) as [|[| |] rest]; injection E as _ <-; now repeat split.
Qed.

Lemma walk_same_save_checkpoint data page :
  preserves walk_same (save_checkpoint data page).
Proof.
  unfold save_checkpoint, write_json.
  apply (preserves_try walk_same walk_same_trans).
  - repeat first [ apply walk_same_log | apply walk_same_write_file
                 | apply (preserves_bind walk_same walk_same_trans); [|intros ?] ].
  - intros e h E. injection E as <-. apply walk_same_log.
Qed.

(** A checkpoint never raises: a failed write ends in its handler. *)
Lemma returns_save_checkpoint data page : returns (save_checkpoint data page).
Proof. unfold save_checkpoint. apply returns_try_all, returns_log. Qed.

Lemma save_checkpoint_returns data page w :
  exists w', save_checkpoint data page w = (Ok tt, w') /\ walk_same w w'.
Proof.
  destruct (returns_save_checkpoint data page w) as ([] & w' & E).
  exists w'. split; [exact E|]. exact (walk_same_save_checkpoint data page w _ _ E).
Qed.

Lemma extract_page_returns now els page w :
  exists recs lg, extract_page now els page w = (Ok recs, set_log lg w).
Proof.
  destruct (returns_extract_page now els page w) as (recs & w' & E).
  exists recs, (w_log w'). rewrite E. f_equal.
  exact (log_only_extract_page now els page w _ _ E).
Qed.

Lemma log_grows_refl w : log_grows w w.
Proof. exists []. now rewrite app_nil_r. Qed.

Lemma log_grows_trans a b c : log_grows a b -> log_grows b c -> log_grows a c.
Proof. intros [x Hx] [y Hy]. exists (x ++ y). now rewrite Hy, Hx, app_assoc. Qed.

Lemma log_grows_navigate p cp : preserves log_grows (navigate_to_next_page p cp).
Proof.
  assert (Hlog : forall l m, preserves log_grows (log (S := world) l m)).
  { intros l m w r w' E. injection E as _ <-. now eexists. }
  assert (Hsend : forall q, preserves log_grows (send q)).
  { intros q w r w' E. injection E as _ <-. exists []. cbn. now rewrite app_nil_r. }
  unfold navigate_to_next_page.
  apply (preserves_try log_grows log_grows_trans).
  - destruct (next_page p);
      repeat first [ apply Hlog | apply Hsend
                   | apply (preserves_ret log_grows log_grows_refl)
                   | apply (preserves_raise log_grows log_grows_refl)
                   | apply (preserves_bind log_grows log_grows_trans); [|intros ?] ].
  - intros e h E. injection E as <-.
    apply (preserves_bind log_grows log_grows_trans); [apply Hlog|intros _].
    apply (preserves_ret log_grows log_grows_refl).
Qed.

Lemma main_file_not_checkpoint page : checkpoint_file page <> main_file.
Proof.
  intros E. apply (f_equal (fun l => nth 13 l 0)) in E. vm_compute in E. discriminate.
Qed.

(** What a checkpoint leaves on the disk: with both writes succeeding,
    the page file and the main file hold the data; otherwise the failure
    is in the log.  In both cases it returns. *)
Lemma save_checkpoint_effect data page w :
  exists w',
    save_checkpoint data page w = (Ok tt, w')
    /\ walk_same w w'
    /\ if writes_succeed 2 (w_faults w)
       then w_files w' !! checkpoint_file page = Some (Json data)
            /\ w_files w' !! main_file = Some (Json data)
       else List.In (Entry ERROR "Error saving checkpoint") (w_log w').
Proof.
  destruct (save_checkpoint_returns data page w) as (w' & E & Hsame).
  exists w'. split; [exact E|]. split; [exact Hsame|].
  revert E. unfold save_checkpoint, write_json, try_except, on_Exception.
  unfold bind at 1. unfold write_file at 1.
  destruct (w_faults w) as [|o1 rest1] eqn:Hf.
  - cbn [writes_succeed]. unfold bind at 1. cbn [log modify].
    unfold bind at 1. unfold write_file at 1.
    cbn [w_faults set_log world_log get_log set_files]. rewrite Hf.
    intros E. injection E as <-. cbn [w_files set_log world_log set_files].
    split; [|apply lookup_insert_eq].
    rewrite lookup_insert_ne by (apply main_file_not_checkpoint || (intros X; symmetry in X; revert X; apply main_file_not_checkpoint)).
    apply lookup_insert_eq.
  - destruct o1.
    + unfold bind at 1. cbn [log modify].
      unfold bind at 1. unfold write_file at 1.
      cbn [w_faults set_log world_log get_log set_files set_faults].
      destruct rest1 as [|o2 rest2].
      * cbn [writes_succeed]. intros E. injection E as <-.
        cbn [w_files set_log world_log set_files set_faults].
        split; [|apply lookup_insert_eq].
        rewrite lookup_insert_ne by (intros X; symmetry in X; revert X; apply main_file_not_checkpoint).
        apply lookup_insert_eq.
      * destruct o2; cbn [writes_succeed].
        -- intros E. injection E as <-.
           cbn [w_files set_log world_log set_files set_faults].
           split; [|apply lookup_insert_eq].
           rewrite lookup_insert_ne by (intros X; symmetry in X; revert X; apply main_file_not_checkpoint).
           apply lookup_insert_eq.
        -- intros E. injection E as <-. cbn. apply in_or_app. right. now left.
        -- intros E. injection E as <-. cbn. apply in_or_app. right. now left.
    + cbn [writes_succeed]. intros E. injection E as <-. cbn.
      apply in_or_app. right. now left.
    + cbn [writes_succeed]. intros E. injection E as <-. cbn.
      apply in_or_app. right. now left.
Qed.

(** The part of a pass that follows the loading of the listings: its
    outcome, its requests, the accumulated records and the checkpoint. *)
Lemma complete_page_spec now p cp w :
  exists page_hotels w',
    complete_page now p cp w = (Ok (page_outcome p cp (total_pages w)), w')
    /\ w_requests w' = w_requests w ++
         (if (total_pages w <=? cp)%nat then []
          else match next_page p with NoButton => [] | _ => [ClickNext (cp + 1)] end)
    /\ all_hotels_data w' = all_hotels_data w ++ page_hotels
    /\ current_page w' = match page_outcome p cp (total_pages w) with
                         | Continue => (cp + 1)%nat
                         | Break => current_page w
                         end
    /\ total_pages w' = total_pages w
    /\ if writes_succeed 2 (w_faults w)
       then w_files w' !! checkpoint_file cp = Some (Json (all_hotels_data w'))
            /\ w_files w' !! main_file = Some (Json (all_hotels_data w'))
       else List.In (Entry ERROR "Error saving checkpoint") (w_log w').
Proof.
  unfold complete_page, page_outcome.
  unfold bind at 1. cbn [log modify]. unfold bind at 1.
  match goal with |- context [extract_page now ?els cp ?s] =>
    destruct (extract_page_returns now els cp s) as (recs & lg & ->) end.
  exists recs.
  unfold bind at 1, modify at 1. unfold bind at 1, get at 1. unfold bind at 1.
  match goal with |- context [save_checkpoint ?d cp ?s] =>
    destruct (save_checkpoint_effect d cp s) as (w5 & -> & Hs5 & Hfiles) end.
  destruct Hs5 as (Hr5 & Ha5 & Hc5 & Ht5).
  cbn [w_requests all_hotels_data current_page total_pages w_faults
       set_all_hotels_data set_log world_log get_log] in Hr5, Ha5, Hc5, Ht5, Hfiles |- *.
  destruct (total_pages w <=? cp)%nat eqn:Hlast.
  { eexists. split; [reflexivity|].
    cbn [w_requests all_hotels_data current_page total_pages w_files w_log
         set_log world_log get_log].
    rewrite Hr5, Ha5, Hc5, Ht5, app_nil_r. repeat split.
    destruct (writes_succeed 2 (w_faults w)); [exact Hfiles|].
    apply in_or_app. now left. }
  unfold bind at 1.
  destruct (navigate_to_next_page p cp w5) as [rn wn] eqn:En.
  pose proof (log_grows_navigate p cp w5 rn wn En) as [extra Hextra].
  destruct (navigate_spec p cp w5) as (lg' & Hnav). rewrite Hnav in En.
  injection En as <- <-.
  cbn [w_log set_log world_log get_log set_requests] in Hextra.
  destruct (next_page p); cbn [log modify bind];
    (eexists; split; [reflexivity|]);
    cbn [w_requests all_hotels_data current_page total_pages w_files w_log
         set_log world_log get_log set_requests set_current_page];
    rewrite ?Hr5, ?Ha5, ?Hc5, ?Ht5, ?app_nil_r; repeat split;
    (destruct (writes_succeed 2 (w_faults w)); [exact Hfiles|]);
    rewrite ?Hextra; repeat (apply in_or_app; left); exact Hfiles.
Qed.

(** One pass of the loop: its outcome, its requests and the two page
    variables after it. *)
Lemma loop_body_control now st w :
  let cp := current_page w in
  let tp := total_pages w in
  exists w',
    loop_body now st w = (body_outcome st cp tp, w')
    /\ w_requests w' = w_requests w ++ body_requests st cp tp
    /\ current_page w' = match body_outcome st cp tp with
                         | Ok Continue => (cp + 1)%nat
                         | _ => cp
                         end
    /\ total_pages w' = total_after st cp tp.
Proof.
  intros cp tp. unfold loop_body, body_outcome, body_requests, total_after.
  fold cp. unfold bind at 1, get at 1. fold cp.
  unfold bind at 1. cbn [log modify]. unfold bind at 1, send at 1, modify at 1.
  set (w1 := set_requests _ _).
  assert (Hw1 : w_requests w1 = w_requests w ++ [Goto cp]
                /\ current_page w1 = cp /\ total_pages w1 = tp) by now repeat split.
  clearbody w1. destruct Hw1 as (Hr1 & Hc1 & Ht1).
  unfold bind at 1.
  destruct (goto_ok (st cp)) eqn:Hgoto; cbn [negb andb].
  2:{ cbn. exists w1. rewrite andb_false_r. cbn. now repeat split. }
  cbn [log modify]. rewrite andb_true_r.
  set (w2 := set_log _ w1).
  assert (Hw2 : w_requests w2 = w_requests w ++ [Goto cp]
                /\ current_page w2 = cp /\ total_pages w2 = tp) by now repeat split.
  clearbody w2. clear w1 Hr1 Hc1 Ht1. destruct Hw2 as (Hr1 & Hc1 & Ht1).
  unfold bind at 1.
  set (tp' := if (cp =? 1)%nat then page_count (st cp) else tp).
  assert (Hstep : exists w3,
             (if (cp =? 1)%nat
              then bind (get_total_pages (st cp)) (fun total =>
                     bind (modify (set_total_pages total)) (fun _ =>
                       log INFO "Total pages to scrape"))
              else ret tt) w2 = (Ok tt, w3)
             /\ w_requests w3 = w_requests w ++ [Goto cp]
             /\ current_page w3 = cp /\ total_pages w3 = tp').
  { subst tp'. destruct (cp =? 1)%nat.
    - unfold bind at 1. destruct (get_total_pages_spec (st cp) w2) as (lg & ->).
      eexists. split; [reflexivity|]. now repeat split.
    - eexists. split; [reflexivity|]. now repeat split. }
  destruct Hstep as (w3 & -> & Hr3 & Hc3 & Ht3).
  clear w2 Hr1 Hc1 Ht1.
  unfold bind at 1. cbn [log modify].
  set (w4 := set_log _ w3).
  assert (Hw4 : w_requests w4 = w_requests w ++ [Goto cp]
                /\ current_page w4 = cp /\ total_pages w4 = tp') by now repeat split.
  clearbody w4. clear w3 Hr3 Hc3 Ht3. destruct Hw4 as (Hr & Hc & Ht).
  destruct (listing_loads (st cp)) eqn:Hload; cbn [negb andb].
  2:{ eexists. split; [reflexivity|]. cbn. now repeat split. }
  destruct (complete_page_spec now (st cp) cp w4)
    as (recs & w' & -> & Hr' & _ & Hc' & Ht' & _).
  exists w'. rewrite Ht in *. unfold page_outcome in *.
  destruct (tp' <=? cp)%nat; cbn [negb].
  - repeat split; try congruence. now rewrite Hr', Hr, app_nil_r.
  - destruct (next_page (st cp)); repeat split; try congruence;
      rewrite Hr', Hr, <- ?app_assoc, ?app_nil_r; reflexivity.
Qed.

(** The loop: its requests are those of [walk_requests], and it is left
    within the fuel exactly when [walk_ends] says so. *)
Lemma while_true_control now st fuel w :
  exists r w',
    while_true fuel (loop_body now st) w = (r, w')
    /\ w_requests w' = w_requests w
                       ++ walk_requests st fuel (current_page w) (total_pages w)
    /\ (r = Ok false -> walk_ends st fuel (current_page w) (total_pages w) = false)
    /\ (forall b, r = Ok b -> b = walk_ends st fuel (current_page w) (total_pages w)).
Proof.
  revert w. induction fuel as [|fuel IH]; intros w.
  - exists (Ok false), w. cbn. rewrite app_nil_r. repeat split; auto.
    intros b E. now injection E.
  - cbn [while_true walk_requests walk_ends]. unfold bind at 1.
    destruct (loop_body_control now st w) as (w1 & -> & Hr & Hc & Ht).
    destruct (body_outcome st (current_page w) (total_pages w)) as [[|]|e].
    + destruct (IH w1) as (r & w' & -> & Hr' & Hf & Hb).
      exists r, w'. rewrite Hr', Hr, Hc, Ht, <- app_assoc in *.
      repeat split; auto.
    + exists (Ok true), w1. rewrite app_nil_r. repeat split; auto; try discriminate.
      intros b E. now injection E.
    + exists (Raise e), w1. rewrite app_nil_r. repeat split; auto; discriminate.
Qed.

Lemma visited_app a b : visited (a ++ b) = visited a ++ visited b.
Proof. apply flat_map_app. Qed.

Lemma clicked_app a b : clicked (a ++ b) = clicked a ++ clicked b.
Proof. apply flat_map_app. Qed.

Lemma visited_body st cp tp : visited (body_requests st cp tp) = [cp].
Proof.
  unfold body_requests. cbn. destruct (_ && _); [|reflexivity].
  destruct (next_page (st cp)); reflexivity.
Qed.

Lemma clicked_body st cp tp :
  clicked (body_requests st cp tp) = []
  \/ (clicked (body_requests st cp tp) = [(cp + 1)%nat]
      /\ goto_ok (st cp) = true
      /\ (cp < total_after st cp tp)%nat).
Proof.
  unfold body_requests. cbn.
  destruct (goto_ok (st cp)); [|now left].
  destruct (listing_loads (st cp)); [|now left].
  destruct (total_after st cp tp <=? cp)%nat eqn:E; [now left|].
  apply Nat.leb_gt in E. cbn.
  destruct (next_page (st cp)); [now left|right..]; now repeat split.
Qed.

Lemma continue_inv st cp tp :
  body_outcome st cp tp = Ok Continue ->
  goto_ok (st cp) = true /\ listing_loads (st cp) = true
  /\ (cp < total_after st cp tp)%nat /\ next_page (st cp) = Navigated.
Proof.
  unfold body_outcome.
  destruct (goto_ok (st cp)); [|discriminate].
  destruct (listing_loads (st cp)); [|discriminate]. cbn.
  destruct (total_after st cp tp <=? cp)%nat eqn:E; [discriminate|].
  apply Nat.leb_gt in E.
  destruct (next_page (st cp)); try discriminate. now repeat split.
Qed.

(** The shape of the requests of a walk whose total is [T]. *)
Lemma walk_requests_shape st T fuel : forall cp tp,
  (1 <= cp)%nat ->
  (cp = 1%nat -> goto_ok (st 1%nat) = true -> page_count (st 1%nat) = T) ->
  (cp <> 1%nat -> tp = T) ->
  (1 <= fuel)%nat ->
  exists k,
    visited (walk_requests st fuel cp tp) = seq cp k
    /\ (1 <= k)%nat /\ (cp + k <= Nat.max (cp + 1) (T + 1))%nat
    /\ Forall (fun n => (n <= T)%nat) (clicked (walk_requests st fuel cp tp))
    /\ ((T + 1 <= fuel + cp)%nat -> healthy st (Nat.max 1 T) ->
        (cp + k = Nat.max (cp + 1) (T + 1))%nat)
    /\ ((T + 1 <= fuel + cp)%nat -> walk_ends st fuel cp tp = true).
Proof.
  induction fuel as [|fuel IH]; intros cp tp Hcp H1 Hn1 Hfuel; [lia|].
  cbn [walk_requests walk_ends].
  rewrite visited_app, clicked_app, visited_body.
  assert (HT : goto_ok (st cp) = true -> total_after st cp tp = T).
  { intros Hg. unfold total_after. rewrite Hg, andb_true_r.
    destruct (Nat.eqb_spec cp 1) as [->|Hne]; auto. }
  assert (Hclick : Forall (fun n => (n <= T)%nat) (clicked (body_requests st cp tp))).
  { destruct (clicked_body st cp tp) as [-> | (-> & Hg & Hlt)]; [constructor|].
    rewrite (HT Hg) in Hlt. constructor; [lia|constructor]. }
  destruct (body_outcome st cp tp) as [[|]|e] eqn:Hout.
  - apply continue_inv in Hout as (Hg & Hl & Hlt & Hnav).
    rewrite (HT Hg) in *.
    destruct (Nat.eq_dec fuel 0%nat) as [->|Hf].
    + exists 1%nat. cbn. rewrite app_nil_r.
      repeat split; try lia; try assumption.
    + destruct (IH (cp + 1)%nat T) as (k & Hv & Hk1 & Hk2 & Hc & Hh & He); try lia.
      exists (S k).
      split; [|split; [|split; [|split; [|split]]]].
      * rewrite Hv. cbn. now replace (cp + 1)%nat with (S cp) by lia.
      * lia.
      * lia.
      * apply Forall_app. split; [exact Hclick | exact Hc].
      * intros Hge Hhe. specialize (Hh ltac:(lia) Hhe). lia.
      * intros Hge. apply He. lia.
  - exists 1%nat. cbn. rewrite app_nil_r.
    repeat split; try lia; try assumption.
    intros Hge Hhe.
    destruct (Nat.le_gt_cases T cp) as [Hle|Hlt]; [lia|].
    exfalso. destruct (Hhe cp ltac:(lia)) as (Hg & Hl & Hnav).
    unfold body_outcome in Hout. rewrite Hg, Hl, (HT Hg) in Hout. cbn in Hout.
    apply Nat.leb_gt in Hlt as Hlt'. rewrite Hlt' in Hout.
    rewrite Hnav in Hout by lia. discriminate.
  - exists 1%nat. cbn. rewrite app_nil_r.
    repeat split; try lia; try assumption.
    intros Hge Hhe.
    destruct (Nat.le_gt_cases cp (Nat.max 1 T)) as [Hle|Hgt]; [|lia].
    exfalso. destruct (Hhe cp ltac:(lia)) as (Hg & Hl & Hnav).
    unfold body_outcome in Hout. rewrite Hg, Hl in Hout. cbn in Hout.
    destruct (_ <=? _)%nat; [discriminate|]. destruct (next_page (st cp)); discriminate.
Qed.

(** The handler of [scrape_hotels] sends no request, and when it returns
    it returns [True]. *)
Lemma scrape_handler_spec w :
  exists r w',
    (log ERROR "Error during scraping" ;;;
     write_file (u "error_page.html") Html ;;;
     log INFO "Saved error page content to error_page.html" ;;;
     w <- get ;;
     match all_hotels_data w with
     | [] => ret true
     | _ :: _ => save_checkpoint (all_hotels_data w) (current_page w) ;;; ret true
     end)%eff w = (r, w')
    /\ w_requests w' = w_requests w
    /\ (forall b, r = Ok b -> b = true).
Proof.
  unfold bind at 1. cbn [log modify]. unfold bind at 1.
  destruct (write_file _ _ _) as [[[]|e] w1] eqn:Ew.
  - apply walk_same_write_file in Ew as (Hr & _). cbn in Hr.
    unfold bind at 1. cbn [log modify]. unfold bind at 1, get at 1.
    destruct (all_hotels_data _) as [|h t].
    + eexists _, _. split; [reflexivity|]. split; [exact Hr|].
      intros b E. now injection E.
    + unfold bind at 1.
      match goal with |- context [save_checkpoint ?d ?c ?s] =>
        destruct (save_checkpoint_returns d c s) as (w2 & -> & (Hr2 & _)) end.
      eexists _, _. split; [reflexivity|]. split; [now rewrite Hr2|].
      intros b E. now injection E.
  - apply walk_same_write_file in Ew as (Hr & _). cbn in Hr.
    eexists _, _. split; [reflexivity|]. split; [exact Hr|]. discriminate.
Qed.

(** [scrape_hotels]: the requests of the walk are those of the loop. *)
Lemma scrape_hotels_requests fuel now st w :
  exists r w',
    scrape_hotels fuel now st w = (r, w')
    /\ w_requests w' = w_requests w ++ walk_requests st fuel 1 (total_pages w)
    /\ (walk_ends st fuel 1 (total_pages w) = true -> r <> Ok None).
Proof.
  unfold scrape_hotels.
  unfold bind at 1, modify at 1. unfold bind at 1, modify at 1.
  set (w0 := set_current_page 1 _).
  assert (Hw0 : w_requests w0 = w_requests w /\ current_page w0 = 1%nat
                /\ total_pages w0 = total_pages w) by now repeat split.
  clearbody w0. destruct Hw0 as (Hr0 & Hc0 & Ht0).
  unfold bind at 1. unfold try_except at 1.
  unfold bind at 1. cbn [log modify]. unfold bind at 1.
  match goal with |- context [while_true fuel _ ?s] =>
    destruct (while_true_control now st fuel s) as (rl & w1 & -> & Hr1 & _ & Hb) end.
  cbn [w_requests current_page total_pages set_log world_log get_log] in Hr1, Hb.
  rewrite Hr0, Hc0, Ht0 in *.
  destruct rl as [left|e].
  - specialize (Hb left eq_refl). subst left.
    destruct (walk_ends st fuel 1 (total_pages w)).
    + eexists _, _. split; [reflexivity|]. split; [exact Hr1|]. discriminate.
    + eexists _, _. split; [reflexivity|]. split; [exact Hr1|]. discriminate.
  - unfold on_Exception.
    destruct (scrape_handler_spec w1) as (rh & w2 & -> & Hr2 & Htrue).
    destruct rh as [b|e'].
    + rewrite (Htrue b eq_refl).
      eexists _, _. split; [reflexivity|]. split; [cbn; congruence|]. discriminate.
    + eexists _, _. split; [reflexivity|]. split; [congruence|]. discriminate.
Qed.



End WalkerFacts.

(** ** Loops *)

Module LoopFacts.
Import Eff.

(** A property of the accumulator that every pass of the body keeps holds
    of the result of the loop. *)
Lemma fold_m_inv_in {S A B} (P : B -> Prop) (l : list A) (body : B -> A -> M S B) :
  (forall b x s b' s', List.In x l -> P b -> body b x s = (Ok b', s') -> P b') ->
  forall b s r s', P b -> fold_m l body b s = (Ok r, s') -> P r.
Proof.
  induction l as [|x t IH]; intros Hbody b s r s' Hb E.
  - injection E as <- _. exact Hb.
  - cbn [fold_m] in E. unfold bind in E.
    destruct (body b x s) as [[b'|e] s1] eqn:E1; [|discriminate].
    refine (IH _ _ _ _ _ (Hbody _ _ _ _ _ (or_introl eq_refl) Hb E1) E).
    intros b0 x0 s0 b0' s0' Hin. apply Hbody. now right.
Qed.

Lemma fold_m_inv {S A B} (P : B -> Prop) (l : list A) (body : B -> A -> M S B) :
  (forall b x s b' s', P b -> body b x s = (Ok b', s') -> P b') ->
  forall b s r s', P b -> fold_m l body b s = (Ok r, s') -> P r.
Proof. intros Hbody. apply fold_m_inv_in. intros b x s b' s' _. apply Hbody. Qed.

End LoopFacts.

(** ** More on the field extractor *)

Module ExtractorProperties.
Import Py Eff Scraper Spec ScraperNotions MoreExamples PyFacts EffFacts LoopFacts ExtractorFacts.

Lemma extract_rating_fields el h lg h' lg' :
  extract_rating el h lg = (Ok h', lg') ->
  same_listing h h' /\ price h' = price h
  /\ tennis_facilities h' = tennis_facilities h
  /\ rating_score h' = match circle_rating el with
                       | Some t => float_of_str (strip t)
                       | None => rating_score h
                       end
  /\ rating_text h' = match rating_text_element el with
                      | Some t => strip t
                      | None => rating_text h
                      end.
Proof.
  unfold extract_rating, bind, to_float.
  destruct (circle_rating el) as [t|].
  - destruct (float_of_str (strip t)) as [f|]; [|discriminate]. cbn.
    destruct (rating_text_element el); intros E; injection E as <- <-;
      now repeat split.
  - cbn. destruct (rating_text_element el); intros E; injection E as <- <-;
      now repeat split.
Qed.

Lemma extract_price_fields el h lg h' lg' :
  extract_price el h lg = (Ok h', lg') ->
  same_listing h h' /\ rating_score h' = rating_score h
  /\ rating_text h' = rating_text h
  /\ tennis_facilities h' = tennis_facilities h.
Proof.
  unfold extract_price. destruct (main_price_box el) as [box|].
  - unfold bind at 1.
    match goal with |- context [match ?m lg with _ => _ end] =>
      destruct (m lg) as [[p|e] lg1] end; [|discriminate].
    intros E. injection E as <- <-. now repeat split.
  - intros E. injection E as <- <-. now repeat split.
Qed.

Lemma extract_tennis_fields el h lg h' lg' :
  extract_tennis el h lg = (Ok h', lg') ->
  same_listing h h' /\ rating_score h' = rating_score h
  /\ rating_text h' = rating_text h /\ price h' = price h.
Proof.
  unfold extract_tennis. destruct (tab_height el) as [sec|].
  - unfold bind at 1. cbn [log modify]. unfold bind at 1.
    destruct (expand_section sec _) as [[[]|e] lg1]; [|discriminate].
    unfold bind at 1.
    destruct (fold_m _ _ _ _) as [[t|e] lg2]; [|discriminate].
    intros E. injection E as <- <-. now repeat split.
  - intros E. injection E as <- <-. now repeat split.
Qed.

Lemma extract_location_fields el h lg h' lg' :
  extract_location el h lg = (Ok h', lg') ->
  name h' = name h /\ source_country h' = source_country h
  /\ star_rating h' = star_rating h /\ scrape_timestamp h' = scrape_timestamp h
  /\ page_number h' = page_number h /\ rating_score h' = rating_score h
  /\ rating_text h' = rating_text h.
Proof.
  unfold extract_location. destruct (hotel_property_type_location el) as [t|].
  - unfold bind at 1. cbn [log modify].
    destruct (location_parts (strip t)) as [|p0 rest];
      intros E; injection E as <- <-; now repeat split.
  - intros E. injection E as <- <-. now repeat split.
Qed.

Lemma extract_name_fields el h lg h' lg' :
  extract_name el h lg = (Ok h', lg') ->
  name h' = match hotel_li_name_link el with Some t => strip t | None => name h end
  /\ source_country h' = source_country h
  /\ star_rating h' = star_rating h /\ scrape_timestamp h' = scrape_timestamp h
  /\ page_number h' = page_number h /\ rating_score h' = rating_score h
  /\ rating_text h' = rating_text h.
Proof.
  unfold extract_name. destruct (hotel_li_name_link el) as [t|];
    intros E; injection E as <- <-; now repeat split.
Qed.

(** What a returned record holds in the fields read off single elements. *)
Lemma extract_hotel_data_some now el lg h lg' :
  extract_hotel_data now el lg = (Ok (Some h), lg') ->
  name h = match hotel_li_name_link el with Some t => strip t | None => [] end
  /\ star_rating h = star_elements el
  /\ source_country h = u "World"
  /\ scrape_timestamp h = now
  /\ page_number h = None
  /\ rating_score h = match circle_rating el with
                      | Some t => float_of_str (strip t)
                      | None => None
                      end
  /\ rating_text h = match rating_text_element el with
                     | Some t => strip t
                     | None => []
                     end.
Proof.
  unfold extract_hotel_data, try_except.
  unfold bind at 1. cbn [log modify get_log set_log log_only].
  unfold bind at 1.
  destruct (extract_name _ _ _) as [[h1|e] lg1] eqn:E1.
  2:{ cbn. discriminate. }
  unfold bind at 1.
  destruct (extract_location _ _ _) as [[h2|e] lg2] eqn:E2.
  2:{ cbn. discriminate. }
  unfold bind at 1.
  destruct (extract_rating _ _ _) as [[h3|e] lg3] eqn:E3.
  2:{ cbn. discriminate. }
  unfold bind at 1.
  destruct (extract_price _ _ _) as [[h4|e] lg4] eqn:E4.
  2:{ cbn. discriminate. }
  unfold bind at 1.
  destruct (extract_tennis _ _ _) as [[h5|e] lg5] eqn:E5.
  2:{ cbn. discriminate. }
  cbn. intros E. injection E as Eh El. subst h5.
  apply extract_name_fields in E1 as (N1 & S1 & R1 & T1 & P1 & Sc1 & Tx1).
  apply extract_location_fields in E2 as (N2 & S2 & R2 & T2 & P2 & Sc2 & Tx2).
  apply extract_rating_fields in E3
    as ((N3 & _ & _ & S3 & R3 & T3 & P3) & _ & _ & Sc3 & Tx3).
  apply extract_price_fields in E4
    as ((N4 & _ & _ & S4 & R4 & T4 & P4) & Sc4 & Tx4 & _).
  apply extract_tennis_fields in E5
    as ((N5 & _ & _ & S5 & R5 & T5 & P5) & Sc5 & Tx5 & _).
  cbn in *.
  destruct (hotel_li_name_link el), (circle_rating el), (rating_text_element el);
    repeat split; congruence.
Qed.

(** X1. [extract_hotel_data] never raises, and it answers [None] exactly
    when the listing has a score element whose text is not a number. *)
Theorem record_lost_exactly_on_unreadable_score now el lg :
  exists r lg',
    extract_hotel_data now el lg = (Ok r, lg')
    /\ (r = None <-> score_readable el = false).
Proof.
  unfold score_readable.
  destruct (circle_rating el) as [t|] eqn:Ec.
  - destruct (float_of_str (strip t)) as [f|] eqn:Ef.
    + destruct (parsable_score_keeps_record now el lg) as (h & lg' & E).
      { intros t' Et. rewrite Ec in Et. injection Et as <-. now rewrite Ef. }
      exists (Some h), lg'. split; [exact E|]. split; discriminate.
    + destruct (unparsable_score_drops_record now el t lg Ec Ef) as (lg' & E).
      exists None, (lg' ++ [Entry ERROR "Error extracting hotel data"]).
      split; [exact E|]. now split.
  - destruct (parsable_score_keeps_record now el lg) as (h & lg' & E).
    { intros t' Et. rewrite Ec in Et. discriminate. }
    exists (Some h), lg'. split; [exact E|]. split; discriminate.
Qed.

(** X2. When the score element is absent or its text is a number, a
    record is returned whatever the other elements hold, with the trimmed
    name (empty without a name element), the number of star icons, the
    score and its trimmed label, the first configured country as source
    country, the time of the extraction, and no page number yet. *)
Theorem record_of_readable_score now el lg :
  (forall t, circle_rating el = Some t -> float_of_str (strip t) <> None) ->
  exists h lg',
    extract_hotel_data now el lg = (Ok (Some h), lg')
    /\ name h = match hotel_li_name_link el with Some t => strip t | None => [] end
    /\ star_rating h = star_elements el
    /\ source_country h = u "World"
    /\ scrape_timestamp h = now
    /\ page_number h = None
    /\ rating_score h = match circle_rating el with
                        | Some t => float_of_str (strip t)
                        | None => None
                        end
    /\ rating_text h = match rating_text_element el with
                       | Some t => strip t
                       | None => []
                       end.
Proof.
  intros Hok.
  destruct (parsable_score_keeps_record now el lg Hok) as (h & lg' & E).
  exists h, lg'. split; [exact E|]. exact (extract_hotel_data_some _ _ _ _ _ E).
Qed.

Lemma record_of_readable_score_witness :
  exists h lg',
    extract_hotel_data (u "2025-05-09T10:00:00") rated_fragment [] = (Ok (Some h), lg')
    /\ name h = u "Sea View Hotel"
    /\ star_rating h = 3%nat
    /\ source_country h = u "World"
    /\ scrape_timestamp h = u "2025-05-09T10:00:00"
    /\ page_number h = None
    /\ rating_score h = Some (Finite (2448832297382707 # 281474976710656))
    /\ rating_text h = u "Very good".
Proof.
  apply (record_of_readable_score (u "2025-05-09T10:00:00") rated_fragment []).
  intros t E. injection E as <-. vm_compute. discriminate.
Defined.

Lemma filter_drop_while {A} (p q : A -> bool) l :
  (forall x, q x = true -> p x = false) ->
  List.filter p (drop_while q l) = List.filter p l.
Proof.
  intros H. induction l as [|x t IH]; [reflexivity|]. simpl.
  destruct (q x) eqn:E; [|reflexivity]. now rewrite (H x E).
Qed.

Lemma filter_rev {A} (p : A -> bool) l :
  List.filter p (rev l) = rev (List.filter p l).
Proof.
  induction l as [|x t IH]; [reflexivity|]. simpl.
  rewrite List.filter_app, IH. simpl. destruct (p x); simpl; [reflexivity|].
  now rewrite app_nil_r.
Qed.

(** Trimming white space touches no digit. *)
Lemma only_digits_strip s : only_digits (strip s) = only_digits s.
Proof.
  assert (H : forall x, isspace x = true -> isdigit x = false).
  { intros x Hx. destruct (isdigit x) eqn:E; [|reflexivity].
    rewrite (isdigit_not_space x E) in Hx. discriminate. }
  unfold only_digits, strip, strip_by, rstrip_by, lstrip_by.
  rewrite filter_rev, (filter_drop_while _ _ _ H), filter_rev, rev_involutive.
  apply (filter_drop_while _ _ _ H).
Qed.

Lemma forallb_only_digits s : forallb isdigit (only_digits s) = true.
Proof.
  unfold only_digits. induction s as [|c t IH]; [reflexivity|]. simpl.
  destruct (isdigit c) eqn:E; [|exact IH]. simpl. now rewrite E.
Qed.

(** [int] of a non-empty string of digits is the number they write. *)
Lemma int_of_digits ds :
  ds <> [] -> forallb isdigit ds = true -> int_of_str ds = Some (digits_val ds).
Proof.
  intros Hne Hd. unfold int_of_str.
  assert (Hstrip : strip ds = ds).
  { apply strip_by_id.
    - intros c t ->. simpl in Hd. apply andb_true_iff in Hd as [Hc _].
      now apply isdigit_not_space.
    - intros c t ->. rewrite forallb_app in Hd. apply andb_true_iff in Hd as [_ Hc].
      simpl in Hc. rewrite andb_true_r in Hc. now apply isdigit_not_space. }
  rewrite Hstrip.
  destruct ds as [|c t]; [congruence|].
  assert (Hc : isdigit c = true).
  { simpl in Hd. now apply andb_true_iff in Hd as [Hc _]. }
  pose proof (proj1 (isdigit_bounds c) Hc) as Hb.
  assert (Hsign : take_sign (c :: t) = (false, c :: t)).
  { unfold take_sign. destruct c as [|p]; [lia|].
    do 6 (destruct p as [p|p|]; try reflexivity); lia. }
  rewrite Hsign, (drop_underscores_digits 0 (c :: t)) by (try lia; assumption).
  now rewrite Hd.
Qed.

(** The count read off a text: the number written by all of its digits
    taken together, [ValueError] when it has none. *)
Lemma to_count_digits {S} text (s : S) :
  to_count text s = match only_digits text with
                    | [] => (Raise ValueError, s)
                    | d => (Ok (digits_val d), s)
                    end.
Proof.
  unfold to_count. destruct (only_digits text) as [|c t] eqn:E.
  - reflexivity.
  - rewrite int_of_digits; [reflexivity|discriminate|].
    rewrite <- E. apply forallb_only_digits.
Qed.

(** X3. The element of the total number of courts: on an ASCII value the
    stored total is the number written by all the digits of the value
    taken together, whatever stands between them; without a digit the
    total is left as it was and a WARNING is logged.  Neither case
    raises. *)
Theorem court_total_joins_digits t span0 span1 more sv lg :
  is_total_label span0 = true ->
  ascii_text span1 ->
  process_div t (InfoDiv (span0 :: span1 :: more) sv) lg
  = match only_digits span1 with
    | [] => (Ok t, lg ++ [Entry DEBUG "Processing field";
                          Entry WARNING "Could not parse total courts"])
    | d => (Ok (set_total_courts (digits_val d) t),
            lg ++ [Entry DEBUG "Processing field";
                   Entry DEBUG "Found total courts"])
    end.
Proof.
  intros Hlabel _. unfold is_total_label in Hlabel.
  unfold process_div. cbn [spans].
  unfold try_except at 1. unfold bind at 1. cbn [log modify get_log set_log log_only].
  rewrite Hlabel. unfold try_except, bind.
  rewrite to_count_digits, only_digits_strip.
  destruct (only_digits span1) as [|c d]; cbn; now rewrite <- app_assoc.
Qed.

Lemma court_total_joins_digits_witness :
  process_div (tennis_facilities (init_hotel_data [])) range_div []
  = (Ok (set_total_courts 24 (tennis_facilities (init_hotel_data []))),
     [Entry DEBUG "Processing field"; Entry DEBUG "Found total courts"]).
Proof.
  apply (court_total_joins_digits (tennis_facilities (init_hotel_data []))
           (u "Number of all tennis courts total:") (u " 2 to 4 courts ") [] [] []).
  - vm_compute. reflexivity.
  - unfold ascii_text. repeat constructor.
Defined.

Lemma dict_set_keys k v d :
  map fst (dict_set k v d)
  = if bool_decide (k ∈ map fst d) then map fst d else map fst d ++ [k].
Proof.
  induction d as [|[k' v'] t IH]; [reflexivity|]. cbn [dict_set map fst].
  destruct (bool_decide (k = k')) eqn:E.
  - apply bool_decide_eq_true in E as <-.
    rewrite bool_decide_eq_true_2 by constructor. reflexivity.
  - apply bool_decide_eq_false in E. cbn [map fst]. rewrite IH.
    destruct (bool_decide (k ∈ map fst t)) eqn:Et.
    + apply bool_decide_eq_true in Et.
      rewrite bool_decide_eq_true_2 by now constructor. reflexivity.
    + apply bool_decide_eq_false in Et.
      rewrite bool_decide_eq_false_2; [reflexivity|].
      intros H. inversion H; subst; contradiction.
Qed.

Lemma surfaces_agree_add t k v :
  surfaces_agree t ->
  surfaces_agree
    (set_surface_counts
       (dict_set k v
          (surface_counts
             (if bool_decide (k ∈ court_surfaces t) then t
              else set_court_surfaces (court_surfaces t ++ [k]) t)))
       (if bool_decide (k ∈ court_surfaces t) then t
        else set_court_surfaces (court_surfaces t ++ [k]) t)).
Proof.
  intros [Hk Hn]. unfold surfaces_agree.
  destruct (bool_decide (k ∈ court_surfaces t)) eqn:E; cbn.
  - rewrite dict_set_keys, Hk, E. now split.
  - rewrite dict_set_keys, Hk, E. split; [reflexivity|].
    apply bool_decide_eq_false in E.
    apply NoDup_app. split; [exact Hn|]. split.
    + intros x Hx Hx'. apply list_elem_of_singleton in Hx'. now subst x.
    + apply NoDup_singleton.
Qed.

Lemma surfaces_agree_process_surface t sd lg t' lg' :
  surfaces_agree t -> process_surface t sd lg = (Ok t', lg') -> surfaces_agree t'.
Proof.
  intros Ht. unfold process_surface.
  destruct (split _ _) as [|p0 [|p1 [|p2 ps]]];
    try (intros E; injection E as <- _; exact Ht).
  unfold try_except, bind. rewrite to_count_digits.
  destruct (only_digits p1) as [|c d]; cbn.
  - intros E. injection E as <- _. exact Ht.
  - intros E. injection E as <- _. now apply surfaces_agree_add.
Qed.

Lemma surfaces_agree_process_div t div lg t' lg' :
  surfaces_agree t -> process_div t div lg = (Ok t', lg') -> surfaces_agree t'.
Proof.
  intros Ht. unfold process_div.
  destruct (spans div) as [|span0 [|span1 more]];
    try (intros E; injection E as <- _; exact Ht).
  unfold try_except at 1. unfold bind at 1. cbn [log modify get_log set_log log_only].
  destruct (existsb _ _).
  { unfold try_except, bind. rewrite to_count_digits.
    destruct (only_digits _); cbn; intros E; injection E as <- _; exact Ht. }
  destruct (_ && _).
  { unfold try_except, bind. rewrite to_count_digits.
    destruct (only_digits _); cbn; intros E; injection E as <- _; exact Ht. }
  destruct (_ || _).
  { destruct (fold_m _ _ _ _) as [[r|e] s1] eqn:Ef.
    - intros E. injection E as <- _.
      refine (fold_m_inv surfaces_agree _ _ _ _ _ _ _ Ht Ef).
      intros b x s b' s' Hb Eb. exact (surfaces_agree_process_surface _ _ _ _ _ Hb Eb).
    - cbn. intros E. injection E as <- _. exact Ht. }
  destruct (contains (u "opening hours") _).
  { cbn. intros E. injection E as <- _. exact Ht. }
  destruct (_ && _).
  { cbn. intros E. injection E as <- _. exact Ht. }
  destruct (contains (u "tennis lessons") _).
  { cbn. intros E. injection E as <- _.
    destruct (_ || _); [|exact Ht].
    destruct (split _ _) as [|c0 [|c1 cs]]; exact Ht. }
  cbn. intros E. injection E as <- _. exact Ht.
Qed.

Lemma extract_tennis_surfaces el h lg h' lg' :
  surfaces_agree (tennis_facilities h) ->
  extract_tennis el h lg = (Ok h', lg') ->
  surfaces_agree (tennis_facilities h').
Proof.
  intros Ht. unfold extract_tennis. destruct (tab_height el) as [sec|].
  - unfold bind at 1. cbn [log modify]. unfold bind at 1.
    destruct (expand_section sec _) as [[[]|e] lg1]; [|discriminate].
    unfold bind at 1.
    destruct (fold_m _ _ _ _) as [[t|e] lg2] eqn:Ef; [|discriminate].
    intros E. injection E as <- _. cbn.
    refine (fold_m_inv surfaces_agree _ _ _ _ _ _ _ Ht Ef).
    intros b x s b' s' Hb Eb. exact (surfaces_agree_process_div _ _ _ _ _ Hb Eb).
  - intros E. injection E as <- _. exact Ht.
Qed.

Lemma extract_name_tennis el h lg h' lg' :
  extract_name el h lg = (Ok h', lg') -> tennis_facilities h' = tennis_facilities h.
Proof.
  unfold extract_name. destruct (hotel_li_name_link el);
    intros E; now injection E as <- _.
Qed.

Lemma extract_location_tennis el h lg h' lg' :
  extract_location el h lg = (Ok h', lg') -> tennis_facilities h' = tennis_facilities h.
Proof.
  unfold extract_location. destruct (hotel_property_type_location el) as [t|].
  - unfold bind at 1. cbn [log modify].
    destruct (location_parts (strip t)) as [|p0 rest];
      intros E; now injection E as <- _.
  - intros E. now injection E as <- _.
Qed.

(** X4. In every record [extract_hotel_data] returns, the list of court
    surfaces and the keys of the surface counts are the same list, and no
    surface is listed twice. *)
Theorem surfaces_and_counts_in_step now el lg h lg' :
  extract_hotel_data now el lg = (Ok (Some h), lg') ->
  surfaces_agree (tennis_facilities h).
Proof.
  unfold extract_hotel_data, try_except.
  unfold bind at 1. cbn [log modify get_log set_log log_only].
  unfold bind at 1.
  destruct (extract_name _ _ _) as [[h1|e] lg1] eqn:E1.
  2:{ cbn. discriminate. }
  unfold bind at 1.
  destruct (extract_location _ _ _) as [[h2|e] lg2] eqn:E2.
  2:{ cbn. discriminate. }
  unfold bind at 1.
  destruct (extract_rating _ _ _) as [[h3|e] lg3] eqn:E3.
  2:{ cbn. discriminate. }
  unfold bind at 1.
  destruct (extract_price _ _ _) as [[h4|e] lg4] eqn:E4.
  2:{ cbn. discriminate. }
  unfold bind at 1.
  destruct (extract_tennis _ _ _) as [[h5|e] lg5] eqn:E5.
  2:{ cbn. discriminate. }
  cbn. intros E. injection E as Eh El. subst h5.
  apply (extract_tennis_surfaces _ _ _ _ _) in E5; [exact E5|].
  apply extract_price_fields in E4 as (_ & _ & _ & ->).
  apply extract_rating_fields in E3 as (_ & _ & -> & _).
  cbn. rewrite (extract_location_tennis _ _ _ _ _ E2).
  rewrite (extract_name_tennis _ _ _ _ _ E1).
  split; [reflexivity|]. cbn. apply NoDup_nil_2.
Qed.

Lemma surfaces_and_counts_in_step_witness :
  court_surfaces (tennis_facilities surfaces_record) = [u "Clay"; u "Hard"]
  /\ surface_counts (tennis_facilities surfaces_record)
     = [(u "Clay", 4%Z); (u "Hard", 3%Z)]
  /\ surfaces_agree (tennis_facilities surfaces_record).
Proof.
  split; [vm_compute; reflexivity|]. split; [vm_compute; reflexivity|].
  apply (surfaces_and_counts_in_step (u "2025-05-09T10:00:00") surfaces_fragment []
           surfaces_record
           (snd (extract_hotel_data (u "2025-05-09T10:00:00") surfaces_fragment []))).
  vm_compute. reflexivity.
Defined.

(** X5. A raw location text made of a listed property-type prefix, a
    space, a city line and a country line gives the city, without its
    trailing commas, as location and the second line as country, provided
    the prefix does not occur again in the text and "Show on Map" does not
    occur in it. *)
Theorem location_split_into_city_and_country prefix city ctry el h lg :
  List.In prefix prefixes_to_remove ->
  city <> [] -> ctry <> [] ->
  strip city = city -> strip ctry = ctry ->
  ~ List.In NL city -> ~ List.In NL ctry ->
  contains prefix (SPACE :: city ++ NL :: ctry) = false ->
  contains (u "Show on Map") (city ++ NL :: ctry) = false ->
  hotel_property_type_location el = Some (prefix ++ SPACE :: city ++ NL :: ctry) ->
  exists h' lg',
    extract_location el h lg = (Ok h', lg')
    /\ location h' = rstrip_chars [COMMA] city /\ country h' = ctry
    /\ name h' = name h.
Proof.
  intros Hin Hc Hk Ec Ek Hnc Hnk Hp Hmap Hel.
  destruct (extract_location_of_lines prefix city ctry el h lg
              Hin Hc Hk Ec Ek Hnc Hnk Hp Hmap Hel) as (h' & lg' & E & Hl & Hct).
  exists h', lg'. repeat split; try assumption.
  now apply extract_location_fields in E as (Hn & _).
Qed.

Lemma location_split_into_city_and_country_witness :
  exists h' lg',
    extract_location rated_fragment (init_hotel_data (u "2025-05-09T10:00:00")) []
    = (Ok h', lg')
    /\ location h' = u "Faro" /\ country h' = u "Portugal"
    /\ name h' = [].
Proof.
  apply (location_split_into_city_and_country (u "Resort in") (u "Faro,")
           (u "Portugal") rated_fragment (init_hotel_data (u "2025-05-09T10:00:00")) []);
    try reflexivity; try discriminate.
  - unfold prefixes_to_remove. cbn. tauto.
  - vm_compute. intros H. repeat (destruct H as [H|H]; [discriminate H|]). exact H.
  - vm_compute. intros H. repeat (destruct H as [H|H]; [discriminate H|]). exact H.
Defined.

(** *** The price of the returned record *)









End ExtractorProperties.

(** ** More on the page walker and the country sweep *)

Module WalkerProperties.
Import Py Eff Scraper Spec ScraperNotions Examples MoreExamples PyFacts EffFacts LoopFacts
  ExtractorFacts ExtractorProperties WalkerFacts.
Local Open Scope eff_scope.

(** The extraction of one listing inside the walker: only the log moves,
    a record comes back exactly when the score is readable, and it carries
    the listed name and no page number yet. *)
Lemma extract_listing now el (w : world) :
  exists r lg,
    with_log (extract_hotel_data now el) w = (Ok r, set_log lg w)
    /\ match r with
       | Some h => score_readable el = true /\ name h = listed_name el
                   /\ source_country h = u "World"
       | None => score_readable el = false
       end.
Proof.
  unfold with_log.
  destruct (extract_hotel_data_never_raises now el (get_log w)) as (r & lg & E).
  rewrite E. exists r, lg. split; [reflexivity|].
  unfold score_readable, listed_name. destruct r as [h|].
  - pose proof (extract_hotel_data_some _ _ _ _ _ E) as (Hn & _ & Hs & _).
    split; [|now split].
    destruct (circle_rating el) as [t|] eqn:Ec; [|reflexivity].
    destruct (float_of_str (strip t)) eqn:Ef; [reflexivity|].
    destruct (unparsable_score_drops_record now el t (get_log w) Ec Ef) as (lg1 & E1).
    rewrite E1 in E. discriminate.
  - destruct (circle_rating el) as [t|] eqn:Ec.
    + destruct (float_of_str (strip t)) eqn:Ef; [|reflexivity].
      destruct (parsable_score_keeps_record now el (get_log w)) as (h & lg1 & E1).
      { intros t' Et. rewrite Ec in Et. injection Et as <-. now rewrite Ef. }
      rewrite E1 in E. discriminate.
    + destruct (parsable_score_keeps_record now el (get_log w)) as (h & lg1 & E1).
      { intros t' Et. rewrite Ec in Et. discriminate. }
      rewrite E1 in E. discriminate.
Qed.

Lemma set_log_twice lg lg' (w : world) : set_log lg (set_log lg' w) = set_log lg w.
Proof. reflexivity. Qed.

Lemma extract_page_from now page els : forall acc w,
  exists hs lg,
    fold_m els
      (fun page_hotels_data el =>
         log INFO "Processing hotel" ;;;
         r <- with_log (extract_hotel_data now el) ;;
         match r with
         | Some h =>
             log DEBUG "Successfully extracted data for hotel" ;;;
             ret (page_hotels_data ++ [set_page_number (Some page) h])
         | None =>
             log WARNING "Failed to extract data for hotel" ;;;
             ret page_hotels_data
         end) acc w
    = (Ok (acc ++ hs), set_log lg w)
    /\ Forall (fun h => page_number h = Some page) hs
    /\ map name hs = map listed_name (List.filter score_readable els).
Proof.
  induction els as [|el els IH]; intros acc w.
  - exists [], (w_log w). rewrite app_nil_r. split; [now destruct w|].
    split; [constructor|reflexivity].
  - cbn [fold_m]. unfold bind at 1. unfold bind at 1. cbn [log modify].
    unfold bind at 1.
    match goal with |- context [with_log _ ?w1] =>
      destruct (extract_listing now el w1) as (r & lg1 & -> & Hr) end.
    destruct r as [h|].
    + destruct Hr as (Hread & Hname & _).
      unfold bind at 1. cbn [log modify ret].
      match goal with |- context [fold_m els _ ?a ?w2] =>
        destruct (IH a w2) as (hs & lg & -> & Hp & Hn) end.
      exists (set_page_number (Some page) h :: hs), lg.
      rewrite <- app_assoc. split; [reflexivity|].
      split; [now constructor|].
      cbn [List.filter]. rewrite Hread. cbn [map]. now rewrite Hn, <- Hname.
    + unfold bind at 1. cbn [log modify ret].
      match goal with |- context [fold_m els _ ?a ?w2] =>
        destruct (IH a w2) as (hs & lg & -> & Hp & Hn) end.
      exists hs, lg. split; [reflexivity|]. split; [exact Hp|].
      cbn [List.filter]. now rewrite Hr.
Qed.

(** X6. The loop over the listings of a page never raises and changes
    nothing but the log; it returns one record for each listing whose
    score is readable, in the order of the page, each with the name the
    listing shows and with the number of the page. *)
Theorem page_records_follow_listings now els page w :
  exists hs lg,
    extract_page now els page w = (Ok hs, set_log lg w)
    /\ Forall (fun h => page_number h = Some page) hs
    /\ map name hs = map listed_name (List.filter score_readable els).
Proof. exact (extract_page_from now page els [] w). Qed.

(** *** File names *)

Lemma text_of_u s : text_of (u s) = s.
Proof.
  unfold text_of, u. rewrite map_map.
  rewrite (map_ext _ (fun a => a)) by apply ascii_N_embedding.
  rewrite map_id. apply string_of_list_ascii_of_string.
Qed.

Lemma str_of_nat_inj p q : str_of_nat p = str_of_nat q -> p = q.
Proof.
  unfold str_of_nat. intros E. apply (f_equal text_of) in E.
  rewrite !text_of_u in E.
  apply (f_equal NilEmpty.uint_of_string) in E. rewrite !NilEmpty.usu in E.
  injection E as E. apply (f_equal Nat.of_uint) in E.
  now rewrite !DecimalNat.Unsigned.of_to in E.
Qed.

Lemma checkpoint_file_inj p q : checkpoint_file p = checkpoint_file q -> p = q.
Proof.
  unfold checkpoint_file. intros E.
  apply app_inv_head in E. apply app_inv_tail in E. now apply str_of_nat_inj.
Qed.

(** A checkpoint writes to its two files only. *)
Lemma save_checkpoint_frame data page w path :
  path <> checkpoint_file page -> path <> main_file ->
  w_files (snd (save_checkpoint data page w)) !! path = w_files w !! path.
Proof.
  unfold save_checkpoint, write_json.
  generalize (checkpoint_file page) as f1. generalize main_file as f2.
  intros f2 f1 H1 H2.
  unfold try_except, on_Exception, bind, write_file, log, modify.
  destruct w as [lg rq fs fl ah cp tp]. cbn.
  destruct fl as [|[| |] [|[| |] rest]]; cbn;
    rewrite ?lookup_insert_ne by congruence; reflexivity.
Qed.

(** X7. Every page has a checkpoint file of its own, none of them the
    main file: the checkpoint of a page leaves the checkpoint files of all
    other pages as they were, whether its writes succeed or fail. *)
Theorem checkpoint_keeps_other_pages data page q w :
  q <> page ->
  checkpoint_file q <> checkpoint_file page
  /\ checkpoint_file q <> main_file
  /\ w_files (snd (save_checkpoint data page w)) !! checkpoint_file q
     = w_files w !! checkpoint_file q.
Proof.
  intros Hq.
  assert (H1 : checkpoint_file q <> checkpoint_file page).
  { intros E. apply Hq. now apply checkpoint_file_inj. }
  pose proof (main_file_not_checkpoint q) as H2.
  split; [exact H1|]. split; [exact H2|].
  now apply save_checkpoint_frame.
Qed.

Lemma checkpoint_keeps_other_pages_witness :
  checkpoint_file 1 <> checkpoint_file 2
  /\ checkpoint_file 1 <> main_file
  /\ w_files (snd (save_checkpoint [] 2 empty_world)) !! checkpoint_file 1
     = w_files empty_world !! checkpoint_file 1.
Proof. apply (checkpoint_keeps_other_pages [] 2 1 empty_world). lia. Defined.

(** X8. When the write of the page file fails, the checkpoint does not
    raise and logs the failure last; the main file is not written and
    keeps its earlier content, and the page file is as it was or, when the
    dump broke off, left incomplete. *)
Theorem failed_page_write_keeps_main_file data page w fault rest :
  w_faults w = fault :: rest -> fault <> WriteOk ->
  exists w',
    save_checkpoint data page w = (Ok tt, w')
    /\ w_files w' !! main_file = w_files w !! main_file
    /\ w_files w' !! checkpoint_file page
       = match fault with
         | FailsMidway => Some Partial
         | _ => w_files w !! checkpoint_file page
         end
    /\ w_log w' = w_log w ++ [Entry ERROR "Error saving checkpoint"]
    /\ w_faults w' = rest.
Proof.
  intros Hf Hne. pose proof (main_file_not_checkpoint page) as Hd.
  revert Hd. unfold save_checkpoint, write_json.
  generalize (checkpoint_file page) as f1. generalize main_file as f2.
  intros f2 f1 Hd.
  unfold try_except, on_Exception, bind, write_file, log, modify. rewrite Hf.
  destruct fault; [congruence| |]; cbn; eexists; (split; [reflexivity|]); cbn.
  - now repeat split.
  - rewrite lookup_insert_ne by congruence. rewrite lookup_insert_eq.
    now repeat split.
Qed.

Lemma failed_page_write_keeps_main_file_witness :
  exists w',
    save_checkpoint [] 1 (set_faults [FailsMidway] empty_world) = (Ok tt, w')
    /\ w_files w' !! main_file = None
    /\ w_files w' !! checkpoint_file 1 = Some Partial
    /\ w_log w' = [Entry ERROR "Error saving checkpoint"]
    /\ w_faults w' = [].
Proof.
  apply (failed_page_write_keeps_main_file [] 1 (set_faults [FailsMidway] empty_world)
           FailsMidway []); [reflexivity|discriminate].
Defined.

(** *** The country sweep *)

Lemma extract_country_page_from now c page els : forall acc w,
  exists hs lg,
    fold_m els
      (fun page_hotels el =>
         r <- with_log (extract_hotel_data now el) ;;
         match r with
         | Some h =>
             ret (page_hotels ++
                    [set_page_number (Some page) (set_source_country c h)])
         | None => ret page_hotels
         end) acc w
    = (Ok (acc ++ hs), set_log lg w)
    /\ Forall (fun h => source_country h = c /\ page_number h = Some page) hs.
Proof.
  induction els as [|el els IH]; intros acc w.
  - exists [], (w_log w). rewrite app_nil_r. split; [now destruct w|constructor].
  - cbn [fold_m]. unfold bind at 1. unfold bind at 1.
    destruct (extract_listing now el w) as (r & lg1 & -> & Hr).
    destruct r as [h|]; cbn [ret].
    + match goal with |- context [fold_m els _ ?a ?w2] =>
        destruct (IH a w2) as (hs & lg & -> & Hp) end.
      exists (set_page_number (Some page) (set_source_country c h) :: hs), lg.
      rewrite <- app_assoc. split; [reflexivity|]. now constructor.
    + match goal with |- context [fold_m els _ ?a ?w2] =>
        destruct (IH a w2) as (hs & lg & -> & Hp) end.
      exists hs, lg. now split.
Qed.

Lemma extract_country_page_spec now c els page w :
  exists hs lg,
    extract_country_page now c els page w = (Ok hs, set_log lg w)
    /\ Forall (fun h => source_country h = c /\ page_number h = Some page) hs.
Proof. exact (extract_country_page_from now c page els [] w). Qed.

Lemma save_to_json_returns data filename w :
  exists w', save_to_json data filename w = (Ok tt, w') /\ walk_same w w'.
Proof.
  assert (Hr : returns (save_to_json data filename)).
  { unfold save_to_json. apply returns_try_all, returns_log. }
  destruct (Hr w) as ([] & w' & E). exists w'. split; [exact E|].
  revert E. generalize w, (Ok tt : result unit), w'.
  change (preserves walk_same (save_to_json data filename)).
  unfold save_to_json, write_json.
  apply (preserves_try walk_same walk_same_trans).
  - apply (preserves_bind walk_same walk_same_trans);
      [apply walk_same_write_file | intros _; apply walk_same_log].
  - intros e h E. injection E as <-. apply walk_same_log.
Qed.

(** One page of the sweep of a country. *)
Lemma sweep_page_spec now c (st : site) page acc w :
  exists r w',
    (log INFO "Scraping page" ;;;
     visit c st page ;;;
     page_hotels <- extract_country_page now c (hotel_repeat (st page)) page ;;
     save_to_json page_hotels (country_checkpoint_file c page) ;;;
     ret (acc ++ page_hotels))%eff w = (r, w')
    /\ w_requests w' = w_requests w ++ [Visit c page]
    /\ (goto_ok (st page) = true -> exists hs,
          r = Ok (acc ++ hs)
          /\ Forall (fun h => source_country h = c /\ page_number h = Some page) hs)
    /\ (goto_ok (st page) = false -> r = Raise RequestError).
Proof.
  unfold bind at 1. cbn [log modify]. unfold visit.
  unfold bind at 1. unfold bind at 1. unfold send at 1, modify at 1.
  destruct (goto_ok (st page)).
  - cbn [ret]. unfold bind at 1.
    match goal with |- context [extract_country_page _ _ _ _ ?w1] =>
      destruct (extract_country_page_spec now c (hotel_repeat (st page)) page w1)
        as (hs & lg & -> & Hp) end.
    unfold bind at 1.
    match goal with |- context [save_to_json ?d ?f ?w2] =>
      destruct (save_to_json_returns d f w2) as (w3 & -> & Hs) end.
    eexists _, w3. split; [reflexivity|].
    split; [destruct Hs as (-> & _); reflexivity|].
    split; [|discriminate]. intros _. now exists hs.
  - cbn [raise]. eexists _, _. split; [reflexivity|].
    split; [reflexivity|]. split; [discriminate|reflexivity].
Qed.

(** The loop over the pages of a country. *)
Lemma sweep_pages_spec now c (st : site) pages : forall acc w,
  exists r w',
    fold_m pages
      (fun country_hotels page =>
         log INFO "Scraping page" ;;;
         visit c st page ;;;
         page_hotels <- extract_country_page now c (hotel_repeat (st page)) page ;;
         save_to_json page_hotels (country_checkpoint_file c page) ;;;
         ret (country_hotels ++ page_hotels))%eff acc w = (r, w')
    /\ (forall hs0, r = Ok hs0 -> exists hs,
          hs0 = acc ++ hs
          /\ Forall (fun h => source_country h = c
                              /\ exists p, page_number h = Some p /\ List.In p pages) hs)
    /\ ((forall p, List.In p pages -> goto_ok (st p) = true) ->
        (exists hs0, r = Ok hs0)
        /\ w_requests w' = w_requests w ++ map (Visit c) pages).
Proof.
  induction pages as [|page pages IH]; intros acc w.
  - exists (Ok acc), w. split; [reflexivity|]. split.
    + intros hs0 E. injection E as <-. exists []. now rewrite app_nil_r.
    + intros _. split; [now exists acc|]. cbn. now rewrite app_nil_r.
  - cbn [fold_m]. unfold bind at 1.
    destruct (sweep_page_spec now c st page acc w) as (r1 & w1 & -> & Hreq & Hok & Hbad).
    destruct (goto_ok (st page)) eqn:Eg.
    + destruct (Hok eq_refl) as (hs1 & -> & Hp1).
      destruct (IH (acc ++ hs1) w1) as (r & w' & -> & Hres & Hall).
      exists r, w'. split; [reflexivity|]. split.
      * intros hs0 E. destruct (Hres hs0 E) as (hs & -> & Hp).
        exists (hs1 ++ hs). rewrite app_assoc. split; [reflexivity|].
        apply Forall_app. split.
        -- eapply Forall_impl; [exact Hp1|]. intros h [Hc Hn]. split; [exact Hc|].
           exists page. split; [exact Hn|now left].
        -- eapply Forall_impl; [exact Hp|]. intros h (Hc & p & Hn & Hin).
           split; [exact Hc|]. exists p. split; [exact Hn|now right].
      * intros Hg. destruct Hall as [Hr Hq].
        { intros p Hin. apply Hg. now right. }
        split; [exact Hr|]. rewrite Hq, Hreq, <- app_assoc. reflexivity.
    + rewrite (Hbad eq_refl). eexists _, _. split; [reflexivity|]. split.
      * discriminate.
      * intros Hg. rewrite Hg in Eg by now left. discriminate.
Qed.

(** The sweep of one country. *)
Lemma scrape_country_spec now sites c w :
  let st := sites c in
  exists r w',
    scrape_country now sites c w = (r, w')
    /\ (forall hs, r = Ok hs ->
          Forall (fun h => source_country h = c
                           /\ exists p, page_number h = Some p /\ (1 <= p)%nat) hs)
    /\ ((forall p, (1 <= p <= Nat.max 1 (page_count (st 1%nat)))%nat ->
           goto_ok (st p) = true) ->
        (exists hs, r = Ok hs)
        /\ w_requests w' = w_requests w ++
             Visit c 1 :: map (Visit c) (seq 1 (page_count (st 1%nat)))).
Proof.
  intros st. unfold scrape_country. fold st.
  unfold bind at 1. cbn [log modify]. unfold visit at 1.
  unfold bind at 1. unfold bind at 1. unfold send at 1, modify at 1.
  destruct (goto_ok (st 1%nat)) eqn:Eg1.
  2:{ cbn [raise]. eexists _, _. split; [reflexivity|]. split; [discriminate|].
      intros Hg. rewrite Hg in Eg1 by lia. discriminate. }
  cbn [ret]. unfold bind at 1.
  match goal with |- context [get_total_pages _ ?w1] =>
    destruct (get_total_pages_spec (st 1%nat) w1) as (lg & ->) end.
  unfold bind at 1. cbn [log modify]. unfold bind at 1.
  match goal with |- context [fold_m ?l _ ?a ?w2] =>
    destruct (sweep_pages_spec now c st l a w2) as (r & w3 & -> & Hres & Hall) end.
  destruct r as [hs0|e].
  - destruct (Hres hs0 eq_refl) as (hs & -> & Hp).
    unfold bind at 1.
    match goal with |- context [save_to_json ?d ?f ?w2] =>
      destruct (save_to_json_returns d f w2) as (w4 & -> & Hs) end.
    cbn [ret]. eexists _, w4. split; [reflexivity|]. split.
    + intros hs' E. injection E as <-. cbn [app].
      eapply Forall_impl; [exact Hp|]. intros h (Hc & p & Hn & Hin).
      split; [exact Hc|]. exists p. split; [exact Hn|]. apply in_seq in Hin. lia.
    + intros Hg. destruct Hall as [_ Hq].
      { intros p Hin. apply in_seq in Hin. apply Hg. lia. }
      split; [now eexists|]. destruct Hs as (-> & _). rewrite Hq. cbn.
      now rewrite <- app_assoc.
  - eexists _, _. split; [reflexivity|]. split; [discriminate|].
    intros Hg. destruct Hall as [[hs0 Hr] _]; [|discriminate Hr].
    intros p Hin. apply in_seq in Hin. apply Hg. lia.
Qed.

Lemma returns_scrape_countries now sites countries :
  returns (scrape_countries now sites countries).
Proof.
  unfold scrape_countries. apply returns_bind.
  - apply returns_fold_m. intros acc c. apply returns_try_all.
    apply returns_bind; [apply returns_log|intros _; apply returns_ret].
  - intros hs. apply returns_bind; [|intros _; apply returns_ret].
    unfold save_to_json. apply returns_try_all, returns_log.
Qed.

(** X9. The sweep over a list of countries never raises, and every record
    it returns carries one of these countries as source country and a
    page number of at least 1. *)
Theorem sweep_records_carry_country_and_page now sites countries w :
  exists hs w',
    scrape_countries now sites countries w = (Ok hs, w')
    /\ Forall (fun h => List.In (source_country h) countries
                        /\ exists p, page_number h = Some p /\ (1 <= p)%nat) hs.
Proof.
  destruct (returns_scrape_countries now sites countries w) as (hs & w' & E).
  exists hs, w'. split; [exact E|].
  unfold scrape_countries in E. unfold bind at 1 in E.
  destruct (fold_m _ _ _ _) as [[hs0|e] w1] eqn:Ef; [|discriminate].
  unfold bind at 1 in E.
  destruct (save_to_json _ _ _) as [[[]|e] w2]; [|discriminate].
  injection E as <- _.
  refine (fold_m_inv_in
            (Forall (fun h => List.In (source_country h) countries
                              /\ exists p, page_number h = Some p /\ (1 <= p)%nat))
            _ _ _ _ _ _ _ _ Ef); [|constructor].
  intros acc c s acc' s' Hin Hacc Eb.
  unfold try_except, on_Exception in Eb. unfold bind at 1 in Eb.
  destruct (scrape_country_spec now sites c s) as (r & s1 & Er & Hres & _).
  rewrite Er in Eb. destruct r as [ch|e].
  - injection Eb as <- _. apply Forall_app. split; [exact Hacc|].
    eapply Forall_impl; [exact (Hres ch eq_refl)|].
    intros h (Hc & Hp). split; [now rewrite Hc|exact Hp].
  - cbn in Eb. injection Eb as <- _. exact Hacc.
Qed.

(** X10. In the sweep of a country whose pages all load, the first page
    is fetched twice, once to read the page count and once as page 1 of
    the loop, and then every page up to the count, in order; the controls
    of the pages are never clicked. *)
Theorem sweep_fetches_first_page_twice now sites c w :
  (forall p, (1 <= p <= Nat.max 1 (page_count (sites c 1%nat)))%nat ->
     goto_ok (sites c p) = true) ->
  exists hs w',
    scrape_country now sites c w = (Ok hs, w')
    /\ w_requests w' = w_requests w ++
         Visit c 1 :: map (Visit c) (seq 1 (page_count (sites c 1%nat))).
Proof.
  intros Hg.
  destruct (scrape_country_spec now sites c w) as (r & w' & E & _ & Hall).
  destruct (Hall Hg) as [[hs ->] Hq]. now exists hs, w'.
Qed.

Lemma sweep_fetches_first_page_twice_witness :
  exists hs w',
    scrape_country (u "now") (fun _ => two_page_site) (u "Portugal") empty_world
    = (Ok hs, w')
    /\ w_requests w'
       = [Visit (u "Portugal") 1; Visit (u "Portugal") 1; Visit (u "Portugal") 2].
Proof.
  apply (sweep_fetches_first_page_twice (u "now") (fun _ => two_page_site)
           (u "Portugal") empty_world).
  intros p Hp. change (Nat.max 1 (page_count (two_page_site 1%nat))) with 2%nat in Hp.
  assert (p = 1 \/ p = 2)%nat as [-> | ->] by lia; reflexivity.
Defined.

(** *** The total a first page announces *)

Lemma decimal_number_digits s : forall acc,
  forallb isdigit s = true ->
  decimal_number acc s
  = Some (Z.to_nat (fold_left (fun a c => 10 * a + (Z.of_N c - 48))%Z s
                      (Z.of_nat acc))).
Proof.
  induction s as [|c t IH]; intros acc Hd; cbn [decimal_number fold_left].
  - now rewrite Nat2Z.id.
  - cbn [forallb] in Hd. apply andb_true_iff in Hd as [Hc Ht].
    unfold decimal_digit. unfold isdigit in Hc. rewrite Hc.
    rewrite (IH _ Ht). do 2 f_equal. f_equal.
    apply andb_true_iff in Hc as [H1 H2]. apply N.leb_le in H1, H2. lia.
Qed.

Lemma decimal_number_other s : forall acc,
  forallb isdigit s = false -> decimal_number acc s = None.
Proof.
  induction s as [|c t IH]; intros acc Hd; [discriminate|].
  cbn [forallb] in Hd. cbn [decimal_number]. unfold decimal_digit.
  unfold isdigit in Hd at 1.
  destruct ((48 <=? c) && (c <=? 57)); [|reflexivity].
  now apply IH.
Qed.

(** The titles the code counts are the numeric indicators, with the same
    values. *)
Lemma indicator_value_spec title :
  indicator_value title
  = if is_digit_title title
    then option_map Z.to_nat (int_of_str (default [] title))
    else None.
Proof.
  destruct title as [[|c t]|]; try reflexivity.
  unfold indicator_value, is_digit_title.
  destruct (forallb isdigit (c :: t)) eqn:Hd.
  - rewrite (decimal_number_digits _ _ Hd).
    change (default [] (Some (c :: t))) with (c :: t).
    rewrite (int_of_digits (c :: t)) by (try discriminate; exact Hd).
    reflexivity.
  - now apply decimal_number_other.
Qed.

Lemma page_numbers_spec links :
  page_numbers links
  = Some (flat_map (fun title => match indicator_value title with
                                 | Some n => [n]
                                 | None => []
                                 end) links).
Proof.
  induction links as [|title rest IH]; [reflexivity|].
  cbn [page_numbers flat_map]. rewrite indicator_value_spec, IH.
  destruct (is_digit_title title) eqn:Hd; [|reflexivity].
  destruct title as [[|c t]|]; try discriminate. cbn [is_digit_title] in Hd.
  change (default [] (Some (c :: t))) with (c :: t).
  rewrite (int_of_digits (c :: t)) by (try discriminate; exact Hd).
  reflexivity.
Qed.

(** What [get_total_pages] returns is the total the titles announce. *)
Lemma page_count_announced p :
  page_count p = announced_total (page_links p).
Proof.
  unfold page_count, announced_total. rewrite page_numbers_spec.
  destruct (page_links p) as [|title rest]; [reflexivity|].
  now destruct (flat_map _ (title :: rest)).
Qed.

(** The requests of a walk over a site whose pages all load and lead to
    the next one. *)
Lemma walk_requests_healthy st T fuel : forall cp tp,
  (1 <= cp <= Nat.max 1 T)%nat ->
  (cp = 1%nat -> page_count (st 1%nat) = T) ->
  (cp <> 1%nat -> tp = T) ->
  (Nat.max 1 T + 1 <= fuel + cp)%nat ->
  healthy st (Nat.max 1 T) ->
  walk_requests st fuel cp tp
  = Goto cp :: flat_map (fun i => [ClickNext i; Goto i])
                 (seq (cp + 1) (Nat.max 1 T - cp)).
Proof.
  induction fuel as [|fuel IH]; intros cp tp Hcp H1 Hn1 Hfuel Hhe; [lia|].
  destruct (Hhe cp Hcp) as (Hg & Hl & Hnav).
  assert (HT : total_after st cp tp = T).
  { unfold total_after. rewrite Hg, andb_true_r.
    destruct (Nat.eqb_spec cp 1) as [->|Hne]; auto. }
  cbn [walk_requests]. unfold body_requests, body_outcome.
  rewrite Hg, Hl, HT. cbn [negb andb].
  destruct (T <=? cp)%nat eqn:Hle.
  - apply Nat.leb_le in Hle. cbn [negb app].
    replace (Nat.max 1 T - cp)%nat with 0%nat by lia. reflexivity.
  - apply Nat.leb_gt in Hle. cbn [negb].
    rewrite Hnav by lia. cbn [app].
    rewrite (IH (cp + 1)%nat T) by (try lia; try assumption).
    replace (Nat.max 1 T - cp)%nat with (S (Nat.max 1 T - (cp + 1)))%nat by lia.
    cbn [seq flat_map app].
    now replace (S (cp + 1)) with (cp + 1 + 1)%nat by lia.
Qed.

(** C7, as amended. With [N] the largest numeric page indicator among the
    (ASCII) titles of the controls of the first page, 1 when none is
    numeric, the walker asks for the pages 1, ..., k in order for some k
    between 1 and max(N, 1) and clicks no control beyond N: it never goes
    past the total, and the walk ends.  When every page up to max(N, 1)
    loads, shows its listings and leads to the next, the requests are
    exactly those of the pages 1 to max(N, 1): each page asked for once,
    each page after the first reached by a click, and nothing after the
    last. *)
Theorem walker_stays_within_total fuel now st w :
  ascii_titles (page_links (st 1%nat)) ->
  (Nat.max 1 (announced_total (page_links (st 1%nat))) <= fuel)%nat ->
  exists r w' new k,
    scrape_hotels fuel now st w = (r, w')
    /\ r <> Ok None
    /\ w_requests w' = w_requests w ++ new
    /\ visited new = seq 1 k
    /\ (1 <= k <= Nat.max 1 (announced_total (page_links (st 1%nat))))%nat
    /\ Forall (fun n => (n <= announced_total (page_links (st 1%nat)))%nat)
         (clicked new)
    /\ (healthy st (Nat.max 1 (announced_total (page_links (st 1%nat)))) ->
        k = Nat.max 1 (announced_total (page_links (st 1%nat)))
        /\ new = full_walk (Nat.max 1 (announced_total (page_links (st 1%nat))))).
Proof.
  intros _ Hfuel.
  pose proof (page_count_announced (st 1%nat)) as HN.
  set (N := announced_total (page_links (st 1%nat))) in *.
  destruct (scrape_hotels_requests fuel now st w) as (r & w' & Hrun & Hreq & Hend).
  destruct (walk_requests_shape st N fuel 1 (total_pages w))
    as (k & Hv & Hk1 & Hk2 & Hc & Hh & He); try lia; try tauto.
  exists r, w', (walk_requests st fuel 1 (total_pages w)), k.
  split; [exact Hrun|]. split; [apply Hend, He; lia|].
  split; [exact Hreq|]. split; [exact Hv|]. split; [lia|]. split; [exact Hc|].
  intros Hhe. split.
  - specialize (Hh ltac:(lia) Hhe). lia.
  - rewrite (walk_requests_healthy st N fuel 1 (total_pages w) ltac:(lia)
               ltac:(tauto) ltac:(tauto) ltac:(lia) Hhe).
    reflexivity.
Qed.

Lemma walker_stays_within_total_witness :
  announced_total (page_links (three_page_site 1%nat)) = 3%nat
  /\ exists r w',
       scrape_hotels 3 (u "now") three_page_site empty_world = (r, w')
       /\ r <> Ok None
       /\ w_requests w' = [Goto 1; ClickNext 2; Goto 2; ClickNext 3; Goto 3]
       /\ visited (w_requests w') = [1; 2; 3]%nat.
Proof.
  split; [reflexivity|].
  assert (Hascii : ascii_titles (page_links (three_page_site 1%nat)))
    by (repeat constructor).
  assert (Hfuel : (Nat.max 1 (announced_total (page_links (three_page_site 1%nat)))
                   <= 3)%nat) by (vm_compute; lia).
  assert (Hhealthy : healthy three_page_site
                       (Nat.max 1 (announced_total (page_links (three_page_site 1%nat))))).
  { intros i Hi. change (Nat.max 1 _) with 3%nat in Hi.
    assert (i = 1 \/ i = 2 \/ i = 3)%nat as [-> | [-> | ->]] by lia;
      (split; [reflexivity|]); (split; [reflexivity|]);
      intros Hlt; try reflexivity; vm_compute in Hlt; lia. }
  destruct (walker_stays_within_total 3 (u "now") three_page_site empty_world
              Hascii Hfuel)
    as (r & w' & new & k & Hrun & Hr & Hreq & _ & _ & _ & Hh).
  destruct (Hh Hhealthy) as [_ Hnew].
  exists r, w'. split; [exact Hrun|]. split; [exact Hr|].
  rewrite Hreq, Hnew. split; reflexivity.
Defined.

(** C7 fails as stated: the first page announces three pages, but the
    navigation to page 2 fails and pages 2 and 3 are never asked for. *)
Lemma stalled_walk_stops_early :
  announced_total (page_links (stalled_site 1%nat)) = 3%nat
  /\ ascii_titles (page_links (stalled_site 1%nat))
  /\ w_requests (snd (scrape_hotels 3 (u "now") stalled_site empty_world))
     = [Goto 1; ClickNext 2]
  /\ visited (w_requests (snd (scrape_hotels 3 (u "now") stalled_site empty_world)))
     <> seq 1 3.
Proof.
  split; [reflexivity|]. split; [repeat constructor|].
  split; [vm_compute; reflexivity|vm_compute; discriminate].
Qed.

End WalkerProperties.

(** ** More on the consolidator *)

Module ConsolidatorProperties.
Import Py Eff Scraper Json Store Consolidator Spec ScraperNotions StoreNotions Examples
  PyFacts EffFacts LoopFacts ConsolidatorFacts GeocoderFacts.
Local Open Scope eff_scope.

(** *** Computations that leave the state alone *)

Lemma stateless_subscript {S} v k : stateless (subscript (S := S) v k).
Proof. intros s r s'. apply subscript_state. Qed.

Lemma stateless_get_or {S} v k d : stateless (get_or (S := S) v k d).
Proof. intros s r s'. apply get_or_state. Qed.

Lemma stateless_bind_param {S} v : stateless (bind_param (S := S) v).
Proof.
  intros s r s'. unfold bind_param.
  destruct v as [| |z|[]| | |]; try (intros E; now injection E).
  destruct (_ && _); intros E; now injection E.
Qed.

Lemma stateless_has_key {S} v k : stateless (has_key (S := S) v k).
Proof. intros s r s'. unfold has_key. destruct v; intros E; now injection E. Qed.

Lemma stateless_items_of {S} v : stateless (items_of (S := S) v).
Proof. intros s r s'. unfold items_of. destruct v; intros E; now injection E. Qed.

Lemma stateless_iterate {S} v : stateless (iterate (S := S) v).
Proof. intros s r s'. unfold iterate. destruct v; intros E; now injection E. Qed.

Section Frame.
Context (R : disk -> disk -> Prop).
Hypothesis R_refl : forall s, R s s.
Hypothesis R_trans : forall a b c, R a b -> R b c -> R a c.

Lemma preserves_stateless {A} (m : M disk A) : stateless m -> preserves R m.
Proof. intros Hm s r s' E. rewrite (Hm s r s' E). apply R_refl. Qed.
End Frame.

(** *** The keys of the hotels table *)

Lemma keys_kept_refl s : keys_kept s s.
Proof. now intros H. Qed.

Lemma keys_kept_trans a b c : keys_kept a b -> keys_kept b c -> keys_kept a c.
Proof. unfold keys_kept. tauto. Qed.

Lemma keys_kept_same_rows s s' :
  hotel_rows (db_file s') = hotel_rows (db_file s) -> keys_kept s s'.
Proof. unfold keys_kept, keys_hold. now intros ->. Qed.

Ltac kk_step :=
  first [ apply (preserves_ret keys_kept keys_kept_refl)
        | apply (preserves_raise keys_kept keys_kept_refl)
        | apply (preserves_get keys_kept keys_kept_refl)
        | apply (preserves_stateless keys_kept keys_kept_refl);
            first [ apply stateless_subscript | apply stateless_get_or
                  | apply stateless_bind_param | apply stateless_has_key
                  | apply stateless_items_of | apply stateless_iterate ]
        | apply (preserves_modify keys_kept); intros ?;
            apply keys_kept_same_rows; reflexivity
        | apply (preserves_bind keys_kept keys_kept_trans); [|intros ?] ].

Lemma keys_kept_log l m : preserves keys_kept (log (S := disk) l m).
Proof. unfold log. kk_step. Qed.

Lemma keys_kept_connect : preserves keys_kept connect.
Proof.
  unfold connect. apply (preserves_modify keys_kept). intros s.
  apply keys_kept_same_rows.
  destruct (db_file s) eqn:E; [now rewrite E | reflexivity].
Qed.

Lemma sql_eq_sym a b : sql_eq a b = sql_eq b a.
Proof.
  unfold sql_eq. destruct (is_null a), (is_null b); cbn; try reflexivity.
  destruct (decide (a = b)) as [->|Hn]; [reflexivity|].
  rewrite !bool_decide_eq_false_2; congruence.
Qed.

Lemma no_conflicts_filter p rs :
  no_conflicts rs = true -> no_conflicts (List.filter p rs) = true.
Proof.
  induction rs as [|r t IH]; [reflexivity|]. cbn [no_conflicts List.filter].
  intros [Hr Ht]%andb_true_iff. destruct (p r); [|now apply IH].
  cbn [no_conflicts]. rewrite (IH Ht), andb_true_r.
  rewrite forallb_forall in *. intros x Hx. apply Hr.
  now apply List.filter_In in Hx as [Hx _].
Qed.

Lemma no_conflicts_snoc rs r :
  no_conflicts (rs ++ [r])
  = no_conflicts rs && forallb (fun r' => negb (rows_conflict r' r)) rs.
Proof.
  induction rs as [|x t IH]; [reflexivity|]. cbn [no_conflicts app forallb].
  rewrite IH, forallb_app. cbn [forallb]. rewrite andb_true_r.
  destruct (forallb _ t), (negb (rows_conflict x r)), (no_conflicts t);
    cbn; try reflexivity; now rewrite ?andb_false_r.
Qed.

Lemma le_fold_max b l x : List.In x l -> (x <= fold_right Z.max b l)%Z.
Proof.
  induction l as [|y t IH]; [contradiction|]. cbn [fold_right].
  intros [<- | Hin]; [lia|]. specialize (IH Hin). lia.
Qed.

Lemma next_id_fresh {R} (id_of : R -> Z) (t : table R) r :
  List.In r (rows t) -> (id_of r < next_id id_of t)%Z.
Proof.
  intros Hin. unfold next_id.
  pose proof (le_fold_max (seq t) (map id_of (rows t)) (id_of r)
                (in_map id_of _ _ Hin)). lia.
Qed.

Lemma NoDup_map_filter {A B} (f : A -> B) p l :
  NoDup (map f l) -> NoDup (map f (List.filter p l)).
Proof.
  induction l as [|x t IH]; [trivial|]. cbn [map List.filter].
  intros H. apply NoDup_cons in H as [Hx Ht]. destruct (p x); [|now apply IH].
  cbn [map]. apply NoDup_cons. split; [|now apply IH].
  intros Hin. apply Hx. apply list_elem_of_In in Hin. apply list_elem_of_In.
  apply in_map_iff in Hin as (y & <- & Hy). apply in_map.
  now apply List.filter_In in Hy as [Hy _].
Qed.

(** [INSERT OR REPLACE] keeps both keys of the hotels table. *)
Lemma keys_kept_insert_hotel n l c sc sr rs rt pn ts :
  preserves keys_kept (insert_hotel n l c sc sr rs rt pn ts).
Proof.
  intros s r s' E. unfold insert_hotel, bind, get in E.
  destruct (hotels (the_db s)) as [t|] eqn:Ht.
  2:{ injection E as _ <-. apply keys_kept_refl. }
  destruct (is_null n).
  { injection E as _ <-. apply keys_kept_refl. }
  injection E as _ <-. intros [Hid Hun].
  unfold the_db in Ht. destruct (db_file s) as [d|] eqn:Hd; cbn in Ht; [|discriminate].
  cbn in Hid, Hun. rewrite Ht in Hid, Hun.
  unfold keys_hold. cbn.
  split.
  - rewrite map_app. cbn [map h_id]. apply NoDup_app. split; [|split].
    + now apply NoDup_map_filter.
    + intros x Hx Hx'. apply list_elem_of_singleton in Hx'. subst x.
      apply list_elem_of_In, in_map_iff in Hx as (y & Hy & Hin).
      apply List.filter_In in Hin as [Hin _].
      pose proof (next_id_fresh h_id t y Hin). lia.
    + apply NoDup_singleton.
  - rewrite no_conflicts_snoc, (no_conflicts_filter _ _ Hun). cbn [andb].
    apply forallb_forall. intros y Hy. apply List.filter_In in Hy as [_ Hy].
    unfold rows_conflict, hotel_conflict. cbn.
    unfold hotel_conflict in Hy.
    now rewrite (sql_eq_sym (h_name y)), (sql_eq_sym (h_location y)),
      (sql_eq_sym (h_scrape_timestamp y)).
Qed.

Lemma keys_kept_insert_price id a c p r cp :
  preserves keys_kept (insert_price id a c p r cp).
Proof.
  unfold insert_price. kk_step; [kk_step|].
  destruct (prices (the_db a0)); [|kk_step].
  kk_step; [|kk_step]. unfold update_db. apply (preserves_modify keys_kept).
  intros s. apply keys_kept_same_rows. cbn. unfold the_db.
  now destruct (db_file s).
Qed.

Lemma keys_kept_insert_facility id v1 v2 v3 v4 v5 v6 v7 v8 v9 v10 v11 :
  preserves keys_kept (insert_facility id v1 v2 v3 v4 v5 v6 v7 v8 v9 v10 v11).
Proof.
  unfold insert_facility. kk_step; [kk_step|].
  destruct (Store.tennis_facilities (the_db a)); [|kk_step].
  kk_step; [|kk_step]. unfold update_db. apply (preserves_modify keys_kept).
  intros s. apply keys_kept_same_rows. cbn. unfold the_db.
  now destruct (db_file s).
Qed.

Lemma keys_kept_insert_surface id sf ct :
  preserves keys_kept (insert_surface id sf ct).
Proof.
  unfold insert_surface. kk_step; [kk_step|].
  destruct (Store.court_surfaces (the_db a)); [|kk_step].
  kk_step; [|kk_step]. unfold update_db. apply (preserves_modify keys_kept).
  intros s. apply keys_kept_same_rows. cbn. unfold the_db.
  now destruct (db_file s).
Qed.

Lemma keys_kept_insert_basic_info now hd :
  preserves keys_kept (insert_basic_info now hd).
Proof.
  unfold insert_basic_info, get_key. do 18 (kk_step; [kk_step|]).
  apply keys_kept_insert_hotel.
Qed.

Lemma keys_kept_insert_price_info id hd :
  preserves keys_kept (insert_price_info id hd).
Proof.
  unfold insert_price_info, get_key. kk_step; [kk_step|].
  destruct (truthy a); [|kk_step].
  do 11 (kk_step; [kk_step|]).
  kk_step; [apply keys_kept_insert_price|kk_step].
Qed.

Lemma keys_kept_insert_surfaces id t :
  preserves keys_kept (insert_surfaces id t).
Proof.
  unfold insert_surfaces. kk_step; [kk_step|]. destruct a; [|kk_step].
  do 2 (kk_step; [kk_step|]).
  apply (preserves_for_each keys_kept keys_kept_refl keys_kept_trans). intros item.
  kk_step; [kk_step|]. kk_step; [apply keys_kept_insert_surface|kk_step].
Qed.

Lemma keys_kept_insert_tennis_facilities id hd :
  preserves keys_kept (insert_tennis_facilities id hd).
Proof.
  unfold insert_tennis_facilities, get_key. kk_step; [kk_step|].
  destruct (truthy a); [|kk_step].
  do 23 (kk_step; [kk_step|]).
  kk_step; [apply keys_kept_insert_facility|apply keys_kept_insert_surfaces].
Qed.

(** The three inserts of one record, as far as they get. *)
Lemma keys_kept_record_body now hd : preserves keys_kept (record_body now hd).
Proof.
  unfold record_body.
  kk_step; [apply keys_kept_insert_basic_info|].
  kk_step; [apply keys_kept_insert_price_info|].
  kk_step; [apply keys_kept_insert_tennis_facilities|kk_step].
Qed.

Lemma record_body_true now hd s b s' : record_body now hd s = (Ok b, s') -> b = true.
Proof.
  unfold record_body, bind. intros E.
  repeat match type of E with
         | context [match ?x with _ => _ end] =>
             destruct x as [[?|?] ?]; try discriminate
         end.
  now injection E as <- _.
Qed.

(** What [insert_hotel_data] comes to: the three inserts when they all go
    through, the state of the open connection otherwise. *)
Lemma insert_hotel_data_cases now hd s :
  match record_body now hd (snd (connect s)) with
  | (Ok b, s1) => insert_hotel_data now hd s = (Ok true, s1)
  | (Raise e, s1) =>
      exists r s', insert_hotel_data now hd s = (r, s')
        /\ db_file s' = db_file (snd (connect s))
        /\ match hd with
           | JDict items =>
               match assoc (u "name") items with
               | Some _ => r = Ok false
               | None => r = Raise KeyError
               end
           | _ => r = Raise TypeError
           end
  end.
Proof.
  assert (E : insert_hotel_data now hd s
              = try_except
                  (try_except (record_body now hd)
                     (on_Exception
                        (subscript hd "name" ;;;
                         log ERROR "Error inserting hotel" ;;;
                         rollback (snd (connect s)) ;;;
                         ret false)))
                  (fun e => Some (rollback (snd (connect s)) ;;; raise e))
                  (snd (connect s))) by reflexivity.
  rewrite E. clear E. generalize (snd (connect s)) as s0. intros s0.
  destruct (record_body now hd s0) as [[b|e] s1] eqn:Eb.
  - unfold try_except. rewrite Eb. now rewrite (record_body_true _ _ _ _ _ Eb).
  - unfold try_except. rewrite Eb. unfold on_Exception, bind, subscript.
    destruct hd as [| | | | | |items];
      try (eexists _, _; split; [reflexivity|]; now split).
    destruct (assoc (u "name") items) as [v|];
      eexists _, _; (split; [reflexivity|]); now split.
Qed.

Lemma keys_kept_insert_hotel_data now hd :
  preserves keys_kept (insert_hotel_data now hd).
Proof.
  intros s r s' E.
  pose proof (insert_hotel_data_cases now hd s) as H.
  assert (Hc : keys_kept s (snd (connect s))).
  { eapply keys_kept_connect. apply surjective_pairing. }
  destruct (record_body now hd (snd (connect s))) as [[b|e] s1] eqn:Eb.
  - rewrite H in E. injection E as _ <-.
    eapply keys_kept_trans; [exact Hc|].
    exact (keys_kept_record_body now hd _ _ _ Eb).
  - destruct H as (r0 & s0 & H & Hdb & _). rewrite H in E. injection E as _ <-.
    eapply keys_kept_trans; [exact Hc|]. apply keys_kept_same_rows. now rewrite Hdb.
Qed.

Lemma keys_kept_process_json_file now content :
  preserves keys_kept (process_json_file now content).
Proof.
  unfold process_json_file. apply (preserves_try keys_kept keys_kept_trans).
  - destruct content as [hotels|]; [|kk_step].
    kk_step; [kk_step|]. kk_step.
    + apply (preserves_fold_m keys_kept keys_kept_refl keys_kept_trans).
      intros n hd. kk_step; [apply keys_kept_insert_hotel_data|kk_step].
    + kk_step; [apply keys_kept_log|kk_step].
  - intros e h E. injection E as <-. kk_step; [apply keys_kept_log|kk_step].
Qed.

(** X11. Loading keeps the two keys of the hotels table: when no two
    stored hotels share an id or collide on (name, location, timestamp)
    before [consolidate_all_files], none do after it, whatever the files
    hold and however the loading ends. *)
Theorem consolidation_keeps_hotel_keys now listing s r s' :
  keys_hold (db_file s) ->
  consolidate_all_files now listing s = (r, s') ->
  keys_hold (db_file s').
Proof.
  intros Hk E. revert Hk. change (keys_kept s s').
  revert s r s' E. change (preserves keys_kept (consolidate_all_files now listing)).
  unfold consolidate_all_files. kk_step.
  - apply (preserves_fold_m keys_kept keys_kept_refl keys_kept_trans).
    intros n f. destruct (negb _); [|kk_step].
    kk_step; [apply keys_kept_log|].
    kk_step; [apply keys_kept_process_json_file|kk_step].
  - kk_step; [apply keys_kept_log|kk_step].
Qed.

Lemma consolidation_keeps_hotel_keys_witness :
  let run := consolidate_all_files (u "now")
               [ (u "tennis_hotels.json", Some one_hotel_file);
                 (u "tennis_hotels_world.json", Some one_hotel_file) ] fresh_disk in
  fst run = Ok 2%nat
  /\ row_count (hotels (the_db (snd run))) = 1%nat
  /\ keys_hold (db_file (snd run)).
Proof.
  split; [vm_compute; reflexivity|]. split; [vm_compute; reflexivity|].
  apply (consolidation_keeps_hotel_keys (u "now")
           [ (u "tennis_hotels.json", Some one_hotel_file);
             (u "tennis_hotels_world.json", Some one_hotel_file) ] fresh_disk
           (fst (consolidate_all_files (u "now")
                   [ (u "tennis_hotels.json", Some one_hotel_file);
                     (u "tennis_hotels_world.json", Some one_hotel_file) ] fresh_disk))).
  - split; [constructor|reflexivity].
  - apply surjective_pairing.
Defined.

(** X12. A record that is a dict with the key "name" never makes
    [insert_hotel_data] raise: it answers [True] or [False], and on
    [False] the database is as the opened connection found it, with
    nothing of the record left in any table. *)
Theorem named_record_never_raises now items v s :
  assoc (u "name") items = Some v ->
  exists b s',
    insert_hotel_data now (JDict items) s = (Ok b, s')
    /\ (b = false -> db_file s' = db_file (snd (connect s))).
Proof.
  intros Hname.
  pose proof (insert_hotel_data_cases now (JDict items) s) as H.
  destruct (record_body now (JDict items) (snd (connect s))) as [[b|e] s1].
  - exists true, s1. split; [exact H|discriminate].
  - destruct H as (r & s' & H & Hdb & Hr). rewrite Hname in Hr. subst r.
    exists false, s'. now split.
Qed.

Lemma named_record_never_raises_witness :
  exists b s',
    insert_hotel_data (u "now")
      (JDict [ (u "name", JStr (u "Hotel A")); (u "price", JStr (u "cheap")) ])
      fresh_disk = (Ok b, s')
    /\ (b = false -> db_file s' = db_file (snd (connect fresh_disk))).
Proof.
  apply (named_record_never_raises (u "now")
           [ (u "name", JStr (u "Hotel A")); (u "price", JStr (u "cheap")) ]
           (JStr (u "Hotel A")) fresh_disk).
  reflexivity.
Defined.

(** *** The files that are loaded *)

Lemma contains_app needle pre post : contains needle (pre ++ needle ++ post) = true.
Proof.
  induction pre as [|c pre IH]; cbn [app].
  - destruct needle as [|a n]; [now destruct post|].
    cbn [contains app]. change (a :: n ++ post) with ((a :: n) ++ post).
    now rewrite startswith_app.
  - cbn [contains]. rewrite IH. apply orb_true_r.
Qed.

Lemma checkpoint_file_skipped page :
  contains (u "checkpoint") (checkpoint_file page) = true.
Proof.
  unfold checkpoint_file.
  change (u "tennis_hotels_checkpoint_page_")
    with (u "tennis_hotels_" ++ u "checkpoint" ++ u "_page_").
  rewrite <- !app_assoc. apply contains_app.
Qed.

Lemma country_checkpoint_file_skipped c page :
  contains (u "checkpoint") (country_checkpoint_file c page) = true.
Proof.
  unfold country_checkpoint_file.
  change (u "_checkpoint_page_") with (u "_" ++ u "checkpoint" ++ u "_page_").
  rewrite <- !app_assoc.
  rewrite (app_assoc (u "tennis_hotels_")), (app_assoc _ (u "_")).
  apply contains_app.
Qed.

Lemma filter_comm {A} (p q : A -> bool) l :
  List.filter p (List.filter q l) = List.filter q (List.filter p l).
Proof.
  induction l as [|x t IH]; [reflexivity|]. cbn [List.filter].
  destruct (p x) eqn:Ep, (q x) eqn:Eq; cbn [List.filter];
    rewrite ?Ep, ?Eq, IH; reflexivity.
Qed.

Lemma fold_m_skip {S A B} (skip : A -> bool) (body : B -> A -> M S B) l :
  (forall b x s, skip x = true -> body b x s = (Ok b, s)) ->
  forall b s,
    fold_m l body b s = fold_m (List.filter (fun x => negb (skip x)) l) body b s.
Proof.
  intros Hskip. induction l as [|x t IH]; intros b s; [reflexivity|].
  cbn [fold_m List.filter]. destruct (skip x) eqn:Ex; cbn [negb].
  - unfold bind. rewrite (Hskip b x s Ex). apply IH.
  - cbn [fold_m]. unfold bind. destruct (body b x s) as [[b'|e] s1];
      [apply IH|reflexivity].
Qed.

(** X13. [consolidate_all_files] loads the directory as if the files whose
    name holds "checkpoint" were not there; the page files of the walker
    and of the country sweep are all among them, whatever the page and the
    country. *)
Theorem checkpoint_files_are_not_loaded now :
  (forall listing s,
      consolidate_all_files now listing s
      = consolidate_all_files now
          (List.filter (fun f => negb (is_skipped f)) listing) s)
  /\ (forall page content, is_skipped (checkpoint_file page, content) = true)
  /\ (forall c page content,
         is_skipped (country_checkpoint_file c page, content) = true).
Proof.
  split; [|split].
  - intros listing s. unfold consolidate_all_files. cbv zeta.
    rewrite filter_comm. unfold bind at 1 3.
    rewrite (fold_m_skip is_skipped); [reflexivity|].
    intros b x s0 Hx. unfold is_skipped in Hx. now rewrite Hx.
  - intros page content. apply checkpoint_file_skipped.
  - intros c page content. apply country_checkpoint_file_skipped.
Qed.

Lemma load_loop_count now hotels : forall n s r s',
  fold_m hotels
    (fun successful_inserts hotel =>
       ok <- insert_hotel_data now hotel ;;
       ret (if ok then S successful_inserts else successful_inserts)) n s
  = (Ok r, s') ->
  (r <= n + length hotels)%nat.
Proof.
  induction hotels as [|h hotels IH]; intros n s r s' E.
  - injection E as <- _. cbn. lia.
  - cbn [fold_m] in E. unfold bind at 1 in E. unfold bind at 1 in E.
    destruct (insert_hotel_data now h s) as [[ok|e] s1]; [|discriminate].
    cbn [ret] in E. apply IH in E. cbn [length]. destruct ok; lia.
Qed.

(** X14. [process_json_file] never raises; its count is at most the
    number of elements the file holds, and for a file that cannot be read
    it is 0 and the database is left as it was. *)
Theorem file_load_never_raises now content s :
  exists n s',
    process_json_file now content s = (Ok n, s')
    /\ (n <= record_count content)%nat
    /\ (content = None -> n = 0%nat /\ db_file s' = db_file s).
Proof.
  unfold process_json_file, try_except, on_Exception.
  destruct content as [hotels|].
  2:{ cbn. eexists _, _. split; [reflexivity|]. split; [lia|]. now split. }
  unfold bind at 1.
  destruct (iterate hotels s) as [[l|e] s1] eqn:Ei.
  2:{ cbn. eexists _, _. split; [reflexivity|]. split; [lia|discriminate]. }
  assert (Hl : length l = record_count (Some hotels) /\ s1 = s).
  { unfold iterate in Ei. destruct hotels; try discriminate;
      injection Ei as <- <-; cbn; now rewrite ?length_map. }
  destruct Hl as [Hl ->]. unfold bind at 1.
  destruct (fold_m l _ 0%nat s) as [[n|e] s2] eqn:Ef.
  - eexists _, _. split; [reflexivity|]. split; [|discriminate].
    apply load_loop_count in Ef. lia.
  - eexists _, _. split; [reflexivity|]. split; [lia|discriminate].
Qed.

End ConsolidatorProperties.

(** ** More on the geocoder *)

Module GeocoderProperties.
Import Py Eff Json Store Geocoder Spec StoreNotions GeocoderNotions Examples
  PyFacts EffFacts LoopFacts GeocoderFacts ConsolidatorProperties.
Local Open Scope eff_scope.

(** *** [SELECT DISTINCT] *)

Lemma distinct_from_In {A} `{EqDecision A} (seen l : list A) x :
  List.In x (distinct_from seen l) <-> List.In x l /\ ~ List.In x seen.
Proof.
  revert seen. induction l as [|y t IH]; intros seen; cbn [distinct_from].
  - cbn. tauto.
  - destruct (bool_decide (y ∈ seen)) eqn:E.
    + apply bool_decide_eq_true, list_elem_of_In in E. rewrite IH. cbn.
      split; [tauto|]. intros [[<-|H] Hn]; [contradiction|tauto].
    + apply bool_decide_eq_false in E. rewrite list_elem_of_In in E.
      cbn [List.In]. rewrite IH. cbn [List.In].
      destruct (decide (y = x)) as [->|Hne]; [tauto|]. tauto.
Qed.

Lemma distinct_from_NoDup {A} `{EqDecision A} (seen l : list A) :
  List.NoDup (distinct_from seen l).
Proof.
  revert seen. induction l as [|y t IH]; intros seen; cbn [distinct_from].
  - constructor.
  - destruct (bool_decide (y ∈ seen)); [apply IH|].
    constructor; [|apply IH]. rewrite distinct_from_In. cbn. tauto.
Qed.

Lemma distinct_In {A} `{EqDecision A} (l : list A) x :
  List.In x (distinct l) <-> List.In x l.
Proof. unfold distinct. rewrite distinct_from_In. cbn. tauto. Qed.

(** A column with no more non-NULL values has no larger a count. *)
Lemma count_distinct_le a b :
  (forall v, is_null v = false -> List.In v a -> List.In v b) ->
  (count_distinct a <= count_distinct b)%nat.
Proof.
  intros Hab. unfold count_distinct. apply List.NoDup_incl_length.
  - apply distinct_from_NoDup.
  - intros v Hv. apply (proj1 (distinct_In _ _)) in Hv.
    apply (proj2 (distinct_In _ _)).
    apply List.filter_In in Hv as [Hv Hn]. apply negb_true_iff in Hn.
    apply List.filter_In. split; [now apply Hab|now rewrite Hn].
Qed.

Lemma sql_eq_true a b : sql_eq a b = true -> a = b /\ is_null a = false.
Proof.
  unfold sql_eq. intros H. apply andb_true_iff in H as [H Hd].
  apply andb_true_iff in H as [Ha _]. apply bool_decide_eq_true in Hd.
  split; [exact Hd|]. now apply negb_true_iff in Ha.
Qed.

Lemma sql_eq_refl a : is_null a = false -> sql_eq a a = true.
Proof.
  intros H. unfold sql_eq. rewrite H. cbn. now apply bool_decide_eq_true.
Qed.

(** The rows of the join, one by one. *)
Lemma joined_rows_In hs gs h og :
  List.In (h, og) (joined_rows hs gs) <->
  List.In h hs /\ is_null (h_location h) = false
  /\ match og with
     | Some g => List.In g gs /\ g_location_string g = h_location h
     | None => forall g, List.In g gs -> g_location_string g <> h_location h
     end.
Proof.
  unfold joined_rows. rewrite in_flat_map. split.
  - intros (h0 & Hh0 & Hin). apply List.filter_In in Hh0 as [Hh0 Hn].
    apply negb_true_iff in Hn.
    destruct (List.filter _ gs) as [|g more] eqn:Ef.
    + destruct Hin as [E|[]]. injection E as <- <-. repeat split; try assumption.
      intros g Hg Eg.
      assert (Hf : List.In g (List.filter
                    (fun g => sql_eq (h_location h0) (g_location_string g)) gs)).
      { apply List.filter_In. split; [exact Hg|]. rewrite Eg. now apply sql_eq_refl. }
      rewrite Ef in Hf. destruct Hf.
    + apply in_map_iff in Hin as (g0 & E & Hg0). injection E as <- <-.
      rewrite <- Ef in Hg0. apply List.filter_In in Hg0 as [Hg0 He].
      apply sql_eq_true in He as [He _]. now repeat split.
  - intros (Hh & Hn & Hog). exists h. split.
    { apply List.filter_In. split; [exact Hh|]. now rewrite Hn. }
    destruct og as [g|].
    + destruct Hog as [Hg Eg].
      assert (Hf : List.In g (List.filter
                    (fun g => sql_eq (h_location h) (g_location_string g)) gs)).
      { apply List.filter_In. split; [exact Hg|]. rewrite Eg. now apply sql_eq_refl. }
      destruct (List.filter _ gs) as [|g1 more]; [destruct Hf|].
      apply in_map_iff. now exists g.
    + destruct (List.filter _ gs) as [|g1 more] eqn:Ef; [now left|].
      exfalso.
      assert (Hf : List.In g1 (List.filter
                    (fun g => sql_eq (h_location h) (g_location_string g)) gs)).
      { rewrite Ef. now left. }
      apply List.filter_In in Hf as [Hg1 He]. apply sql_eq_true in He as [He _].
      exact (Hog g1 Hg1 (eq_sym He)).
Qed.

(** Every hotel with a location is in the join. *)
Lemma joined_rows_hotel hs gs h :
  List.In h hs -> is_null (h_location h) = false ->
  exists og, List.In (h, og) (joined_rows hs gs).
Proof.
  intros Hh Hn.
  destruct (List.filter (fun g => sql_eq (h_location h) (g_location_string g)) gs)
    as [|g more] eqn:Ef.
  - exists None. apply joined_rows_In. repeat split; try assumption.
    intros g Hg Eg.
    assert (Hf : List.In g (List.filter
                  (fun g => sql_eq (h_location h) (g_location_string g)) gs)).
    { apply List.filter_In. split; [exact Hg|]. rewrite Eg. now apply sql_eq_refl. }
    rewrite Ef in Hf. destruct Hf.
  - assert (Hf : List.In g (List.filter
                  (fun g => sql_eq (h_location h) (g_location_string g)) gs)).
    { rewrite Ef. now left. }
    apply List.filter_In in Hf as [Hg He]. apply sql_eq_true in He as [He _].
    exists (Some g). apply joined_rows_In. now repeat split.
Qed.

(** The values counted by the three columns. *)
Lemma total_values hs gs v :
  is_null v = false ->
  List.In v (map (fun p => h_location (fst p)) (joined_rows hs gs)) <->
  exists h, List.In h hs /\ h_location h = v.
Proof.
  intros Hv. rewrite in_map_iff. split.
  - intros ([h og] & E & Hin). apply joined_rows_In in Hin as (Hh & _). now exists h.
  - intros (h & Hh & E).
    destruct (joined_rows_hotel hs gs h Hh) as (og & Hin); [now rewrite E|].
    now exists (h, og).
Qed.

Lemma geocoded_values hs gs v :
  is_null v = false ->
  List.In v (map (fun p => match snd p with
                           | Some g => g_location_string g
                           | None => Null
                           end) (joined_rows hs gs)) <->
  (exists h, List.In h hs /\ h_location h = v)
  /\ (exists g, List.In g gs /\ g_location_string g = v).
Proof.
  intros Hv. rewrite in_map_iff. split.
  - intros ([h [g|]] & E & Hin); cbn in E; [|subst v; discriminate].
    apply joined_rows_In in Hin as (Hh & _ & Hg & Eg).
    split; [exists h|exists g]; split; congruence.
  - intros [(h & Hh & Eh) (g & Hg & Eg)]. exists (h, Some g). split; [exact Eg|].
    apply joined_rows_In. repeat split; try assumption; congruence.
Qed.

Lemma with_country_values hs gs v :
  is_null v = false ->
  List.In v (map (fun p => if null_or_empty (h_country (fst p)) then Null
                           else h_location (fst p)) (joined_rows hs gs)) ->
  exists h, List.In h hs /\ h_location h = v.
Proof.
  intros Hv Hin. apply in_map_iff in Hin as ([h og] & E & Hin). cbn in E.
  destruct (null_or_empty (h_country h)); [subst v; discriminate|].
  apply joined_rows_In in Hin as (Hh & _). now exists h.
Qed.

Lemma coverage_bounds hs gs t g c :
  coverage hs gs = (t, g, c) -> (g <= t)%nat /\ (c <= t)%nat.
Proof.
  unfold coverage. intros E. injection E as <- <- <-. split.
  - apply count_distinct_le. intros v Hv Hin.
    apply (geocoded_values hs gs v Hv) in Hin as [Hh _].
    now apply (total_values hs gs v Hv).
  - apply count_distinct_le. intros v Hv Hin.
    apply (with_country_values hs gs v Hv) in Hin.
    now apply (total_values hs gs v Hv).
Qed.

Lemma verify_geocoding_spec s r s' :
  verify_geocoding s = (r, s') ->
  g_db s' = g_db s
  /\ match r with
     | Ok counts =>
         exists hs gs, hotels (the_db s) = Some hs /\ geocoding (the_db s) = Some gs
                       /\ counts = coverage (rows hs) (rows gs)
     | Raise e => e = OperationalError /\ s' = s
     end.
Proof.
  unfold verify_geocoding, bind at 1, get.
  destruct (hotels (the_db s)) as [hs|]; [destruct (geocoding (the_db s)) as [gs|]|].
  - destruct (coverage (rows hs) (rows gs)) as [[t g] c] eqn:Ec.
    cbn. intros E. injection E as <- <-. split; [reflexivity|].
    now exists hs, gs.
  - intros E. injection E as <- <-. now split.
  - intros E. injection E as <- <-. now split.
Qed.

(** X15. The coverage report never counts more geocoded locations, or
    more locations with a country, than locations: both percentages are
    at most 100; and the report leaves the database as it was. *)
Theorem coverage_counts_are_bounded s total geocoded with_country s' :
  verify_geocoding s = (Ok (total, geocoded, with_country), s') ->
  (geocoded <= total)%nat /\ (with_country <= total)%nat /\ g_db s' = g_db s.
Proof.
  intros E. apply verify_geocoding_spec in E as (Hdb & hs & gs & _ & _ & Ec).
  symmetry in Ec. apply coverage_bounds in Ec as [H1 H2]. now repeat split.
Qed.

Lemma coverage_counts_are_bounded_witness :
  fst (verify_geocoding munich_store) = Ok (1, 1, 1)%nat
  /\ (1 <= 1)%nat /\ (1 <= 1)%nat
  /\ g_db (snd (verify_geocoding munich_store)) = g_db munich_store.
Proof.
  split; [vm_compute; reflexivity|].
  apply (coverage_counts_are_bounded munich_store 1 1 1
           (snd (verify_geocoding munich_store))).
  vm_compute. reflexivity.
Defined.

(** *** What the passes leave alone *)

Lemma stateless_float_of_json {S} v : stateless (float_of_json (S := S) v).
Proof. intros s r s'. apply float_of_json_state. Qed.

Lemma stateless_first_result {S} v : stateless (first_result (S := S) v).
Proof. intros s r s'. apply first_result_state. Qed.

Lemma stateless_country_of_address {S} v : stateless (country_of_address (S := S) v).
Proof.
  intros s r s'. unfold country_of_address. destruct v; intros E; now injection E.
Qed.

Section GeoFrame.
Context (R : geo -> geo -> Prop).
Hypothesis R_refl : forall s, R s s.
Hypothesis R_trans : forall a b c, R a b -> R b c -> R a c.
Hypothesis R_frame : forall s s', same_exchange s s' -> R s s'.

Lemma frame_stateless {A} (m : M geo A) : stateless m -> preserves R m.
Proof. intros Hm s r s' E. rewrite (Hm s r s' E). apply R_refl. Qed.

Lemma frame_log l m : preserves R (log (S := geo) l m).
Proof. intros s r s' E. injection E as _ <-. now apply R_frame. Qed.

Ltac gf_step :=
  first [ apply (preserves_ret R R_refl)
        | apply (preserves_raise R R_refl)
        | apply (preserves_get R R_refl)
        | apply frame_log
        | apply frame_stateless;
            first [ apply stateless_subscript | apply stateless_get_or
                  | apply stateless_bind_param | apply stateless_float_of_json
                  | apply stateless_first_result
                  | apply stateless_country_of_address ]
        | apply (preserves_modify R); intros ?; apply R_frame; now repeat split
        | apply (preserves_bind R R_trans); [|intros ?] ].

Lemma frame_save_cache : preserves R save_cache.
Proof.
  unfold save_cache. apply (preserves_try R R_trans).
  - gf_step; [gf_step|]. destruct (cache_faults a) as [|[|] rest]; repeat gf_step.
  - intros e h E. injection E as <-. gf_step.
Qed.

(** What follows the answer of the endpoint in [geocode_location]. *)
Lemma frame_store_result key results :
  preserves R
    (if truthy results then
       result <- first_result results ;;
       la <- subscript result "lat" ;;
       la <- float_of_json la ;;
       lo <- subscript result "lon" ;;
       lo <- float_of_json lo ;;
       address <- get_or result "address" (JDict []) ;;
       cc <- get_or address "country_code" (JStr []) ;;
       fa <- get_or result "display_name" (JStr []) ;;
       let geocoded_data := Geocoded la lo cc fa in
       modify (fun s => set_cache (<[key := geocoded_data]> (cache s)) s) ;;;
       save_cache ;;;
       ret (Some geocoded_data)
     else ret None).
Proof.
  destruct (truthy results); [|gf_step].
  do 9 (gf_step; [gf_step|]).
  gf_step; [apply frame_save_cache|gf_step].
Qed.

Hypothesis R_request : forall q, preserves R (request_endpoint q).
Hypothesis R_insert :
  forall now l la lo cc fa, preserves R (insert_geocoding now l la lo cc fa).
Hypothesis R_update : forall n cond, preserves R (update_country n cond).

Lemma frame_geocode_location location country :
  preserves R (geocode_location location country).
Proof.
  unfold geocode_location. destruct location as [|c0 loc]; [gf_step|].
  gf_step; [gf_step|].
  destruct (cache a !! _); [gf_step|].
  apply (preserves_try R R_trans).
  - gf_step; [apply R_request|]. apply frame_store_result.
  - intros e h E. injection E as <-. repeat gf_step.
Qed.

(** What [update_database_geocoding] does with a result. *)
Lemma frame_record_result now location g :
  preserves R
    (try_except
       (cc <- bind_param (country_code g) ;;
        fa <- bind_param (formatted_address g) ;;
        insert_geocoding now (Text location)
          (match lat g with NaN => Null | f => Real f end)
          (match lon g with NaN => Null | f => Real f end) cc fa ;;;
        country_name <- country_of_address (formatted_address g) ;;
        update_country (Text country_name)
          (fun r => sql_eq (h_location r) (Text location)
                    && null_or_empty (h_country r)) ;;;
        log INFO "Added geocoding and updated country")
       (on_Exception (log ERROR "Error updating data"))).
Proof.
  apply (preserves_try R R_trans).
  - gf_step; [gf_step|]. gf_step; [gf_step|].
    gf_step; [apply R_insert|].
    gf_step; [gf_step|].
    gf_step; [apply R_update|gf_step].
  - intros e h E. injection E as <-. gf_step.
Qed.

Lemma frame_geocode_one now row : preserves R (geocode_one now row).
Proof.
  unfold geocode_one.
  destruct (fst row) as [| | |location]; [gf_step | gf_step | gf_step |].
  gf_step; [apply frame_geocode_location|].
  destruct a as [g|]; [|gf_step].
  apply frame_record_result.
Qed.

Lemma frame_update_database_geocoding now :
  preserves R (update_database_geocoding now).
Proof.
  unfold update_database_geocoding. gf_step; [gf_step|].
  destruct (hotels (the_db a)), (geocoding (the_db a)); try gf_step.
  - gf_step.
  - apply (preserves_for_each R R_refl R_trans). intros x.
    apply frame_geocode_one.
Qed.

Lemma frame_backfill_one row : preserves R (backfill_one row).
Proof.
  unfold backfill_one. apply (preserves_try R R_trans).
  - gf_step; [gf_step|]. gf_step; [apply R_update|gf_step].
  - intros e h E. injection E as <-. gf_step.
Qed.

Lemma frame_update_missing_countries : preserves R update_missing_countries.
Proof.
  unfold update_missing_countries. gf_step; [gf_step|].
  destruct (hotels (the_db a)), (geocoding (the_db a)); try gf_step.
  - gf_step.
  - apply (preserves_for_each R R_refl R_trans). intros x.
    apply frame_backfill_one.
Qed.

Lemma frame_geocoding_update now : preserves R (geocoding_update now).
Proof.
  unfold geocoding_update.
  apply (preserves_bind R R_trans);
    [apply frame_update_database_geocoding|intros _].
  apply frame_update_missing_countries.
Qed.

End GeoFrame.

Lemma passes_keep_refl s : passes_keep s s.
Proof. now split. Qed.

Lemma passes_keep_trans a b c : passes_keep a b -> passes_keep b c -> passes_keep a c.
Proof. intros [H1 H2] [H3 H4]. split; [congruence|auto]. Qed.

Lemma passes_keep_frame s s' : same_exchange s s' -> passes_keep s s'.
Proof. intros (Hdb & _). unfold passes_keep. rewrite Hdb. now split. Qed.

Lemma passes_keep_request q : preserves passes_keep (request_endpoint q).
Proof.
  intros s r s' E. apply request_endpoint_calls in E as (_ & _ & Hdb).
  unfold passes_keep. rewrite Hdb. now split.
Qed.

Lemma passes_keep_insert now l la lo cc fa :
  preserves passes_keep (insert_geocoding now l la lo cc fa).
Proof.
  intros s r s' E. unfold insert_geocoding, bind, get in E.
  destruct (geocoding (the_db s)) as [t|] eqn:Ht.
  2:{ injection E as _ <-. apply passes_keep_refl. }
  injection E as _ <-. unfold passes_keep. cbn.
  unfold the_db in *. destruct (g_db s) as [d|]; cbn in *; [|discriminate].
  split; [reflexivity|]. rewrite Ht. intros v Hv.
  apply in_map_iff in Hv as (g & <- & Hg). rewrite map_app, in_app_iff.
  destruct (geocoding_conflict l g) eqn:Ec.
  - right. cbn. left. unfold geocoding_conflict in Ec.
    now apply sql_eq_true in Ec as [Ec _].
  - left. apply in_map. apply List.filter_In. split; [exact Hg|]. now rewrite Ec.
Qed.

Lemma erase_after_update n (cond : hotel_row -> bool) (l : list hotel_row) :
  map (set_h_country Null)
    (map (fun r => if cond r then set_h_country n r else r) l)
  = map (set_h_country Null) l.
Proof.
  rewrite map_map. apply map_ext. intros r. now destruct (cond r).
Qed.

Lemma passes_keep_update n cond : preserves passes_keep (update_country n cond).
Proof.
  intros s r s' E. unfold update_country, bind, get in E.
  destruct (hotels (the_db s)) as [t|] eqn:Ht.
  2:{ injection E as _ <-. apply passes_keep_refl. }
  injection E as _ <-. unfold passes_keep. cbn.
  unfold the_db in *. destruct (g_db s) as [d|]; cbn in *; [|discriminate].
  rewrite Ht. split; [apply erase_after_update|auto].
Qed.

Lemma passes_keep_update_run now : preserves passes_keep (geocoding_update now).
Proof.
  apply (frame_geocoding_update passes_keep passes_keep_refl passes_keep_trans
           passes_keep_frame passes_keep_request passes_keep_insert
           passes_keep_update).
Qed.

Lemma tables_of_state s hs gs :
  hotels (the_db s) = Some hs -> geocoding (the_db s) = Some gs ->
  hotel_rows (g_db s) = rows hs /\ geocoding_rows (g_db s) = rows gs.
Proof.
  unfold the_db, hotel_rows, geocoding_rows.
  destruct (g_db s) as [d|]; cbn; [|discriminate]. now intros -> ->.
Qed.

Lemma locations_of_erased (l : list hotel_row) :
  map h_location l = map h_location (map (set_h_country Null) l).
Proof. rewrite map_map. now apply map_ext. Qed.

(** X16. Around the two passes the coverage report keeps its number of
    locations, and its number of geocoded locations does not go down: the
    "newly geocoded" figure of [main] is never negative. *)
Theorem update_keeps_locations now s t g c sa r s1 t' g' c' sb :
  verify_geocoding s = (Ok (t, g, c), sa) ->
  geocoding_update now sa = (r, s1) ->
  verify_geocoding s1 = (Ok (t', g', c'), sb) ->
  t' = t /\ (g <= g')%nat.
Proof.
  intros E0 Erun E1.
  apply verify_geocoding_spec in E0 as (Hdb & hs & gs & Hhs & Hgs & Ec).
  apply verify_geocoding_spec in E1 as (_ & hs' & gs' & Hhs' & Hgs' & Ec').
  apply passes_keep_update_run in Erun as [Hh Hg].
  destruct (tables_of_state s hs gs Hhs Hgs) as [Th Tg].
  destruct (tables_of_state s1 hs' gs' Hhs' Hgs') as [Th' Tg'].
  rewrite Hdb, Th, Tg in *. rewrite Th' in Hh. rewrite Tg' in Hg.
  assert (Hloc : map h_location (rows hs') = map h_location (rows hs)).
  { now rewrite (locations_of_erased (rows hs')), Hh, <- locations_of_erased. }
  assert (Hin : forall v, (exists h, List.In h (rows hs) /\ h_location h = v)
                          <-> (exists h, List.In h (rows hs') /\ h_location h = v)).
  { intros v. split; intros (h & Hh0 & E).
    - assert (H : List.In v (map h_location (rows hs'))).
      { rewrite Hloc, <- E. now apply in_map. }
      apply in_map_iff in H as (h' & E' & H'). now exists h'.
    - assert (H : List.In v (map h_location (rows hs))).
      { rewrite <- Hloc, <- E. now apply in_map. }
      apply in_map_iff in H as (h' & E' & H'). now exists h'. }
  unfold coverage in Ec, Ec'. injection Ec as -> -> ->. injection Ec' as -> -> ->.
  split.
  - apply Nat.le_antisymm; apply count_distinct_le; intros v Hv H;
      apply (total_values _ _ v Hv); apply (total_values _ _ v Hv) in H;
      now apply Hin.
  - apply count_distinct_le. intros v Hv H.
    apply (geocoded_values _ _ v Hv) in H as [H1 (g0 & Hg0 & Eg)].
    apply (geocoded_values _ _ v Hv). split; [now apply Hin|].
    assert (H : List.In v (map g_location_string (rows gs'))).
    { apply Hg. rewrite <- Eg. now apply in_map. }
    apply in_map_iff in H as (g1 & E1 & H1'). now exists g1.
Qed.

Lemma update_keeps_locations_witness :
  let sa := snd (verify_geocoding munich_store_new) in
  let s1 := snd (geocoding_update (u "now") sa) in
  fst (verify_geocoding munich_store_new) = Ok (1, 0, 1)%nat
  /\ fst (verify_geocoding s1) = Ok (1, 1, 0)%nat
  /\ (1 = 1 /\ 0 <= 1)%nat.
Proof.
  intros sa s1.
  split; [vm_compute; reflexivity|]. split; [vm_compute; reflexivity|].
  apply (update_keeps_locations (u "now") munich_store_new 1 0 1 sa
           (fst (geocoding_update (u "now") sa)) s1 1 1 0
           (snd (verify_geocoding s1))).
  - vm_compute. reflexivity.
  - apply surjective_pairing.
  - vm_compute. reflexivity.
Defined.

(** *** One resolution *)

Lemma same_exchange_refl s : same_exchange s s.
Proof. now repeat split. Qed.

Lemma same_exchange_trans a b c :
  same_exchange a b -> same_exchange b c -> same_exchange a c.
Proof. unfold same_exchange. intros (-> & -> & ->) (-> & -> & ->). now repeat split. Qed.

Lemma geocode_location_outcome location country s :
  exists r s',
    geocode_location location country s = (Ok r, s')
    /\ g_db s' = g_db s
    /\ (calls s' = calls s
        \/ calls s' = calls s ++ [search_query location country])
    /\ (location = [] -> r = None /\ s' = s).
Proof.
  unfold geocode_location. destruct location as [|c0 loc].
  { exists None, s. now repeat split; try left. }
  cbv zeta. unfold bind at 1, get at 1.
  destruct (cache s !! _) as [hit|].
  { exists (Some hit), s. split; [reflexivity|]. split; [reflexivity|].
    split; [now left|discriminate]. }
  unfold try_except, on_Exception. unfold bind at 1.
  destruct (request_endpoint _ s) as [[results|e] sa] eqn:Er;
    apply request_endpoint_calls in Er as (Hcalls & _ & Hdb).
  - match goal with |- context [match ?m sa with _ => _ end] =>
      destruct (m sa) as [[r2|e2] sb] eqn:Em end;
      apply (frame_store_result same_exchange same_exchange_refl
               same_exchange_trans (fun _ _ H => H)) in Em
        as (Hdb2 & Hcalls2 & _).
    + exists r2, sb. split; [reflexivity|]. split; [congruence|].
      split; [right; congruence|discriminate].
    + eexists _, _. split; [reflexivity|]. cbn. split; [congruence|].
      split; [right; congruence|discriminate].
  - eexists _, _. split; [reflexivity|]. cbn. split; [congruence|].
    split; [now right|discriminate].
Qed.

(** X17. [geocode_location] never raises, never writes to the database,
    and sends at most one request, the one for the pair it was given; for
    an empty location it answers [None] and does nothing at all. *)
Theorem resolution_never_raises location country s :
  exists r s',
    geocode_location location country s = (Ok r, s')
    /\ g_db s' = g_db s
    /\ (calls s' = calls s
        \/ calls s' = calls s ++ [search_query location country])
    /\ (location = [] -> r = None /\ s' = s).
Proof. apply geocode_location_outcome. Qed.

(** *** The cache file *)

Lemma request_endpoint_cache query s r s' :
  request_endpoint query s = (r, s') ->
  cache s' = cache s /\ cache_file s' = cache_file s
  /\ cache_faults s' = cache_faults s.
Proof.
  unfold request_endpoint, bind, modify, get. cbn.
  destruct (pending s) as [|[|results] rest]; intros E; injection E as <- <-;
    now repeat split.
Qed.

Lemma save_cache_written s :
  hd true (cache_faults s) = true ->
  exists s', save_cache s = (Ok tt, s')
             /\ cache s' = cache s /\ cache_file s' = Some (cache s).
Proof.
  intros Hok. unfold save_cache, try_except, bind, get.
  destruct (cache_faults s) as [|[|] rest]; [| |discriminate];
    eexists; (split; [reflexivity|]); now split.
Qed.

(** A resolution answered by the endpoint, with the cache file written. *)
Lemma resolved_from_endpoint location country s g s1 :
  cache s !! cache_key location country = None ->
  hd true (cache_faults s) = true ->
  geocode_location location country s = (Ok (Some g), s1) ->
  cache_file s1 = Some (cache s1).
Proof.
  intros Hmiss Hok. unfold geocode_location.
  destruct location as [|c0 loc]; [discriminate|].
  cbv zeta. unfold bind at 1, get at 1. rewrite Hmiss.
  unfold try_except, on_Exception.
  match goal with |- context [bind ?m ?k s] =>
    destruct (bind m k s) as [[r|e] s2] eqn:Eb end.
  2:{ cbn. discriminate. }
  intros E. injection E as -> ->.
  unfold bind at 1 in Eb.
  destruct (request_endpoint _ s) as [[results|e] sa] eqn:Er; [|discriminate].
  apply request_endpoint_cache in Er as (_ & _ & Hf).
  destruct (truthy results); [|discriminate].
  unfold bind at 1 in Eb.
  destruct (first_result results sa) as [[result|e] sb] eqn:E1; [|discriminate].
  apply first_result_state in E1 as ->.
  unfold bind at 1 in Eb.
  destruct (subscript result "lat" sa) as [[la|e] sb] eqn:E2; [|discriminate].
  apply subscript_state in E2 as ->.
  unfold bind at 1 in Eb.
  destruct (float_of_json la sa) as [[la'|e] sb] eqn:E3; [|discriminate].
  apply float_of_json_state in E3 as ->.
  unfold bind at 1 in Eb.
  destruct (subscript result "lon" sa) as [[lo|e] sb] eqn:E4; [|discriminate].
  apply subscript_state in E4 as ->.
  unfold bind at 1 in Eb.
  destruct (float_of_json lo sa) as [[lo'|e] sb] eqn:E5; [|discriminate].
  apply float_of_json_state in E5 as ->.
  unfold bind at 1 in Eb.
  destruct (get_or result "address" (JDict []) sa) as [[address|e] sb] eqn:E6; [|discriminate].
  apply get_or_state in E6 as ->.
  unfold bind at 1 in Eb.
  destruct (get_or address "country_code" (JStr []) sa) as [[cc|e] sb] eqn:E7; [|discriminate].
  apply get_or_state in E7 as ->.
  unfold bind at 1 in Eb.
  destruct (get_or result "display_name" (JStr []) sa) as [[fa|e] sb] eqn:E8; [|discriminate].
  apply get_or_state in E8 as ->.
  unfold bind at 1, modify at 1 in Eb.
  unfold bind at 1 in Eb.
  match type of Eb with context [save_cache ?st] =>
    destruct (save_cache_written st) as (sc & Hsave & Hc & Hfile) end.
  { cbn. now rewrite Hf. }
  rewrite Hsave in Eb. injection Eb as _ <-. now rewrite Hfile, Hc.
Qed.

(** X18. A result obtained from the endpoint survives the end of the
    run: when the cache file could be written, a new [GeocodingUpdater]
    loads it and answers the same pair with the same result without a
    request. *)
Theorem cache_survives_restart location country s g s1 :
  cache s !! cache_key location country = None ->
  hd true (cache_faults s) = true ->
  geocode_location location country s = (Ok (Some g), s1) ->
  exists s2,
    init s1 = (Ok tt, s2)
    /\ geocode_location location country s2 = (Ok (Some g), s2)
    /\ calls s2 = calls s1.
Proof.
  intros Hmiss Hok Hrun.
  pose proof (resolved_from_endpoint _ _ _ _ _ Hmiss Hok Hrun) as Hfile.
  pose proof (geocode_location_success _ _ _ _ _ Hrun) as [Hc _].
  unfold init, setup_geocoding_table, update_db, load_cache.
  unfold bind, modify, get. cbn. rewrite Hfile. cbn.
  eexists. split; [reflexivity|]. split; [|reflexivity].
  apply geocode_location_cached; [|exact Hc].
  intros ->. discriminate Hrun.
Qed.

Lemma cache_survives_restart_witness :
  exists s2,
    init (snd (geocode_location (u "Lisbon") (Some (u "Portugal")) lisbon_known))
    = (Ok tt, s2)
    /\ geocode_location (u "Lisbon") (Some (u "Portugal")) s2
       = (Ok (Some (Geocoded (Finite (5447631613402189 # 140737488355328))
                      (Finite (- 5143443984534537 # 562949953421312))
                      (JStr (u "pt")) (JStr (u "Lisboa, Portugal")))), s2)
    /\ calls s2
       = calls (snd (geocode_location (u "Lisbon") (Some (u "Portugal")) lisbon_known)).
Proof.
  apply (cache_survives_restart (u "Lisbon") (Some (u "Portugal")) lisbon_known).
  - reflexivity.
  - reflexivity.
  - vm_compute. reflexivity.
Defined.

(** X19. The first pass touches the hotels only to fill in countries:
    every hotel row keeps all its other columns, and a row whose country
    is neither NULL nor empty is left exactly as it was. *)
Theorem first_pass_only_fills_countries now s :
  let s' := snd (update_database_geocoding now s) in
  map (set_h_country Null) (hotel_rows (g_db s'))
  = map (set_h_country Null) (hotel_rows (g_db s))
  /\ keeps_countries (g_db s) (g_db s').
Proof.
  intros s'. split.
  - refine (proj1 (frame_update_database_geocoding passes_keep passes_keep_refl
                     passes_keep_trans passes_keep_frame passes_keep_request
                     passes_keep_insert passes_keep_update now s _ s' _)).
    apply surjective_pairing.
  - eapply first_pass_keeps_countries. apply surjective_pairing.
Qed.

(** *** The requests of the first pass *)

Lemma same_calls_insert now l la lo cc fa :
  preserves (fun s s' => calls s' = calls s) (insert_geocoding now l la lo cc fa).
Proof.
  intros s r s' E. unfold insert_geocoding, bind, get in E.
  destruct (geocoding (the_db s)); injection E as _ <-; reflexivity.
Qed.

Lemma same_calls_update n cond :
  preserves (fun s s' => calls s' = calls s) (update_country n cond).
Proof.
  intros s r s' E. unfold update_country, bind, get in E.
  destruct (hotels (the_db s)); injection E as _ <-; reflexivity.
Qed.

(** One row of the result set: no exception, at most one request. *)
Lemma geocode_one_outcome now row s :
  exists s' extra,
    geocode_one now row s = (Ok tt, s')
    /\ calls s' = calls s ++ extra /\ (length extra <= 1)%nat.
Proof.
  unfold geocode_one.
  destruct (fst row) as [| | |location];
    try (exists s, []; rewrite app_nil_r; cbn; split; [reflexivity|split; [reflexivity|lia]]).
  unfold bind at 1.
  destruct (geocode_location_outcome location (text_or_none (snd row)) s)
    as (r & s1 & -> & _ & Hcalls & _).
  assert (Hc : exists extra, calls s1 = calls s ++ extra /\ (length extra <= 1)%nat).
  { destruct Hcalls as [-> | ->].
    - exists []. rewrite app_nil_r. split; [reflexivity|cbn; lia].
    - eexists. split; [reflexivity|cbn; lia]. }
  destruct Hc as (extra & Hc & Hlen).
  destruct r as [g|].
  2:{ exists s1, extra. now split. }
  match goal with |- context [try_except ?m ?h s1] =>
    assert (Hret : returns (try_except m h));
    [ apply returns_try_all, returns_log
    | destruct (Hret s1) as ([] & s2 & E2) ] end.
  exists s2, extra. split; [exact E2|]. split; [|exact Hlen].
  rewrite <- Hc.
  refine (frame_record_result (fun s s' => calls s' = calls s) _ _ _
            same_calls_insert same_calls_update now location g s1 _ _ E2).
  - reflexivity.
  - intros a b c H1 H2. congruence.
  - intros a b (_ & H & _). exact H.
Qed.

Lemma first_pass_loop now todo : forall s,
  exists s' extra,
    for_each todo (geocode_one now) s = (Ok tt, s')
    /\ calls s' = calls s ++ extra /\ (length extra <= length todo)%nat.
Proof.
  induction todo as [|row todo IH]; intros s.
  - exists s, []. rewrite app_nil_r. cbn. split; [reflexivity|split; [reflexivity|lia]].
  - cbn [for_each]. unfold bind at 1.
    destruct (geocode_one_outcome now row s) as (s1 & e1 & -> & H1 & L1).
    destruct (IH s1) as (s2 & e2 & -> & H2 & L2).
    exists s2, (e1 ++ e2). split; [reflexivity|].
    split; [now rewrite H2, H1, app_assoc|]. rewrite length_app. cbn [length]. lia.
Qed.

Lemma locations_to_geocode_In hs gs l c :
  List.In (l, c) (locations_to_geocode hs gs) ->
  is_null l = false
  /\ (exists h, List.In h hs /\ h_location h = l /\ h_country h = c)
  /\ forall g, List.In g gs -> g_location_string g <> l.
Proof.
  unfold locations_to_geocode. intros H. apply (proj1 (distinct_In _ _)) in H.
  apply in_map_iff in H as (h & E & Hh). injection E as <- <-.
  apply List.filter_In in Hh as [Hh Hc].
  apply andb_true_iff in Hc as [Hg Hn]. apply negb_true_iff in Hn, Hg.
  split; [exact Hn|]. split; [now exists h|].
  intros g Hin Eg.
  assert (Hex : existsb (fun g => sql_eq (h_location h) (g_location_string g)) gs = true).
  { apply existsb_exists. exists g. split; [exact Hin|].
    rewrite Eg. now apply sql_eq_refl. }
  rewrite Hex in Hg. discriminate.
Qed.

(** X20. With both tables in place the first pass never raises and sends
    at most one request for each pair of its result set; the pairs are
    distinct, and none of them has a location that is NULL or already has
    a geocoding row. *)
Theorem first_pass_request_budget now s hs gs :
  hotels (the_db s) = Some hs -> geocoding (the_db s) = Some gs ->
  let todo := locations_to_geocode (rows hs) (rows gs) in
  exists s' extra,
    update_database_geocoding now s = (Ok tt, s')
    /\ calls s' = calls s ++ extra
    /\ (length extra <= length todo)%nat
    /\ List.NoDup todo
    /\ forall l c, List.In (l, c) todo ->
         is_null l = false
         /\ forall g, List.In g (rows gs) -> g_location_string g <> l.
Proof.
  intros Hhs Hgs todo. unfold update_database_geocoding.
  unfold bind at 1, get at 1. rewrite Hhs, Hgs.
  unfold bind at 1. cbn [log modify].
  match goal with |- context [for_each _ _ ?s0] =>
    destruct (first_pass_loop now todo s0) as (s' & extra & E & Hc & Hl) end.
  exists s', extra. split; [exact E|]. split; [exact Hc|]. split; [exact Hl|].
  split; [apply distinct_from_NoDup|].
  intros l c Hin. apply locations_to_geocode_In in Hin as (Hn & _ & Hg). now split.
Qed.

Lemma first_pass_request_budget_witness :
  exists s' extra,
    update_database_geocoding (u "now") munich_store_new = (Ok tt, s')
    /\ calls s' = calls munich_store_new ++ extra
    /\ (length extra <= 2)%nat
    /\ List.NoDup [ (Text (u "Munich"), Text []); (Text (u "Munich"), Text (u "Germany")) ]
    /\ forall l c,
         List.In (l, c)
           [ (Text (u "Munich"), Text []); (Text (u "Munich"), Text (u "Germany")) ] ->
         is_null l = false
         /\ forall g, List.In g (@nil geocoding_row) -> g_location_string g <> l.
Proof.
  apply (first_pass_request_budget (u "now") munich_store_new
           (Table [ munich_hotel 1 "Alpen Tennis Hotel" "";
                    munich_hotel 2 "Hotel Isar" "Germany" ] 2) empty_table);
    reflexivity.
Defined.

End GeocoderProperties.
